(** * Implied-volatility aggregation pipeline: ingestion and cube building

    A shallow embedding of [2_zips_to_zarrs_combined.py] (module
    [ZipsToZarr]) and [3_produce_iv_dataset_full.py] (module [ProduceIV]).

    Python floats and NumPy [float64] are IEEE 754 binary64 numbers, so they
    are modelled by Rocq's primitive floats: arithmetic, comparisons and NaN
    behave bit for bit as in the source.  Data frames are lists of records,
    one record per row, in frame order. *)

From Stdlib Require Import ZArith List String Ascii Bool Lia Floats.
From Stdlib Require Import Permutation Sorted.
From Stdlib Require Uint63.
Import ListNotations.

Set Warnings "-inexact-float".
Set Implicit Arguments.

Open Scope string_scope.
Open Scope list_scope.
Open Scope float_scope.

(** ** Numbers *)

(** A Python [int] used in float arithmetic ([days - tgt], [T1d / 365.0]). *)
Definition float_of_int (z : Z) : float := of_uint63 (Uint63.of_Z z).

(** A calendar day, counted in days from a fixed origin. *)
Definition date := Z.

(** pandas' notion of "same value" when it looks for duplicates: equal
    numbers, or two missing values. *)
Definition same_float (a b : float) : bool :=
  (a =? b) || (is_nan a && is_nan b).

Definition same_option {A : Type} (eqb : A -> A -> bool) (a b : option A) : bool :=
  match a, b with
  | Some x, Some y => eqb x y
  | None, None => true
  | _, _ => false
  end.

(** ** Frames *)

(** [DataFrame.drop_duplicates] (keep = 'first'): a row is dropped when an
    earlier kept row is the same under [same]. *)
Section DropDuplicates.
Context {A : Type} (same : A -> A -> bool).

Fixpoint drop_duplicates_from (seen l : list A) : list A :=
  match l with
  | [] => []
  | x :: t =>
      if existsb (same x) seen then drop_duplicates_from seen t
      else x :: drop_duplicates_from (x :: seen) t
  end.

Definition drop_duplicates (l : list A) : list A := drop_duplicates_from [] l.
End DropDuplicates.

(** One row of a surface snapshot: [KEEP_COLUMNS] after [infer_column_types]
    and [COLUMN_MAPPING].  [teo] is [None] for NaT (a date that did not
    parse); a numeric column that did not parse is NaN. *)
Record SurfaceRecord : Type := mkSurface {
  ticker : string;
  teo : option date;
  rate : float;
  years : float;
  atmVol : float;
  atmCen : float;
  atmVega : float;
  slope : float;
  cCnt : float;
  pCnt : float;
  vwidth : float
}.

(** A row of the persisted surface store.  [to_dataframe().reset_index()]
    gives the stored frame an [index] column; the rows of a new batch have
    none, so after [pd.concat] theirs is missing ([None]). *)
Record StoreRow : Type := mkStoreRow {
  index : option Z;
  data : SurfaceRecord
}.

Definition same_record (a b : SurfaceRecord) : bool :=
  String.eqb (ticker a) (ticker b)
  && same_option Z.eqb (teo a) (teo b)
  && same_float (rate a) (rate b)
  && same_float (years a) (years b)
  && same_float (atmVol a) (atmVol b)
  && same_float (atmCen a) (atmCen b)
  && same_float (atmVega a) (atmVega b)
  && same_float (slope a) (slope b)
  && same_float (cCnt a) (cCnt b)
  && same_float (pCnt a) (pCnt b)
  && same_float (vwidth a) (vwidth b).

(** [drop_duplicates()] without a subset compares every column. *)
Definition same_row (a b : StoreRow) : bool :=
  same_option Z.eqb (index a) (index b) && same_record (data a) (data b).

(** ** [2_zips_to_zarrs_combined.py] *)
Module ZipsToZarr.

(** What [extract_date_from_filename] does on the name of an archive: it
    returns None (the name holds no YYYY-MM-DD), it returns the date, or
    [pd.to_datetime] raises (the digits are no date that it accepts, as
    in 2024-02-30). *)
Inductive NameDate : Type :=
  | No_date
  | Date_in_name (d : date)
  | Raises_on_name.

(** A ZIP archive of the input directory, seen through the two functions
    that read it: [extract_date_from_filename] on its name and
    [process_zip_file] on its content ([None] when it returns None: no
    text file, fewer than two lines, no data line, or an exception). *)
Record ZipFile : Type := mkZip {
  name_date : NameDate;
  frame : option (list SurfaceRecord)
}.

(** The date that [extract_date_from_filename] returns, if it returns
    one. *)
Definition file_date (zip_file : ZipFile) : option date :=
  match name_date zip_file with
  | Date_in_name d => Some d
  | No_date | Raises_on_name => None
  end.

Definition name_raises (zip_file : ZipFile) : bool :=
  match name_date zip_file with
  | Raises_on_name => true
  | No_date | Date_in_name _ => false
  end.

(** The persisted store: [None] while the path does not exist. *)
Definition Store := option (list StoreRow).

Definition dates_of (rows : list StoreRow) : list date :=
  flat_map (fun r => match teo (data r) with Some d => [d] | None => [] end) rows.

(** [read_ok = false] is the [except] branch: any exception while the
    store is read is logged and the empty set returned.  The call
    [dates.date()] is one, on every store with a [teo] or a [tradingDate]
    variable: [date] of a pandas DatetimeIndex is an array, not a method.
    So [read_ok = false] is what the function does as it is written;
    [read_ok = true] is what it would do if the call returned. *)
Definition get_existing_zarr_dates (read_ok : bool) (store : Store) : list date :=
  match store with
  | None => []
  | Some rows => if read_ok then dates_of rows else []
  end.

Definition is_new (existing_zarr_dates : list date) (zip_file : ZipFile) : bool :=
  match file_date zip_file with
  | Some d => negb (existsb (Z.eqb d) existing_zarr_dates)
  | None => false
  end.

(** The directory listing [zip_files] is taken in sorted order, so that
    [sorted(new_files)] is the filtered list itself. *)
Definition get_new_zip_files
    (existing_zarr_dates : list date) (zip_files : list ZipFile) : list ZipFile :=
  filter (is_new existing_zarr_dates) zip_files.

Definition new_rows (dataframes : list (list SurfaceRecord)) : list StoreRow :=
  map (mkStoreRow None) (List.concat dataframes).

(** [combined_df.to_xarray()] of a frame built with [ignore_index=True]:
    the dimension [index] is 0, 1, 2, ... *)
Fixpoint range_index (i : Z) (l : list SurfaceRecord) : list StoreRow :=
  match l with
  | [] => []
  | r :: t => mkStoreRow (Some i) r :: range_index (i + 1)%Z t
  end.

Definition save_flat_dataset_to_zarr (dataframes : list (list SurfaceRecord)) : Store :=
  match dataframes with
  | [] => None
  | _ => Some (range_index 0%Z (List.concat dataframes))
  end.

Definition append_to_existing_zarr_fixed
    (new_dataframes : list (list SurfaceRecord)) (existing : list StoreRow) : Store :=
  match new_dataframes with
  | [] => Some existing
  | _ => Some (drop_duplicates same_row (existing ++ new_rows new_dataframes))
  end.

Definition parsed (zip_files : list ZipFile) : list (list SurfaceRecord) :=
  flat_map (fun z => match frame z with Some df => [df] | None => [] end) zip_files.

(** One run of [main] over the archives of the input directory; the result
    is the store after the run.  [get_new_zip_files] goes through every
    name before anything is read or written, so when a name raises the
    exception ends the run with the store as it was. *)
Definition main (read_ok : bool) (store : Store) (zip_files : list ZipFile) : Store :=
  let existing_dates := get_existing_zarr_dates read_ok store in
  if existsb name_raises zip_files then store
  else
    let new_zip_files := get_new_zip_files existing_dates zip_files in
    match new_zip_files with
    | [] => store
    | _ =>
        let all_dataframes := parsed new_zip_files in
        match store with
        | Some existing => append_to_existing_zarr_fixed all_dataframes existing
        | None => save_flat_dataset_to_zarr all_dataframes
        end
    end.

End ZipsToZarr.

(** ** [fs_industry_to_gics_sector_map.py] *)

Definition gic_code_to_gic_name : list (Z * string) :=
  [ (10, "Energy"); (15, "Materials"); (20, "Industrials");
    (25, "Consumer_Discretionary"); (30, "Consumer_Staples");
    (35, "Health_Care"); (40, "Financials");
    (45, "Information_Technology"); (50, "Communication_Services");
    (55, "Utilities"); (60, "Real_Estate"); (90, "Not_Classified") ]%Z.

(** The FactSet industry table; [None] is an entry whose value is [np.nan]. *)
Definition fs_industry_to_gic_code : list (Z * option Z) :=
  [
    (1105, Some 15); (1115, Some 15); (1120, Some 15); (1125, Some 15); (1130, Some 15);
    (1135, Some 15); (1205, Some 15); (1210, Some 20); (1220, Some 20); (1225, Some 25);
    (1230, Some 20); (1235, Some 20); (1245, Some 20); (1250, Some 20); (1255, Some 20);
    (1305, Some 45); (1310, Some 45); (1315, Some 45); (1320, Some 45); (1330, Some 20);
    (1340, Some 45); (1345, Some 45); (1352, Some 45); (1355, Some 45); (1405, Some 25);
    (1410, Some 25); (1415, Some 25); (1420, Some 25); (1425, Some 25); (1430, Some 20);
    (1435, Some 25); (1445, Some 25); (2105, Some 10); (2110, Some 10); (2120, Some 10);
    (2125, Some 10); (2205, Some 15); (2210, Some 15); (2215, Some 15); (2220, Some 25);
    (2225, Some 30); (2230, Some 15); (2235, Some 15); (2240, Some 15); (2305, Some 35);
    (2310, Some 35); (2315, Some 35); (2320, Some 35); (2325, Some 35); (2405, Some 30);
    (2410, Some 30); (2415, Some 30); (2420, Some 30); (2425, Some 30); (2430, Some 30);
    (2435, Some 30); (2440, Some 25); (2450, Some 25); (3105, Some 10); (3110, Some 10);
    (3115, Some 20); (3120, Some 20); (3130, Some 10); (3205, Some 20); (3210, Some 25);
    (3215, Some 20); (3220, Some 40); (3235, Some 20); (3255, Some 25); (3260, Some 30);
    (3265, Some 45); (3270, Some 35); (3305, Some 45); (3308, Some 45); (3310, Some 45);
    (3320, Some 45); (3355, Some 35); (3360, Some 35); (3365, Some 35); (3370, Some 35);
    (3405, Some 25); (3410, Some 25); (3415, Some 25); (3420, Some 25); (3425, Some 25);
    (3430, Some 25); (3435, Some 25); (3440, Some 25); (3445, Some 25); (3450, Some 25);
    (3505, Some 30); (3510, Some 30); (3515, Some 25); (3520, Some 25); (3525, Some 25);
    (3530, Some 25); (3535, Some 25); (3540, Some 25); (3545, Some 25); (3550, Some 25);
    (4605, Some 20); (4610, Some 20); (4615, Some 20); (4620, Some 20); (4625, Some 20);
    (4630, Some 20); (4705, Some 55); (4735, Some 55); (4755, Some 55); (4760, Some 55);
    (4805, Some 40); (4810, Some 40); (4825, Some 40); (4830, Some 40); (4840, Some 40);
    (4845, Some 40); (4850, Some 40); (4855, Some 40); (4860, Some 40); (4865, Some 40);
    (4875, Some 40); (4880, Some 40); (4885, Some 60); (4890, Some 60); (4905, Some 50);
    (4910, Some 50); (4915, Some 50); (6005, Some 90); (6010, Some 90); (7005, None);
    (7010, None); (7015, None); (7020, None); (7025, None); (7028, None);
    (7030, None); (7035, None); (9999, None)
  ]%Z.

(** [dict] lookup, as [Series.map(dict)] does it: a missing key gives NaN. *)
Fixpoint lookup {V : Type} (table : list (Z * V)) (k : Z) : option V :=
  match table with
  | [] => None
  | (k', v) :: t => if Z.eqb k k' then Some v else lookup t k
  end.

(** ** [3_produce_iv_dataset_full.py] *)

Inductive ValueType : Type := VolType | CenType.

(** A column of the pivoted frame: a target bucket, or [fwd_T1_T2]. *)
Inductive ExpiryLabel : Type :=
  | Direct (target : Z)
  | Forward (T1d T2d : Z).

Definition value_type_name (v : ValueType) : string :=
  match v with VolType => "atmVol" | CenType => "atmCen" end.

Definition same_value_type (a b : ValueType) : bool :=
  match a, b with
  | VolType, VolType | CenType, CenType => true
  | _, _ => false
  end.

Definition same_label (a b : ExpiryLabel) : bool :=
  match a, b with
  | Direct x, Direct y => Z.eqb x y
  | Forward x1 x2, Forward y1 y2 => Z.eqb x1 y1 && Z.eqb x2 y2
  | _, _ => false
  end.

(** The style factors of the style store (the columns melted into [style]). *)
Inductive Style : Type :=
  Aggressive_Growth | Growth | Value | Deep_Value | GARP | Yield.

Definition style_name (s : Style) : string :=
  match s with
  | Aggressive_Growth => "Aggressive_Growth"
  | Growth => "Growth"
  | Value => "Value"
  | Deep_Value => "Deep_Value"
  | GARP => "GARP"
  | Yield => "Yield"
  end.

(** The arithmetic the cube builder needs.  The program runs it on floats
    ([float_arith]); what the statements say of the structure of the cube
    (its groups and keys) holds for any carrier. *)
Class Arith (N : Type) : Type := {
  nadd : N -> N -> N;
  nmul : N -> N -> N;
  ndiv : N -> N -> N;
  nzero : N;
  nisnan : N -> bool
}.

#[export] Instance float_arith : Arith float := {|
  nadd := PrimFloat.add;
  nmul := PrimFloat.mul;
  ndiv := PrimFloat.div;
  nzero := 0;
  nisnan := is_nan
|}.

(** A row of the enriched frame [df], as [ddf] takes it (plus the ticker). *)
Record Enriched (N : Type) : Type := mkEnriched {
  e_teo : date;
  e_ticker : string;
  gics_sector : string;
  size_category : string;
  style : option string;
  expiry_label : ExpiryLabel;
  value_type : ValueType;
  value : N;
  market_cap : N
}.

(** A row of the cube ([agg_all], and the persisted output store, whose
    dense [index] is the position in the list). *)
Record CubeRow (N : Type) : Type := mkCube {
  c_teo : date;
  c_sector : string;
  c_size : string;
  c_style : string;
  c_label : ExpiryLabel;
  c_type : ValueType;
  weighted_value : N
}.

(** The subset of [drop_duplicates] in [append_to_existing_output]. *)
Definition same_key {N : Type} (a b : CubeRow N) : bool :=
  Z.eqb (c_teo a) (c_teo b)
  && String.eqb (c_sector a) (c_sector b)
  && String.eqb (c_size a) (c_size b)
  && String.eqb (c_style a) (c_style b)
  && same_label (c_label a) (c_label b)
  && same_value_type (c_type a) (c_type b).

Module ProduceIV.

(** *** Loading and the liquidity filter *)

(** [df.dropna()]: a row with a missing value in any column goes. *)
Definition has_na (r : SurfaceRecord) : bool :=
  match teo r with None => true | Some _ => false end
  || is_nan (rate r) || is_nan (years r) || is_nan (atmVol r)
  || is_nan (atmCen r) || is_nan (atmVega r) || is_nan (slope r)
  || is_nan (cCnt r) || is_nan (pCnt r) || is_nan (vwidth r).

(** [df_all['teo'] >= start_date], when a start date is given. *)
Definition on_or_after (start_date : option date) (r : SurfaceRecord) : bool :=
  match start_date, teo r with
  | None, _ => true
  | Some s, Some d => (s <=? d)%Z
  | Some _, None => false
  end.

Definition liquid (r : SurfaceRecord) : bool :=
  (0.01 <? years r) && (years r <? 2)
  && (atmVol r <? 1.5)
  && (20 <=? cCnt r + pCnt r)
  && (vwidth r <=? 0.2).

Definition load_and_filter_data
    (store : list StoreRow) (start_date : option date) : list SurfaceRecord :=
  let df_all := filter (fun r => negb (has_na r)) (map data store) in
  let df_all := filter (on_or_after start_date) df_all in
  filter liquid df_all.

(** *** Expiry bucketing *)

Definition TARGET_DAYS : list Z := [30; 60; 90; 120; 180; 270; 360; 540; 720]%Z.

(** [np.argmin] on floats: the index of the first minimum; a NaN counts
    as minimal and stops the scan.  [mp] is the minimum so far, at index
    [min_ind]; [i] is the index of the head of [l]. *)
Fixpoint argmin_from (mp : float) (min_ind i : nat) (l : list float) : nat :=
  match l with
  | [] => min_ind
  | x :: t =>
      if mp <=? x then argmin_from mp min_ind (S i) t
      else if is_nan x then i
      else argmin_from x i (S i) t
  end.

Definition argmin (l : list float) : nat :=
  match l with
  | [] => 0%nat
  | x :: t => if is_nan x then 0%nat else argmin_from x 0 1 t
  end.

Definition days_of (years : float) : float := years * 365.0.

(** [abs(days - tgt)]. *)
Definition distance (years : float) (tgt : Z) : float :=
  abs (days_of years - float_of_int tgt).

Definition diffs_of (years : float) : list float :=
  map (distance years) TARGET_DAYS.

Definition assign_closest_bucket (years : float) : Z * float :=
  let diffs := diffs_of years in
  let idx := argmin diffs in
  (nth idx TARGET_DAYS 0%Z, nth idx diffs nan).

(** A row of [df_all] with its [target_days] and [days_diff] columns. *)
Record Bucketed : Type := mkBucketed {
  rec : SurfaceRecord;
  target_days : Z;
  days_diff : float
}.

Definition assign_buckets (df_all : list SurfaceRecord) : list Bucketed :=
  map (fun r => let '(t, d) := assign_closest_bucket (years r) in mkBucketed r t d)
      df_all.

(** [sort_values('days_diff')], as a stable insertion sort.  pandas sorts
    with quicksort by default, which orders rows of equal distance as it
    happens to: of two expiries at the same distance from a target,
    either may come first there, and the earlier of the frame comes
    first here. *)
Fixpoint insert_by_diff (x : Bucketed) (l : list Bucketed) : list Bucketed :=
  match l with
  | [] => [x]
  | y :: t =>
      if days_diff x <=? days_diff y then x :: y :: t
      else y :: insert_by_diff x t
  end.

Definition sort_values_days_diff (df : list Bucketed) : list Bucketed :=
  fold_right insert_by_diff [] df.

Definition same_bucket (a b : Bucketed) : bool :=
  same_option Z.eqb (teo (rec a)) (teo (rec b))
  && String.eqb (ticker (rec a)) (ticker (rec b))
  && Z.eqb (target_days a) (target_days b).

(** [.groupby(['teo', 'ticker', 'target_days']).first()] on the sorted
    frame: the first row of every group (groups here in order of first
    appearance; pandas lists them by sorted key). *)
Definition closest_per_bucket (df_all : list SurfaceRecord) : list Bucketed :=
  drop_duplicates same_bucket (sort_values_days_diff (assign_buckets df_all)).

(** *** Pivot and forward volatility *)

Definition PivotKey : Type := (option date * string)%type.

Definition same_pivot_key (a b : PivotKey) : bool :=
  same_option Z.eqb (fst a) (fst b) && String.eqb (snd a) (snd b).

Definition pivot_key (b : Bucketed) : PivotKey := (teo (rec b), ticker (rec b)).

(** The index of [df_all.pivot(index=['teo', 'ticker'], ...)]. *)
Definition pivot_index (df : list Bucketed) : list PivotKey :=
  drop_duplicates same_pivot_key (map pivot_key df).

(** One cell of the pivot of column [col]: NaN where the (date, ticker)
    has no row in the bucket. *)
Definition pivot_value
    (col : SurfaceRecord -> float) (df : list Bucketed) (k : PivotKey) (tgt : Z) : float :=
  match find (fun b => same_pivot_key (pivot_key b) k && Z.eqb (target_days b) tgt) df with
  | Some b => col (rec b)
  | None => nan
  end.

(** [zip(TARGET_DAYS[:-1], TARGET_DAYS[1:])]. *)
Definition TARGET_PAIRS : list (Z * Z) :=
  combine (removelast TARGET_DAYS) (tl TARGET_DAYS).

(** The body of the two forward loops, for one cell: [v1] and [v2] are
    the cells of columns [T1d] and [T2d]; [x**2] is [x * x]. *)
Definition forward_vol (T1d T2d : Z) (v1 v2 : float) : float :=
  let T1 := float_of_int T1d / 365.0 in
  let T2 := float_of_int T2d / 365.0 in
  sqrt ((v2 * v2 * T2 - v1 * v1 * T1) / (T2 - T1)).

(** The radicand of [forward_vol]. *)
Definition forward_radicand (T1d T2d : Z) (v1 v2 : float) : float :=
  let T1 := float_of_int T1d / 365.0 in
  let T2 := float_of_int T2d / 365.0 in
  (v2 * v2 * T2 - v1 * v1 * T1) / (T2 - T1).

Definition vol_cols : list ExpiryLabel := map Direct TARGET_DAYS.
Definition fwd_cols : list ExpiryLabel :=
  map (fun p => Forward (fst p) (snd p)) TARGET_PAIRS.

(** A cell of [pivot_vol] / [pivot_cen] once the forward columns are in. *)
Definition cell
    (col : SurfaceRecord -> float) (df : list Bucketed) (k : PivotKey)
    (label : ExpiryLabel) : float :=
  match label with
  | Direct tgt => pivot_value col df k tgt
  | Forward T1d T2d =>
      forward_vol T1d T2d (pivot_value col df k T1d) (pivot_value col df k T2d)
  end.

Record Melted : Type := mkMelted {
  m_teo : option date;
  m_ticker : string;
  m_label : ExpiryLabel;
  m_value : float;
  m_type : ValueType
}.

(** [pivot.melt(id_vars=['teo', 'ticker'], value_vars=vol_cols + fwd_cols)]
    with its [value_type] column. *)
Definition melt
    (vt : ValueType) (col : SurfaceRecord -> float) (df : list Bucketed) : list Melted :=
  flat_map
    (fun label =>
       map (fun k => mkMelted (fst k) (snd k) label (cell col df k label) vt)
           (pivot_index df))
    (vol_cols ++ fwd_cols).

Definition melted_has_na (m : Melted) : bool :=
  match m_teo m with None => true | Some _ => false end || is_nan (m_value m).

(** [pd.concat([vol_melt, cen_melt]).dropna()]. *)
Definition melt_all (df : list Bucketed) : list Melted :=
  filter (fun m => negb (melted_has_na m))
         (melt VolType atmVol df ++ melt CenType atmCen df).

(** The pivot has a column only for a bucket that some row fell into;
    [pivot_vol[col]] on a missing one raises KeyError. *)
Definition all_columns_present (df : list Bucketed) : bool :=
  forallb (fun tgt => existsb (fun b => Z.eqb (target_days b) tgt) df) TARGET_DAYS.

(** *** Enrichment *)

(** The daily ticker store: its dates and tickers, and its (dense)
    industry-code and market-cap grids; a missing industry code is [None],
    a missing market cap is NaN. *)
Record DailyTicker : Type := mkDaily {
  dt_teo : list date;
  dt_ticker : list string;
  fs_industry_code : date -> string -> option Z;
  mktcap : date -> string -> float
}.

Definition classify_size (market_cap : float) : string :=
  if 10e9 <=? market_cap then "Large Cap"
  else if 2e9 <=? market_cap then "Mid Cap"
  else "Small Cap".

(** The sector name of an industry code: both [.map] steps; [None] when
    either leaves NaN. *)
Definition sector_of (code : Z) : option string :=
  match lookup fs_industry_to_gic_code code with
  | Some (Some gics_sector_code) => lookup gic_code_to_gic_name gics_sector_code
  | _ => None
  end.

(** One melted row through the joins: the selection on common dates and
    tickers, the industry code with its [dropna], the sector mapping with
    its [dropna], the left merge with market caps, [classify_size], and
    the left merge with [style_daily] (the style table after ranking and
    forward fill, [None] where it has no row or no style). *)
Definition enrich_row
    (daily : DailyTicker) (style_daily : date -> string -> option Style)
    (m : Melted) : option (Enriched float) :=
  match m_teo m with
  | None => None
  | Some d =>
      if existsb (Z.eqb d) (dt_teo daily)
         && existsb (String.eqb (m_ticker m)) (dt_ticker daily)
         && negb (is_nan (m_value m))
      then
        match fs_industry_code daily d (m_ticker m) with
        | None => None
        | Some code =>
            match sector_of code with
            | None => None
            | Some sector =>
                let cap := mktcap daily d (m_ticker m) in
                Some (mkEnriched d (m_ticker m) sector (classify_size cap)
                        (option_map style_name (style_daily d (m_ticker m)))
                        (m_label m) (m_type m) (m_value m) cap)
            end
        end
      else None
  end.

Definition enrich
    (daily : DailyTicker) (style_daily : date -> string -> option Style)
    (df_melt : list Melted) : list (Enriched float) :=
  flat_map (fun m => match enrich_row daily style_daily m with
                     | Some e => [e]
                     | None => []
                     end) df_melt.

(** *** The cube builder *)

Section Cube.
Context {N : Type} {arith : Arith N}.

(** [ddf['weighted_value_num'] = ddf['value'] * ddf['market_cap']]. *)
Definition weighted_value_num (r : Enriched N) : N :=
  nmul (value r) (market_cap r).

(** [.sum()] of one column over the rows of a group: pandas skips NaN,
    and a group with nothing left sums to 0.  The terms are added here
    one by one in frame order.  pandas adds them with a compensated sum
    and dask adds one such sum per partition, so on floats the sum of
    more than one term can differ from this one in its last bit; which
    terms are added, and that a NaN is none of them, is as in the
    source. *)
Definition sum_skipna (l : list N) : N :=
  fold_left (fun acc x => if nisnan x then acc else nadd acc x) l nzero.

(** The key of a group.  A dimension that is not among the [groupby]
    columns is [None]; it is the one set to 'Total' afterwards. *)
Record GroupKey : Type := mkKey {
  g_teo : date;
  g_sector : option string;
  g_size : option string;
  g_style : option string;
  g_label : ExpiryLabel;
  g_type : ValueType
}.

Definition same_group (a b : GroupKey) : bool :=
  Z.eqb (g_teo a) (g_teo b)
  && same_option String.eqb (g_sector a) (g_sector b)
  && same_option String.eqb (g_size a) (g_size b)
  && same_option String.eqb (g_style a) (g_style b)
  && same_label (g_label a) (g_label b)
  && same_value_type (g_type a) (g_type b).

(** The group of a row when grouping by the dimensions flagged [true]
    (besides teo, expiry_label and value_type).  [groupby] drops a row
    whose key has a missing value; only [style] can be missing. *)
Definition group_key
    (by_sector by_size by_style : bool) (r : Enriched N) : option GroupKey :=
  let sector := if by_sector then Some (gics_sector r) else None in
  let size := if by_size then Some (size_category r) else None in
  if by_style then
    match style r with
    | Some s => Some (mkKey (e_teo r) sector size (Some s) (expiry_label r) (value_type r))
    | None => None
    end
  else Some (mkKey (e_teo r) sector size None (expiry_label r) (value_type r)).

Definition in_group
    (by_sector by_size by_style : bool) (k : GroupKey) (r : Enriched N) : bool :=
  match group_key by_sector by_size by_style r with
  | Some k' => same_group k' k
  | None => false
  end.

Definition group_keys
    (by_sector by_size by_style : bool) (df : list (Enriched N)) : list GroupKey :=
  drop_duplicates same_group
    (flat_map (fun r => match group_key by_sector by_size by_style r with
                        | Some k => [k]
                        | None => []
                        end) df).

(** A row of [groupby(...)[['weighted_value_num', 'market_cap']].sum()
    .reset_index()]. *)
Record Summed : Type := mkSummed {
  s_key : GroupKey;
  s_num : N;
  s_cap : N
}.

Definition grouped_sums
    (by_sector by_size by_style : bool) (df : list (Enriched N)) : list Summed :=
  map (fun k =>
         let g := filter (in_group by_sector by_size by_style k) df in
         mkSummed k (sum_skipna (map weighted_value_num g))
                    (sum_skipna (map (@market_cap N) g)))
      (group_keys by_sector by_size by_style df).

Definition or_total (o : option string) : string :=
  match o with Some s => s | None => "Total" end.

(** The rolled-up columns set to 'Total', [weighted_value] computed and
    the two sums dropped. *)
Definition weighted (s : Summed) : CubeRow N :=
  let k := s_key s in
  mkCube (g_teo k) (or_total (g_sector k)) (or_total (g_size k))
         (or_total (g_style k)) (g_label k) (g_type k)
         (ndiv (s_num s) (s_cap s)).

Definition rollup
    (by_sector by_size by_style : bool) (df : list (Enriched N)) : list (CubeRow N) :=
  map weighted (grouped_sums by_sector by_size by_style df).

Definition agg_main := rollup true true true.
Definition total_all := rollup false false false.
Definition total_sector := rollup false true true.
Definition total_size := rollup true false true.
Definition total_style := rollup true true false.
Definition total_sector_size := rollup false false true.
Definition total_sector_style := rollup false true false.
Definition total_size_style := rollup true false false.

(** [dd.concat([agg_main] + agg_totals)]. *)
Definition agg_all (df : list (Enriched N)) : list (CubeRow N) :=
  agg_main df ++ total_all df ++ total_sector df ++ total_size df
  ++ total_style df ++ total_sector_size df ++ total_sector_style df
  ++ total_size_style df.

(** *** The output store *)

(** The zarr stores on disk, by path; [None] where nothing exists. *)
Definition Files : Type := string -> option (list (CubeRow N)).

(** [ds.to_zarr(path, mode='w')] that runs to its end. *)
Definition to_zarr (path : string) (ds : list (CubeRow N)) (fs : Files) : Files :=
  fun p => if String.eqb p path then Some ds else fs p.

Inductive Level : Type := INFO | WARNING | ERROR.

(** The messages of [append_to_existing_output] and of [main] from the
    load on, one constructor per [logger] call. *)
Inductive Message : Type :=
  | Filtering_for_incremental (start : date)
  | Filtering_from (start : date)
  | Processing_all_available_data
  | Loaded_records (n : nat)
  | No_data_after_filtering
  | Processing_records (n : nat)
  | Creating_new_output_at (path : string)
  | Created_new_flat_output
  | Appending_records_at (n : nat) (path : string)
  | Production_completed
  | Appending_to_existing_flat_output
  | Combining_datasets
  | Successfully_appended
  | Error_appending
  | Falling_back_to_new_data_only
  | Created_temporary_manual_intervention (temp_output_path : string)
  | Original_preserved
  | Creating_new_flat_output
  | Successfully_created.

Definition Log : Type := list (Level * Message).

(** Where the [try] block of [append_to_existing_output] raises, if it
    does: while the existing store is read ([OnRead]); after 'Combining
    datasets...' is logged and before the store is opened for writing
    ([OnCombine]); or inside [ds_combined.to_zarr(output_path, mode='w')]
    once it has opened the store ([OnWrite]). *)
Inductive Fault : Type := OnRead | OnCombine | OnWrite.

(** What is on disk when the exception reaches the handler.  Opening a
    store with [mode='w'] deletes what it holds, so a write that raises
    after that leaves the path with a store that has lost its rows. *)
Definition at_handler (f : Fault) (output_path : string) (fs : Files) : Files :=
  match f with
  | OnRead | OnCombine => fs
  | OnWrite => to_zarr output_path [] fs
  end.

Definition append_to_existing_output
    (fault : option Fault) (new_data : list (CubeRow N)) (output_path : string)
    (fs : Files) : Files * Log :=
  match fs output_path with
  | Some df_existing =>
      let started := [(INFO, Appending_to_existing_flat_output)] in
      match fault with
      | None =>
          let df_combined := drop_duplicates same_key (df_existing ++ new_data) in
          (to_zarr output_path df_combined fs,
           started ++ [(INFO, Combining_datasets); (INFO, Successfully_appended)])
      | Some f =>
          let before :=
            match f with
            | OnRead => started
            | OnCombine | OnWrite => started ++ [(INFO, Combining_datasets)]
            end in
          let temp_output_path := (output_path ++ ".temp")%string in
          (to_zarr temp_output_path new_data (at_handler f output_path fs),
           before ++ [(ERROR, Error_appending);
                      (INFO, Falling_back_to_new_data_only);
                      (WARNING, Created_temporary_manual_intervention temp_output_path);
                      (WARNING, Original_preserved)])
      end
  | None =>
      (to_zarr output_path new_data fs,
       [(INFO, Creating_new_flat_output); (INFO, Successfully_created)])
  end.

(** The end of [main] (Save to output): create the store, or append. *)
Definition save_output
    (fault : option Fault) (agg : list (CubeRow N)) (output_path : string)
    (fs : Files) : Files * Log :=
  match fs output_path with
  | None =>
      (to_zarr output_path agg fs,
       [(INFO, Creating_new_output_at output_path); (INFO, Created_new_flat_output)])
  | Some _ =>
      let '(fs', log) := append_to_existing_output fault agg output_path fs in
      (fs', (INFO, Appending_records_at (List.length agg) output_path) :: log)
  end.

End Cube.

(** *** [main], from the load on *)

(** What one run reads: the surface store, the start date that the
    incremental check chose ([None]: all data), the daily ticker store and
    the daily style table. *)
Record Inputs : Type := mkInputs {
  surface_store : list StoreRow;
  start_date : option date;
  daily : DailyTicker;
  style_daily : date -> string -> option Style
}.

Definition output_path : string := "output/aggregated_iv_cross_with_totals_flat.zarr".

(** The candidate batch of cube rows of a run; [None] when a pivot column
    is missing (KeyError). *)
Definition candidate_batch
    (inp : Inputs) (df_all : list SurfaceRecord) : option (list (CubeRow float)) :=
  let df_all := closest_per_bucket df_all in
  if all_columns_present df_all then
    Some (agg_all (enrich (daily inp) (style_daily inp) (melt_all df_all)))
  else None.

Inductive Outcome : Type :=
  | Returned (code : Z) (fs : @Files float) (log : @Log)
  | Raised_KeyError (fs : @Files float) (log : @Log).

Definition files_after (o : Outcome) : @Files float :=
  match o with Returned _ fs _ | Raised_KeyError fs _ => fs end.


Definition main (inp : Inputs) (fault : option Fault) (fs : @Files float) : Outcome :=
  let announced :=
    match start_date inp with
    | Some s => [(INFO, Filtering_for_incremental s); (INFO, Filtering_from s)]
    | None => [(INFO, Processing_all_available_data)]
    end in
  let df_all := load_and_filter_data (surface_store inp) (start_date inp) in
  let loaded := announced ++ [(INFO, Loaded_records (List.length df_all))] in
  match df_all with
  | [] => Returned 0 fs (loaded ++ [(INFO, No_data_after_filtering)])
  | _ =>
      let log := loaded ++ [(INFO, Processing_records (List.length df_all))] in
      match candidate_batch inp df_all with
      | None => Raised_KeyError fs log
      | Some agg =>
          let '(fs', saved) := save_output fault agg output_path fs in
          Returned 0 fs' (log ++ saved ++ [(INFO, Production_completed)])
      end
  end.

(** A sequence of runs, each with its inputs and its fault, if any. *)
Fixpoint run_all (runs : list (Inputs * option Fault)) (fs : @Files float) : @Files float :=
  match runs with
  | [] => fs
  | (inp, fault) :: rest => run_all rest (files_after (main inp fault fs))
  end.

End ProduceIV.

(** * The vocabulary of the statements *)

(** ** Numbers *)

Definition not_nan (s : spec_float) : Prop := s <> S754_nan.

Definition finite (x : float) : Prop :=
  exists s m e, Prim2SF x = S754_finite s m e.

(** [l] splits at its first minimum [m]: strictly larger values before,
    values at least as large after. *)
Definition first_minimum (l before : list float) (m : float) (after : list float) : Prop :=
  l = before ++ m :: after
  /\ Forall (fun y => (m <? y) = true) before
  /\ Forall (fun y => (m <=? y) = true) after.

(** ** Records, columns and keys *)

(** The records the claim is about: [years > 2], or [cCnt + pCnt < 20]. *)
Definition too_long_or_illiquid (r : SurfaceRecord) : bool :=
  (2 <? years r) || (cCnt r + pCnt r <? 20).

Definition without_too_long_or_illiquid (store : list StoreRow) : list StoreRow :=
  filter (fun row => negb (too_long_or_illiquid (data row))) store.

(** The formula in the specification's words:
    sqrt((T2/365 * v(T2)^2 - T1/365 * v(T1)^2) / (T2/365 - T1/365)). *)
Definition spec_forward_formula (T1 T2 : Z) (v1 v2 : float) : float :=
  sqrt ((float_of_int T2 / 365.0 * (v2 * v2) - float_of_int T1 / 365.0 * (v1 * v1))
        / (float_of_int T2 / 365.0 - float_of_int T1 / 365.0)).

(** The column that is pivoted for a value type. *)
Definition column_of (vt : ValueType) : SurfaceRecord -> float :=
  match vt with VolType => atmVol | CenType => atmCen end.




(** The natural key of a cube row. *)
Definition natural_key {N : Type} (c : CubeRow N)
  : date * string * string * string * ExpiryLabel * ValueType :=
  (c_teo c, c_sector c, c_size c, c_style c, c_label c, c_type c).

(** A frame holds at most one row per natural key. *)
Definition unique_keys {N : Type} (rows : list (CubeRow N)) : Prop :=
  NoDup (map natural_key rows).

(** No category of a row is literally 'Total'. *)
Definition no_total {N : Type} (df : list (Enriched N)) : Prop :=
  forall r, In r df ->
            gics_sector r <> "Total" /\ size_category r <> "Total"
            /\ style r <> Some "Total".

(** Which of the three dimensions of a key hold 'Total'. *)
Definition totals_of (k : date * string * string * string * ExpiryLabel * ValueType)
  : bool * bool * bool :=
  let '(_, sector, size, style, _, _) := k in
  (String.eqb sector "Total", String.eqb size "Total", String.eqb style "Total").

(** The store at the output path holds at most one row per natural key. *)
Definition store_unique (fs : @ProduceIV.Files float) : Prop :=
  match fs ProduceIV.output_path with
  | None => True
  | Some rows => unique_keys rows
  end.

Section CubeVocabulary.
Context {N : Type} {arith : Arith N}.

(** The row of the cube for a group of a grouping. *)
Definition cube_row (bs bz by_style : bool) (df : list (Enriched N)) (k : ProduceIV.GroupKey)
  : CubeRow N :=
  let g := filter (ProduceIV.in_group bs bz by_style k) df in
  ProduceIV.weighted
    (ProduceIV.mkSummed k (ProduceIV.sum_skipna (map ProduceIV.weighted_value_num g))
                          (ProduceIV.sum_skipna (map (@market_cap N) g))).

(** The key of the cube row of a group. *)
Definition cube_key (k : ProduceIV.GroupKey)
  : date * string * string * string * ExpiryLabel * ValueType :=
  (ProduceIV.g_teo k, ProduceIV.or_total (ProduceIV.g_sector k),
   ProduceIV.or_total (ProduceIV.g_size k), ProduceIV.or_total (ProduceIV.g_style k),
   ProduceIV.g_label k, ProduceIV.g_type k).

End CubeVocabulary.

Unset Implicit Arguments.

(** ** Snapshot batches *)

Definition has_date (z : ZipsToZarr.ZipFile) : bool :=
  match ZipsToZarr.file_date z with Some _ => true | None => false end.

(** The rows a batch brings when all its dated snapshots are accepted. *)
Definition batch_rows (b : list ZipsToZarr.ZipFile) : list StoreRow :=
  ZipsToZarr.new_rows (ZipsToZarr.parsed (filter has_date b)).

(** The records of a store; none while it does not exist. *)
Definition records_of (store : ZipsToZarr.Store) : list SurfaceRecord :=
  match store with
  | Some rows => map data rows
  | None => []
  end.

(** Whether a frame holds a record, rows being compared as
    [drop_duplicates] compares them. *)
Definition holds (df : list SurfaceRecord) (r : SurfaceRecord) : bool :=
  existsb (same_record r) df.

(** The records that a run over a batch of snapshots takes in: those of
    its archives that carry a date in their name and can be parsed, and
    none at all when one of the names raises. *)
Definition batch_records (b : list ZipsToZarr.ZipFile) : list SurfaceRecord :=
  if existsb ZipsToZarr.name_raises b then []
  else List.concat (ZipsToZarr.parsed (filter has_date b)).

(** Whether the rows of a store include a row, the [index] column
    compared too. *)
Definition holds_row (store : ZipsToZarr.Store) (row : StoreRow) : bool :=
  match store with
  | Some rows => existsb (same_row row) rows
  | None => false
  end.

Set Implicit Arguments.

(** * A small market, for concrete runs

    Three tickers on day 1, each with one expiry per target bucket:
    AAA (a bank with a market cap of 5e9, style Value), BBB (a semiconductor
    maker whose market cap is missing, style Growth) and CCC (a sovereign
    issuer, whose industry has no sector). *)
Module Scenario.
Import ProduceIV.

Definition quote (tk : string) (d : date) (vol cen : float) (days : Z) : StoreRow :=
  mkStoreRow (Some 0%Z)
    (mkSurface tk (Some d) 0.05 (float_of_int days / 365.0) vol cen 1 0.1 15 10 0.1).

(** 20% at 30 days, 25% beyond. *)
Definition curve (tk : string) (d : date) : list StoreRow :=
  quote tk d 0.20 0.21 30 :: map (quote tk d 0.25 0.26) (tl TARGET_DAYS).

Definition store : list StoreRow := curve "AAA" 1%Z ++ curve "BBB" 1%Z ++ curve "CCC" 1%Z.

Definition daily : DailyTicker :=
  mkDaily [1%Z] ["AAA"; "BBB"; "CCC"]
    (fun _ tk => if String.eqb tk "AAA" then Some 4805%Z
                 else if String.eqb tk "BBB" then Some 1305%Z
                 else Some 7005%Z)
    (fun _ tk => if String.eqb tk "AAA" then 5e9 else nan).

Definition style_daily (d : date) (tk : string) : option Style :=
  if String.eqb tk "AAA" then Some Value
  else if String.eqb tk "BBB" then Some Growth
  else None.

Definition inputs : Inputs := mkInputs store None daily style_daily.

Definition no_files : @Files float := fun _ => None.

Definition frame : list SurfaceRecord := load_and_filter_data store None.

Definition enriched : list (Enriched float) :=
  enrich daily style_daily (melt_all (closest_per_bucket frame)).

End Scenario.

Definition bbb_30 : Enriched float :=
  mkEnriched 1%Z "BBB" "Information_Technology" "Small Cap" (Some "Growth")
    (Direct 30) VolType 0.20 nan.

Definition bbb_group : ProduceIV.GroupKey :=
  ProduceIV.mkKey 1%Z (Some "Information_Technology") (Some "Small Cap") (Some "Growth")
    (Direct 30) VolType.

(** The cube row of BBB's group: no market cap, so no weighted value. *)
Definition bbb_cube_30 : CubeRow float :=
  mkCube 1%Z "Information_Technology" "Small Cap" "Growth" (Direct 30) VolType nan.



Definition aaa_30 : ProduceIV.Bucketed :=
  ProduceIV.mkBucketed
    (mkSurface "AAA" (Some 1%Z) 0.05 (float_of_int 30 / 365.0) 0.20 0.21 1 0.1 15 10 0.1)
    30 0.

Definition aaa_60 : ProduceIV.Bucketed :=
  ProduceIV.mkBucketed
    (mkSurface "AAA" (Some 1%Z) 0.05 (float_of_int 60 / 365.0) 0.25 0.26 1 0.1 15 10 0.1)
    60 0.

Definition aaa_cube_30 : CubeRow float :=
  mkCube 2%Z "Financials" "Mid Cap" "Value" (Direct 30) VolType 0.20.

Definition one_store : @ProduceIV.Files float :=
  ProduceIV.to_zarr ProduceIV.output_path [bbb_cube_30] Scenario.no_files.

(** The small market with a 2.5-year expiry and a 19-contract quote added:
    the run is the run without them. *)
Definition with_bad_quotes : ProduceIV.Inputs :=
  ProduceIV.mkInputs
    (mkStoreRow None (mkSurface "AAA" (Some 1%Z) 0.05 2.5 0.2 0.2 1 0.1 15 10 0.1)
     :: mkStoreRow None (mkSurface "AAA" (Some 1%Z) 0.05 0.5 0.2 0.2 1 0.1 10 9 0.1)
     :: Scenario.store)
    None Scenario.daily Scenario.style_daily.

Definition snapshot (d : date) (tk : string) : ZipsToZarr.ZipFile :=
  ZipsToZarr.mkZip (ZipsToZarr.Date_in_name d)
    (Some [mkSurface tk (Some d) 0.05 0.5 0.2 0.2 1 0.1 15 10 0.1;
           mkSurface tk (Some d) 0.05 0.5 0.2 0.2 1 0.1 15 10 0.1]).

Definition day_1_store : list StoreRow :=
  [mkStoreRow (Some 0%Z) (mkSurface "AAA" (Some 1%Z) 0.05 0.5 0.2 0.2 1 0.1 15 10 0.1)].

(** * The rest of the pipeline *)

Unset Implicit Arguments.

Definition by_days_diff (a b : ProduceIV.Bucketed) : Prop :=
  (ProduceIV.days_diff a <=? ProduceIV.days_diff b) = true.

(** Two expiries of one ticker that fall into the 30-day bucket: 26 days
    at 30%, 31 days at 20%. *)
Definition two_expiries : list StoreRow :=
  [Scenario.quote "AAA" 1%Z 0.30 0.31 26; Scenario.quote "AAA" 1%Z 0.20 0.21 31].

(** A surface store with a single expiry: eight of the nine buckets stay
    empty. *)
Definition one_expiry : ProduceIV.Inputs :=
  ProduceIV.mkInputs [Scenario.quote "AAA" 1%Z 0.20 0.21 30] None
    Scenario.daily Scenario.style_daily.

Definition bbb_cube_30_revised : CubeRow float :=
  mkCube 1%Z "Information_Technology" "Small Cap" "Growth" (Direct 30) VolType 0.5.

(** A store that already holds a value under the key of BBB's group. *)
Definition store_with_bbb_value : @ProduceIV.Files float :=
  ProduceIV.to_zarr ProduceIV.output_path [bbb_cube_30_revised] Scenario.no_files.

Definition has_style {N : Type} (r : Enriched N) : bool :=
  match style r with Some _ => true | None => false end.

(** [fs_industry_to_gic_name]: the dict comprehension over
    [fs_industry_to_gic_code.items()] that keeps an industry when
    [gic_code_to_gic_name.get(gic_code)] is not None. *)
Definition fs_industry_to_gic_name : list (Z * string) :=
  flat_map
    (fun item : Z * option Z =>
       let '(fs_code, gic_code) := item in
       match gic_code with
       | Some c => match lookup gic_code_to_gic_name c with
                   | Some name => [(fs_code, name)]
                   | None => []
                   end
       | None => []
       end)
    fs_industry_to_gic_code.

(** ** [3_produce_iv_dataset_full.py]: the incremental check and the
    start of [main] *)
Module Incremental.
Import ProduceIV.

(** A [pd.Timestamp], or [NaT]. *)
Inductive Timestamp : Type := NaT | At (d : date).

(** [time_data.max()] on a datetime array, where a missing value (NaT)
    makes the maximum NaT. *)
Definition later (latest : Timestamp) (x : option date) : Timestamp :=
  match latest, x with
  | At d, Some e => At (Z.max d e)
  | _, _ => NaT
  end.

Definition max_time (x : option date) (rest : list (option date)) : Timestamp :=
  fold_left later rest (match x with Some d => At d | None => NaT end).

Inductive Notice : Type :=
  | Starting
  | Could_not_read_latest_date (zarr_path : string)
  | Output_does_not_exist
  | Input_latest_date (t : option Timestamp)
  | Output_latest_date (t : option Timestamp)
  | Could_not_determine_input
  | Could_not_determine_output
  | New_data_available (input_latest output_latest : date)
  | Will_process_from_to (start input_latest : date)
  | Up_to_date
  | No_new_data_exiting
  | Incremental_mode
  | Force_mode
  | Force_will_not_overwrite.

(** [get_latest_date_in_zarr] on a flat store (dimension [index], [teo]
    a data variable), given as the values of [teo]; [None] stands for a
    path that cannot be opened or read, which the [except] branch logs
    and turns into None.  An empty [teo] falls through to
    [return None]. *)
Definition get_latest_date_in_zarr (zarr_path : string) (store : option (list (option date)))
  : option Timestamp * list (Level * Notice) :=
  match store with
  | None => (None, [(WARNING, Could_not_read_latest_date zarr_path)])
  | Some [] => (None, [])
  | Some (x :: rest) => (Some (max_time x rest), [])
  end.

(** What the check and the start of [main] read, besides the output
    store: the surface store at the path of the check ([None] when it
    cannot be opened), whether the output store can be read when it
    exists, the surface store at [zarr_path], and the two stores of the
    enrichment. *)
Record Disk : Type := mkDisk {
  input_zarr : option (list StoreRow);
  output_readable : bool;
  surface_store : list StoreRow;
  daily : DailyTicker;
  style_daily : date -> string -> option Style
}.

Definition teo_of_surface (rows : list StoreRow) : list (option date) :=
  map (fun r => teo (data r)) rows.

Definition teo_of_cube (rows : list (CubeRow float)) : list (option date) :=
  map (fun c => Some (c_teo c)) rows.

Definition input_zarr_path : string :=
  "surfacecurvehist/surface_curve_history_combined_data_vars.zarr".

(** The result is (needs_processing, output_latest, input_latest); the
    two dates are returned only where [input_latest > output_latest]
    holds, which is False when either is NaT. *)
Definition check_incremental_processing_needed (disk : Disk) (fs : @Files float)
  : (bool * option date * option date) * list (Level * Notice) :=
  match fs output_path with
  | None => ((true, None, None), [(INFO, Output_does_not_exist)])
  | Some rows =>
      let '(input_latest, read_input) :=
        get_latest_date_in_zarr input_zarr_path
          (option_map teo_of_surface (input_zarr disk)) in
      let '(output_latest, read_output) :=
        get_latest_date_in_zarr output_path
          (if output_readable disk then Some (teo_of_cube rows) else None) in
      let log := read_input ++ read_output
                 ++ [(INFO, Input_latest_date input_latest);
                     (INFO, Output_latest_date output_latest)] in
      match input_latest, output_latest with
      | None, _ => ((true, None, None), log ++ [(WARNING, Could_not_determine_input)])
      | Some _, None => ((true, None, None), log ++ [(WARNING, Could_not_determine_output)])
      | Some (At i), Some (At o) =>
          if (o <? i)%Z then
            ((true, Some o, Some i),
             log ++ [(INFO, New_data_available i o);
                     (INFO, Will_process_from_to (o + 1)%Z i)])
          else ((false, None, None), log ++ [(INFO, Up_to_date)])
      | Some _, Some _ => ((false, None, None), log ++ [(INFO, Up_to_date)])
      end
  end.

Record Args : Type := mkArgs {
  force : bool;
  verbose : bool
}.

(** [main]: the lines before the load choose the start date, and the
    rest is [ProduceIV.main]. *)
Definition main (args : Args) (disk : Disk) (fault : option Fault) (fs : @Files float)
  : list (Level * Notice) * Outcome :=
  let started := [(INFO, Starting)] in
  let run output_latest :=
    let start_date := option_map (fun d => (d + 1)%Z) output_latest in
    ProduceIV.main
      (mkInputs (surface_store disk) start_date (daily disk) (style_daily disk))
      fault fs in
  if force args then
    (started ++ [(INFO, Force_mode); (INFO, Force_will_not_overwrite)], run None)
  else
    let '((needs_processing, output_latest, _), checked) :=
      check_incremental_processing_needed disk fs in
    if needs_processing then
      (started ++ checked ++ [(INFO, Incremental_mode)], run output_latest)
    else
      (started ++ checked ++ [(INFO, No_new_data_exiting)], Returned 0 fs []).

End Incremental.

Definition needs_processing {L : Type} (c : (bool * option date * option date) * L) : bool :=
  fst (fst (fst c)).

Definition output_latest {L : Type} (c : (bool * option date * option date) * L)
  : option date :=
  snd (fst (fst c)).

(** Every row of the surface store has a date. *)
Definition all_dated (rows : list StoreRow) : Prop :=
  Forall (fun r => teo (data r) <> None) rows.

(** [d] is the latest date of the cube rows. *)
Definition latest_date (rows : list (CubeRow float)) (d : date) : Prop :=
  In d (map (@c_teo float) rows) /\ forall c, In c rows -> (c_teo c <= d)%Z.

(** Without [--force], on readable stores with dated rows. *)
Definition incremental_setting (args : Incremental.Args) (disk : Incremental.Disk)
    (fs : @ProduceIV.Files float) (out_rows : list (CubeRow float))
    (in_rows : list StoreRow) : Prop :=
  Incremental.force args = false
  /\ fs ProduceIV.output_path = Some out_rows /\ out_rows <> []
  /\ Incremental.output_readable disk = true
  /\ Incremental.input_zarr disk = Some in_rows /\ in_rows <> []
  /\ all_dated in_rows.

Definition aaa_forward_30_60 : ProduceIV.Melted :=
  ProduceIV.mkMelted (Some 1%Z) "AAA" (Forward 30 60)
    (ProduceIV.forward_vol 30 60 0.20 0.25) VolType.

(** The cube of a first run on day 1 of the small market, the output
    store that holds it, and the surface store one day later. *)
Definition day_1_cube : list (CubeRow float) :=
  Eval vm_compute in
    match ProduceIV.files_after (ProduceIV.main Scenario.inputs None Scenario.no_files)
            ProduceIV.output_path with
    | Some rows => rows
    | None => []
    end.

Definition day_1_output : @ProduceIV.Files float :=
  ProduceIV.to_zarr ProduceIV.output_path day_1_cube Scenario.no_files.

Definition day_2_surface : list StoreRow :=
  Scenario.store ++ Scenario.curve "AAA" 2%Z.

Definition day_2_daily : ProduceIV.DailyTicker :=
  ProduceIV.mkDaily [1%Z; 2%Z] ["AAA"; "BBB"; "CCC"]
    (ProduceIV.fs_industry_code Scenario.daily) (ProduceIV.mktcap Scenario.daily).

Definition day_1_disk : Incremental.Disk :=
  Incremental.mkDisk (Some Scenario.store) true Scenario.store
    Scenario.daily Scenario.style_daily.

Definition day_2_disk : Incremental.Disk :=
  Incremental.mkDisk (Some day_2_surface) true day_2_surface
    day_2_daily Scenario.style_daily.

Definition no_force : Incremental.Args := Incremental.mkArgs false false.

Definition created_store : list StoreRow :=
  [ mkStoreRow (Some 0%Z) (mkSurface "AAA" (Some 2%Z) 0.05 0.5 0.2 0.2 1 0.1 15 10 0.1);
    mkStoreRow (Some 1%Z) (mkSurface "AAA" (Some 2%Z) 0.05 0.5 0.2 0.2 1 0.1 15 10 0.1) ].

Open Scope string_scope.

(** ** Text

    A Python [str] is taken as a [string] whose characters are the code
    points below U+0100. *)

(** [str.isspace] on one character: for code points below U+0100 these
    are U+0009 to U+000D, U+001C to U+0020, U+0085 and U+00A0. *)
Definition is_space (c : ascii) : bool :=
  let n := nat_of_ascii c in
  ((9 <=? n) && (n <=? 13) || (28 <=? n) && (n <=? 32) || (n =? 133) || (n =? 160))%nat.

(** [\d] in a [str] pattern: below U+0100 the decimal digits are 0-9. *)
Definition is_digit (c : ascii) : bool :=
  let n := nat_of_ascii c in
  ((48 <=? n) && (n <=? 57))%nat.

Fixpoint lstrip (s : string) : string :=
  match s with
  | EmptyString => EmptyString
  | String c t => if is_space c then lstrip t else s
  end.

Fixpoint rstrip (s : string) : string :=
  match s with
  | EmptyString => EmptyString
  | String c t =>
      match rstrip t with
      | EmptyString => if is_space c then EmptyString else String c EmptyString
      | t' => String c t'
      end
  end.

(** [s.strip()]. *)
Definition strip (s : string) : string := rstrip (lstrip s).

(** [s.split(sep)] for a separator of one character. *)
Fixpoint split (sep : ascii) (s : string) : list string :=
  match s with
  | EmptyString => [EmptyString]
  | String c t =>
      if Ascii.eqb c sep then EmptyString :: split sep t
      else match split sep t with
           | field :: fields => String c field :: fields
           | [] => [String c EmptyString]
           end
  end.

Definition TAB : ascii := ascii_of_nat 9.
Definition NEWLINE : ascii := ascii_of_nat 10.

Module ZipText.

(** [get_column_names] and [process_values] of
    [2_zips_to_zarrs_combined.py]. *)
Definition get_column_names (header_line : string) : list string :=
  split TAB (strip header_line).

Definition process_values (line : string) : list string :=
  split TAB (strip line).

(** Lines 117-132 of [process_zip_file], on the decoded lines of the
    first text file: the column names and the data rows, or [None]
    where the function returns None. *)
Definition read_rows (lines : list string) : option (list string * list (list string)) :=
  match lines with
  | [] | [_] => None
  | header_line :: data_lines =>
      let columns := get_column_names header_line in
      let data :=
        filter (fun values => (List.length values =? List.length columns)%nat)
               (map process_values data_lines) in
      match data with
      | [] => None
      | _ => Some (columns, data)
      end
  end.

End ZipText.

Fixpoint all_space (s : string) : bool :=
  match s with
  | EmptyString => true
  | String c t => is_space c && all_space t
  end.

(** The number of separators in a line. *)
Fixpoint count_char (sep : ascii) (s : string) : nat :=
  match s with
  | EmptyString => 0
  | String c t => (if Ascii.eqb c sep then 1 else 0) + count_char sep t
  end.

Open Scope list_scope.
Open Scope float_scope.

Open Scope string_scope.

(** ** Dates in file names *)

(** [\d{4}-\d{2}-\d{2}] at the start of [s]: the ten characters matched
    and what follows them. *)
Definition date_prefix (s : string) : option (string * string) :=
  match s with
  | String y1 (String y2 (String y3 (String y4 (String h1
      (String m1 (String m2 (String h2 (String d1 (String d2 rest))))))))) =>
      if is_digit y1 && is_digit y2 && is_digit y3 && is_digit y4
         && Ascii.eqb h1 "-" && is_digit m1 && is_digit m2
         && Ascii.eqb h2 "-" && is_digit d1 && is_digit d2
      then Some (String y1 (String y2 (String y3 (String y4 (String h1
                   (String m1 (String m2 (String h2 (String d1 (String d2 ""))))))))),
                 rest)
      else None
  | _ => None
  end.

(** [re.search(r'(\d{4}-\d{2}-\d{2})', s)]: group 1 of the leftmost
    match. *)
Fixpoint search_date (s : string) : option string :=
  match date_prefix s with
  | Some (m, _) => Some m
  | None =>
      match s with
      | EmptyString => None
      | String _ t => search_date t
      end
  end.

(** [$]: the end of the string, or just before a newline that ends it. *)
Definition at_end (rest : string) : bool :=
  match rest with
  | EmptyString => true
  | String c EmptyString => Ascii.eqb c NEWLINE
  | _ => false
  end.

(** [re.search(r'_(\d{4}-\d{2}-\d{2})$', s)]: group 1 of the leftmost
    match. *)
Fixpoint search_underscore_date_at_end (s : string) : option string :=
  match s with
  | EmptyString => None
  | String c t =>
      match (if Ascii.eqb c "_" then date_prefix t else None) with
      | Some (m, rest) =>
          if at_end rest then Some m else search_underscore_date_at_end t
      | None => search_underscore_date_at_end t
      end
  end.

(** A [datetime.date]. *)
Record CivilDate : Type := mkCivil {
  year : Z;
  month : Z;
  day : Z
}.

Definition is_leap (y : Z) : bool :=
  ((y mod 4 =? 0) && (negb (y mod 100 =? 0) || (y mod 400 =? 0)))%Z.

Definition days_in_month (y m : Z) : Z :=
  if (m =? 2)%Z then (if is_leap y then 29 else 28)%Z
  else if ((m =? 4) || (m =? 6) || (m =? 9) || (m =? 11))%Z then 30%Z
  else 31%Z.

Definition digit_value (c : ascii) : Z := (Z.of_nat (nat_of_ascii c) - 48)%Z.

(** [datetime.strptime(date_str, '%Y-%m-%d').date()] on a match of
    [\d{4}-\d{2}-\d{2}]; [None] where it raises ValueError: year 0000, a
    month outside 01-12, a day that the month does not have. *)
Definition strptime_date (date_str : string) : option CivilDate :=
  match date_str with
  | String y1 (String y2 (String y3 (String y4 (String _
      (String m1 (String m2 (String _ (String d1 (String d2 EmptyString))))))))) =>
      let y := (1000 * digit_value y1 + 100 * digit_value y2
                + 10 * digit_value y3 + digit_value y4)%Z in
      let m := (10 * digit_value m1 + digit_value m2)%Z in
      let d := (10 * digit_value d1 + digit_value d2)%Z in
      if ((1 <=? y) && (1 <=? m) && (m <=? 12) && (1 <=? d) && (d <=? days_in_month y m))%Z
      then Some (mkCivil y m d)
      else None
  | _ => None
  end.

(** [a <= b] on dates. *)
Definition date_leb (a b : CivilDate) : bool :=
  ((year a <? year b)
   || (year a =? year b)
      && ((month a <? month b) || (month a =? month b) && (day a <=? day b)))%Z.

Definition same_date (a b : CivilDate) : bool :=
  ((year a =? year b) && (month a =? month b) && (day a =? day b))%Z.

(** [max(dates) if dates else None]. *)
Definition max_date (dates : list CivilDate) : option CivilDate :=
  match dates with
  | [] => None
  | d :: rest => Some (fold_left (fun m x => if date_leb x m then m else x) rest d)
  end.

(** [PurePath.stem]: the name up to its last '.', when that dot is
    neither the first nor the last character. *)
Fixpoint before_last_dot (name : string) : option string :=
  match name with
  | EmptyString => None
  | String c t =>
      match before_last_dot t with
      | Some p => Some (String c p)
      | None => if Ascii.eqb c "." then Some EmptyString else None
      end
  end.

Definition stem (name : string) : string :=
  match before_last_dot name with
  | Some p =>
      if ((0 <? String.length p) && (String.length p <? String.length name - 1))%nat
      then p else name
  | None => name
  end.

(** ** [run_full_pipeline.py] *)
Module Pipeline.

(** [get_latest_zip_date]: [zip_dir] is the list of the names that
    [glob('*.zip')] finds, or [None] when the directory does not
    exist. *)
Definition zip_date (name : string) : list CivilDate :=
  match search_underscore_date_at_end (stem name) with
  | Some m => match strptime_date m with
              | Some d => [d]
              | None => []
              end
  | None => []
  end.

Definition get_latest_zip_date (zip_dir : option (list string)) : option CivilDate :=
  match zip_dir with
  | None => None
  | Some zip_files => max_date (flat_map zip_date zip_files)
  end.

(** What [check_pipeline_status] looks at: the ZIP directory, whether
    the Zarr store exists, and what [get_latest_zarr_date] returns for
    it. *)
Record Snapshot : Type := mkSnapshot {
  zip_dir : option (list string);
  zarr_exists : bool;
  zarr_date : option date
}.

Record Status : Type := mkStatus {
  needs_download : bool;
  needs_processing : bool;
  needs_iv_dataset : bool;
  needs_upload : bool;
  latest_zip_date : option CivilDate;
  latest_zarr_date : option date;
  zip_count : nat;
  status_zarr_exists : bool
}.

Definition check_pipeline_status (now : Snapshot) : Status :=
  let zip_files := match zip_dir now with Some names => names | None => [] end in
  let needs_processing :=
    if negb (zarr_exists now) then true
    else match zip_files with
         | [] => false
         | _ => true
         end in
  mkStatus true needs_processing (zarr_exists now)
           (needs_processing || zarr_exists now)
           (get_latest_zip_date (zip_dir now))
           (if zarr_exists now then zarr_date now else None)
           (List.length zip_files)
           (zarr_exists now).

Record Args : Type := mkArgs {
  dry_run : bool;
  force : bool;
  verbose : bool
}.

Inductive Script : Type :=
  | Download_zips | Zips_to_zarrs | Produce_iv_dataset | Upload_to_gc.

(** A process that the orchestrator starts, with its arguments. *)
Inductive Command : Type :=
  | Run_download (latest_date : option CivilDate)
  | Run_zips_to_zarrs
  | Gsutil_copy_daily_ticker
  | Run_produce_iv (force verbose : bool)
  | Run_upload.

(** What a run meets: whether [config.yaml] loads, the disk before and
    after the download step, which scripts are found next to the
    orchestrator, which processes end with return code 0, and whether
    the daily ticker dataset is less than a day old at step 3. *)
Record World : Type := mkWorld {
  config_loads : bool;
  at_start : Snapshot;
  after_download : Snapshot;
  script_found : Script -> bool;
  script_ok : Script -> bool;
  gsutil_ok : bool;
  ticker_recent : bool
}.

(** [run_script]: success, and the process started, if any. *)
Definition run_script (w : World) (dry : bool) (script : Script) (cmd : Command)
  : bool * list Command :=
  if negb (script_found w script) then (false, [])
  else if dry then (true, [])
  else (script_ok w script, [cmd]).

Definition run_gsutil_command (w : World) (dry : bool) : bool * list Command :=
  if dry then (true, []) else (gsutil_ok w, [Gsutil_copy_daily_ticker]).

Definition same_latest (a b : option CivilDate) : bool :=
  match a, b with
  | Some x, Some y => same_date x y
  | None, None => true
  | _, _ => false
  end.

(** [main]: the exit code and the processes started, in order (logging
    is left out). *)
Definition main (args : Args) (w : World) : Z * list Command :=
  if negb (config_loads w) then (1%Z, [])
  else
    let status := check_pipeline_status (at_start w) in
    let download := needs_download status || force args in
    let processing := needs_processing status || force args in
    let iv_dataset := needs_iv_dataset status || force args in
    let upload := needs_upload status || force args in
    (* Step 1 *)
    let '(ok1, ran1) :=
      if download
      then run_script w (dry_run args) Download_zips (Run_download (latest_zip_date status))
      else (true, []) in
    if negb ok1 then (1%Z, ran1)
    else
      let processing :=
        if negb (dry_run args) && download then
          let new_status := check_pipeline_status (after_download w) in
          if negb (same_latest (latest_zip_date new_status) (latest_zip_date status))
          then true
          else if negb (force args) then false else processing
        else processing in
      (* Step 2 *)
      let '(ok2, ran2) :=
        if processing
        then run_script w (dry_run args) Zips_to_zarrs Run_zips_to_zarrs
        else (true, []) in
      if negb ok2 then (1%Z, (ran1 ++ ran2)%list)
      else
        (* Step 3 *)
        let '(ok3, ran3) :=
          if iv_dataset && negb (ticker_recent w && negb (force args))
          then run_gsutil_command w (dry_run args)
          else (true, []) in
        (* Step 4 *)
        let '(ok4, ran4) :=
          if iv_dataset
          then run_script w (dry_run args) Produce_iv_dataset
                 (Run_produce_iv (force args) (verbose args))
          else (true, []) in
        (* Step 5 *)
        let '(ok5, ran5) :=
          if upload
          then run_script w (dry_run args) Upload_to_gc Run_upload
          else (true, []) in
        let overall_success := ok3 && ok4 && ok5 in
        ((if overall_success then 0 else 1)%Z,
         (ran1 ++ ran2 ++ ran3 ++ ran4 ++ ran5)%list).

End Pipeline.

Open Scope list_scope.
Open Scope float_scope.

(** Whether a process that the orchestrator started ended with return
    code 0. *)
Definition command_ok (w : Pipeline.World) (cmd : Pipeline.Command) : bool :=
  match cmd with
  | Pipeline.Run_download _ => Pipeline.script_ok w Pipeline.Download_zips
  | Pipeline.Run_zips_to_zarrs => Pipeline.script_ok w Pipeline.Zips_to_zarrs
  | Pipeline.Gsutil_copy_daily_ticker => Pipeline.gsutil_ok w
  | Pipeline.Run_produce_iv _ _ => Pipeline.script_ok w Pipeline.Produce_iv_dataset
  | Pipeline.Run_upload => Pipeline.script_ok w Pipeline.Upload_to_gc
  end.

(** [config.yaml] loads and the four scripts are next to the
    orchestrator. *)
Definition installed (w : Pipeline.World) : Prop :=
  Pipeline.config_loads w = true /\ forall s, Pipeline.script_found w s = true.

Definition is_produce_iv (cmd : Pipeline.Command) : bool :=
  match cmd with Pipeline.Run_produce_iv _ _ => true | _ => false end.

Open Scope string_scope.

(** [m] is a text of the form YYYY-MM-DD. *)
Definition date_text (m : string) : Prop := date_prefix m = Some (m, EmptyString).

Open Scope list_scope.
Open Scope float_scope.

Open Scope string_scope.

(** A data line "BBB<TAB>0.5", to which an empty third field is added. *)
Definition two_fields : string := "BBB" ++ String TAB "0.5".

(** A machine on which the Zarr store does not exist yet; the download
    brings the archive of 2 January. *)
Definition fresh_machine : Pipeline.World :=
  Pipeline.mkWorld true
    (Pipeline.mkSnapshot (Some ["surface_2024-01-01.zip"]) false None)
    (Pipeline.mkSnapshot (Some ["surface_2024-01-01.zip"; "surface_2024-01-02.zip"])
       false None)
    (fun _ => true) (fun _ => true) true false.

Definition plain_run : Pipeline.Args := Pipeline.mkArgs false false false.

Open Scope list_scope.
Open Scope float_scope.

(** ** [3_produce_iv_dataset_full.py]: the style table (lines 358-425) *)
Module StyleTable.

(** [first_valid_ticker]: a value of the row that is not a [str] is
    [None]. *)
Fixpoint first_valid_ticker (row : list (option string)) : option string :=
  match row with
  | [] => None
  | val :: rest =>
      match val with
      | Some s => if negb (String.eqb (strip s) "") then Some s
                  else first_valid_ticker rest
      | None => first_valid_ticker rest
      end
  end.

(** A row of [style_df]: the scores of a ticker on a date, NaN where it
    has none. *)
Record StyleRow : Type := mkStyleRow {
  sr_teo : date;
  sr_ticker : string;
  sr_score : Style -> float
}.

(** The [value_vars] of the melt, in their order. *)
Definition style_columns : list Style :=
  [Aggressive_Growth; Growth; Value; Deep_Value; GARP; Yield].

(** A row of [style_melted]. *)
Record Scored : Type := mkScored {
  s_teo : date;
  s_ticker : string;
  s_style : Style;
  style_score : float
}.

Definition style_melted (style_df : list StyleRow) : list Scored :=
  flat_map (fun s => map (fun r => mkScored (sr_teo r) (sr_ticker r) s (sr_score r s))
                         style_df)
           style_columns.

(** The order of [sort_values(['ticker', 'teo', 'style_score'],
    ascending=[True, True, False])]: whether [a] may come before
    [b]. *)
Definition ranked_before (a b : Scored) : bool :=
  match String.compare (s_ticker a) (s_ticker b) with
  | Lt => true
  | Gt => false
  | Eq =>
      if (s_teo a <? s_teo b)%Z then true
      else if (s_teo b <? s_teo a)%Z then false
      else style_score b <=? style_score a
  end.

(** The sort, which is stable on several columns: rows that compare
    equal keep the order of the frame. *)
Fixpoint insert_ranked (x : Scored) (l : list Scored) : list Scored :=
  match l with
  | [] => [x]
  | y :: t => if ranked_before x y then x :: y :: t else y :: insert_ranked x t
  end.

Definition sort_values (df : list Scored) : list Scored :=
  fold_right insert_ranked [] df.

(** The subset of [drop_duplicates(subset=['ticker', 'teo'])]. *)
Definition same_ticker_teo (a b : Scored) : bool :=
  String.eqb (s_ticker a) (s_ticker b) && Z.eqb (s_teo a) (s_teo b).

(** [style_ranked]: [dropna] on the score, the sort, and the first row
    of every (ticker, teo). *)
Definition style_ranked (style_df : list StyleRow) : list Scored :=
  drop_duplicates same_ticker_teo
    (sort_values
       (filter (fun r => negb (is_nan (style_score r))) (style_melted style_df))).

(** [style_ranked['ticker'].unique()]. *)
Definition tickers_of (ranked : list Scored) : list string :=
  drop_duplicates String.eqb (map s_ticker ranked).

(** [pd.date_range(min, max, freq='D')]. *)
Definition date_range (first last : date) : list date :=
  map (fun i => (first + Z.of_nat i)%Z) (seq 0 (Z.to_nat (last - first + 1))).

Definition min_teo (x : Scored) (rest : list Scored) : date :=
  fold_left (fun m r => Z.min m (s_teo r)) rest (s_teo x).

Definition max_teo (x : Scored) (rest : list Scored) : date :=
  fold_left (fun m r => Z.max m (s_teo r)) rest (s_teo x).

(** The cell of [.set_index(['ticker', 'teo']).reindex(full_index)]:
    the style of the ranked row of the (ticker, day), if there is
    one. *)
Definition reindexed (ranked : list Scored) (tk : string) (d : date) : option Style :=
  option_map s_style
    (find (fun r => String.eqb (s_ticker r) tk && Z.eqb (s_teo r) d) ranked).

(** [.ffill()] down the days of one ticker. *)
Fixpoint ffill (last : option Style) (cells : list (option Style)) : list (option Style) :=
  match cells with
  | [] => []
  | cell :: rest =>
      let filled := match cell with Some s => Some s | None => last end in
      filled :: ffill filled rest
  end.

(** The rows of [style_daily]: for every ticker, every day of the range
    with the filled style. *)
Definition style_daily_rows (ranked : list Scored) (all_days : list date)
  : list (string * date * option Style) :=
  flat_map
    (fun tk => combine (map (pair tk) all_days)
                       (ffill None (map (reindexed ranked tk) all_days)))
    (tickers_of ranked).

(** [style_daily] as the left merge reads it: the style of the row of
    the (ticker, date), [None] where there is no row or no style.  The
    table itself is [None] when no score is left after [dropna], in
    which case [min()] and [max()] are NaT and [pd.date_range]
    raises. *)
Definition style_daily (style_df : list StyleRow)
  : option (date -> string -> option Style) :=
  match style_ranked style_df with
  | [] => None
  | x :: rest =>
      let ranked := x :: rest in
      let all_days := date_range (min_teo x rest) (max_teo x rest) in
      let rows := style_daily_rows ranked all_days in
      Some (fun d tk =>
              match find (fun row => String.eqb (fst (fst row)) tk
                                     && Z.eqb (snd (fst row)) d) rows with
              | Some row => snd row
              | None => None
              end)
  end.

End StyleTable.

(** A row of the melted style frame that has a score. *)
Definition scored (r : StyleTable.Scored) : Prop :=
  is_nan (StyleTable.style_score r) = false.

(** The filled style of the day [d] in the block that [style_daily] has
    for one ticker, whose cells before the fill are [cell]. *)
Definition filled_on (cell : date -> option Style) (tk : string)
    (days : list date) (last : option Style) (d : date) : option Style :=
  match find (fun row : string * date * option Style =>
                String.eqb (fst (fst row)) tk && Z.eqb (snd (fst row)) d)
             (combine (map (pair tk) days) (StyleTable.ffill last (map cell days))) with
  | Some row => snd row
  | None => None
  end.

(** The test of [first_valid_ticker] on one value of the row. *)
Definition valid_ticker (val : option string) : bool :=
  match val with
  | Some s => negb (String.eqb (strip s) "")
  | None => false
  end.

(** The scores of a style row: those listed, NaN for the others. *)
Definition scores (listed : list (Style * float)) (s : Style) : float :=
  match find (fun p => String.eqb (style_name (fst p)) (style_name s)) listed with
  | Some p => snd p
  | None => nan
  end.

(** AAA is scored on days 1 and 3, BBB on day 2. *)
Definition small_style_df : list StyleTable.StyleRow :=
  [ StyleTable.mkStyleRow 1%Z "AAA" (scores [(Growth, 0.9); (Value, 0.5)]);
    StyleTable.mkStyleRow 2%Z "BBB" (scores [(Yield, 0.3)]);
    StyleTable.mkStyleRow 3%Z "AAA" (scores [(Growth, 0.8); (Value, 0.9)]);
    StyleTable.mkStyleRow 2%Z "AAA" (scores []) ].

Definition small_style_daily : date -> string -> option Style :=
  match StyleTable.style_daily small_style_df with
  | Some f => f
  | None => fun _ _ => None
  end.

Open Scope string_scope.

(** ** [1_download_zips.py]

    The script from [main] on: the module has loaded its configuration
    and found the two credentials in the environment (it raises before
    [main] otherwise).  The local directory can be created, and S3 fails
    only with ClientError while listing.  The argument [latest_date] and
    the field [download_mode] are read and not used. *)

(** [s.endswith(suffix)]. *)
Fixpoint endswith (s suffix : string) : bool :=
  String.eqb s suffix
  || match s with
     | EmptyString => false
     | String _ t => endswith t suffix
     end.

Module Download.

(** An entry of [page['Contents']]. *)
Record S3Object : Type := mkObject {
  Key : string;
  Size : Z
}.

(** What the paginator yields for a bucket and a prefix: the objects of
    the pages that were read, and whether it then raised ClientError. *)
Record Listing : Type := mkListing {
  contents : list S3Object;
  client_error : bool
}.

Record FileInfo : Type := mkFile {
  key : string;
  size : Z;
  date : CivilDate;
  filename : string
}.

(** [obj['Key'].split('/')[-1]]. *)
Definition key_filename (k : string) : string := last (split "/" k) EmptyString.

(** The loop of [list_available_files] over the objects read; [None]
    when [strptime] raises ValueError, which the function does not
    catch. *)
Fixpoint dated_zip_files (objects : list S3Object) : option (list FileInfo) :=
  match objects with
  | [] => Some []
  | obj :: rest =>
      if endswith (Key obj) ".zip" then
        match search_date (key_filename (Key obj)) with
        | Some date_match =>
            match strptime_date date_match with
            | Some file_date =>
                option_map (cons (mkFile (Key obj) (Size obj) file_date
                                    (key_filename (Key obj))))
                  (dated_zip_files rest)
            | None => None
            end
        | None => dated_zip_files rest
        end
      else dated_zip_files rest
  end.

Definition list_available_files (l : Listing) : option (list FileInfo) :=
  match dated_zip_files (contents l) with
  | Some files => Some (if client_error l then [] else files)
  | None => None
  end.

(** A bound of the date range in the configuration: missing or empty,
    a text that [strptime(..., '%Y-%m-%d')] reads as a date, or a value
    on which it raises. *)
Inductive Bound : Type :=
  | Unset
  | On (d : CivilDate)
  | Unusable.

(** An entry of [config['datasets']]. *)
Record DatasetInfo : Type := mkDataset {
  enabled : bool;
  name : string;
  bucket : string;
  path : string;
  download_mode : string;
  start_date : Bound;
  end_date : Bound
}.

Definition get_datasets_from_config (datasets : list (string * DatasetInfo))
  : list (string * DatasetInfo) :=
  filter (fun entry => negb (String.eqb (fst entry) "process_list") && enabled (snd entry))
    datasets.

(** The outside of a run: whether the credentials are accepted, what
    listing a bucket and a prefix gives, and whether the download of a
    key of a bucket succeeds. *)
Record World : Type := mkWorld {
  credentials_ok : bool;
  listing : string -> string -> Listing;
  fetch_ok : string -> string -> bool
}.

(** A call of [s3_client.download_file]: the bucket and the key. *)
Definition Fetch : Type := (string * string)%type.

(** [download_file], over the names of the files in the local
    directory: the result, the names afterwards and the call made.  A
    download that fails leaves no file. *)
Definition download_file (w : World) (local : list string) (b : string) (file_info : FileInfo)
  : bool * list string * list Fetch :=
  if existsb (String.eqb (filename file_info)) local then (true, local, [])
  else if fetch_ok w b (key file_info)
       then (true, (local ++ [filename file_info])%list, [(b, key file_info)])
       else (false, local, [(b, key file_info)]).

(** The loop [for file_info in files] of [process_dataset]. *)
Fixpoint download_files (w : World) (local : list string) (b : string) (files : list FileInfo)
  : nat * list string * list Fetch :=
  match files with
  | [] => (0%nat, local, [])
  | file_info :: rest =>
      let '(ok, local1, calls1) := download_file w local b file_info in
      let '(successful_downloads, local2, calls2) := download_files w local1 b rest in
      ((if ok then S successful_downloads else successful_downloads), local2,
       (calls1 ++ calls2)%list)
  end.

(** How [process_dataset] ends: it returns, with the local names, the
    calls made and the number of successes, or an exception leaves it. *)
Inductive Run : Type :=
  | Done (local : list string) (calls : list Fetch) (successful_downloads : nat)
  | Raised.

Definition process_dataset (w : World) (local : list string) (dataset_info : DatasetInfo)
  : Run :=
  match list_available_files (listing w (bucket dataset_info) (path dataset_info)) with
  | None => Raised
  | Some [] => Done local [] 0
  | Some files =>
      let filtered :=
        match start_date dataset_info, end_date dataset_info with
        | Unset, _ | _, Unset => Some files
        | On first, On final =>
            Some (filter (fun f => date_leb first (date f) && date_leb (date f) final) files)
        | _, _ => None
        end in
      match filtered with
      | None => Raised
      | Some files =>
          let '(successful_downloads, local', calls) :=
            download_files w local (bucket dataset_info) files in
          Done local' calls successful_downloads
      end
  end.

(** [main]: the names in the local directory afterwards and the
    downloads called, in order. *)
Definition main (w : World) (datasets : list (string * DatasetInfo)) (local : list string)
  : list string * list Fetch :=
  if negb (credentials_ok w) then (local, [])
  else
    fold_left
      (fun state entry =>
         match process_dataset w (fst state) (snd entry) with
         | Done local' calls _ => (local', (snd state ++ calls)%list)
         | Raised => state
         end)
      (get_datasets_from_config datasets) (local, []).

End Download.

Open Scope list_scope.
Open Scope float_scope.

Open Scope string_scope.

(** ** [4_upload_to_gc.py] *)
Module Upload.

Definition get_local_zarr_path : string :=
  "surfacecurvehist/surface_curve_history_combined.zarr".

Definition get_aggregated_iv_zarr_path : string :=
  "output/aggregated_iv_cross_with_totals.zarr".

(** [config['gcs']['output']]. *)
Record Config : Type := mkConfig {
  bucket_name : string;
  base_path : string
}.

(** What [gcs.ls(gcp_url)] does: it returns, it raises FileNotFoundError
    or KeyError (no store yet), or it raises something else. *)
Inductive Ls : Type := Ls_found | Ls_not_found | Ls_fails.

(** What an upload meets: the configuration ([None] when loading it or
    reading its keys raises), the paths that exist under the working
    directory, whether [GCSFileSystem()] can be built, the listing of a
    URL, and whether [gsutil rsync] of a path to a URL returns 0. *)
Record World : Type := mkWorld {
  config : option Config;
  path_exists : string -> bool;
  gcs_available : bool;
  gcs_ls : string -> Ls;
  rsync_ok : string -> string -> bool
}.

(** A [gsutil -m rsync -r local url] that was run. *)
Definition Rsync : Type := (string * string)%type.

(** The body shared by [upload_surface_curve_to_gcp] and
    [upload_aggregated_iv_to_gcp]: the result, and the rsync commands
    run.  Whether the check of the uploaded store succeeds changes only
    the log. *)
Definition upload_store (w : World) (local_zarr_path store_name : string)
  : bool * list Rsync :=
  match config w with
  | None => (false, [])
  | Some c =>
      let gcp_url := "gs://" ++ bucket_name c ++ "/" ++ base_path c ++ "/" ++ store_name in
      if negb (path_exists w local_zarr_path) then (false, [])
      else if negb (gcs_available w) then (false, [])
      else
        match gcs_ls w gcp_url with
        | Ls_fails => (false, [])
        | Ls_found | Ls_not_found =>
            (rsync_ok w local_zarr_path gcp_url, [(local_zarr_path, gcp_url)])
        end
  end.

Definition upload_surface_curve_to_gcp (w : World) : bool * list Rsync :=
  upload_store w get_local_zarr_path "surface_curve_history_combined.zarr".

Definition upload_aggregated_iv_to_gcp (w : World) : bool * list Rsync :=
  upload_store w get_aggregated_iv_zarr_path "aggregated_iv_cross_with_totals.zarr".

Definition upload_to_gcp (w : World) : bool * list Rsync :=
  let '(surface_success, ran1) := upload_surface_curve_to_gcp w in
  let '(aggregated_success, ran2) := upload_aggregated_iv_to_gcp w in
  (surface_success && aggregated_success, (ran1 ++ ran2)%list).

(** [main]: the exit code and the rsync commands run. *)
Definition main (w : World) : Z * list Rsync :=
  let '(ok, ran) := upload_to_gcp w in
  ((if ok then 0 else 1)%Z, ran).

End Upload.

(** The stores that the conversion and the production steps write, at
    the paths where the production step looks for them: the surface
    store that it reads, the cube, and the temporary store that it
    writes when it cannot append to the cube. *)
Definition pipeline_stores : list string :=
  [ Incremental.input_zarr_path; ProduceIV.output_path; ProduceIV.output_path ++ ".temp" ].

(** A path that exists because of those stores: a store, something
    inside it, or a directory above it. *)
Definition left_by_the_pipeline (p : string) : Prop :=
  exists store,
    In store pipeline_stores
    /\ (p = store
        \/ (exists rest, p = store ++ "/" ++ rest)
        \/ (exists rest, store = p ++ "/" ++ rest)).

(** [f"gs://{bucket_name}/{base_path}/{name}"], the URL that a store is
    copied to. *)
Definition destination (c : Upload.Config) (name : string) : string :=
  "gs://" ++ Upload.bucket_name c ++ "/" ++ Upload.base_path c ++ "/" ++ name.

Open Scope list_scope.
Open Scope float_scope.

Open Scope string_scope.

(** The date that [list_available_files] reads in the name of a key. *)
Definition key_date (k : string) : option CivilDate :=
  match search_date (Download.key_filename k) with
  | Some date_match => strptime_date date_match
  | None => None
  end.

(** [d] is inside the date range of the dataset, when both of its bounds
    are set. *)
Definition in_date_range (ds : Download.DatasetInfo) (d : CivilDate) : Prop :=
  forall first final,
    Download.start_date ds = Download.On first ->
    Download.end_date ds = Download.On final ->
    date_leb first d = true /\ date_leb d final = true.

(** The files that [process_dataset] goes through, [None] when it
    raises before. *)
Definition files_to_download (w : Download.World) (ds : Download.DatasetInfo)
  : option (list Download.FileInfo) :=
  match Download.list_available_files
          (Download.listing w (Download.bucket ds) (Download.path ds)) with
  | None => None
  | Some files =>
      match files with
      | [] => Some []
      | _ =>
          match Download.start_date ds, Download.end_date ds with
          | Download.Unset, _ | _, Download.Unset => Some files
          | Download.On first, Download.On final =>
              Some (filter (fun f => date_leb first (Download.date f)
                                     && date_leb (Download.date f) final) files)
          | _, _ => None
          end
      end
  end.

(** One dataset of the loop of [main]. *)
Definition main_step (w : Download.World) (state : list string * list Download.Fetch)
  (entry : string * Download.DatasetInfo) : list string * list Download.Fetch :=
  match Download.process_dataset w (fst state) (snd entry) with
  | Download.Done local' calls _ => (local', (snd state ++ calls)%list)
  | Download.Raised => state
  end.

(** What a fetched key is, relative to the names at the start. *)
Definition fetched_from (w : Download.World) (entries : list (string * Download.DatasetInfo))
  (local : list string) (c : Download.Fetch) : Prop :=
  exists entry d,
    In entry entries
    /\ fst c = Download.bucket (snd entry)
    /\ In (snd c)
         (map Download.Key
            (Download.contents
               (Download.listing w (Download.bucket (snd entry)) (Download.path (snd entry)))))
    /\ endswith (snd c) ".zip" = true
    /\ key_date (snd c) = Some d
    /\ in_date_range (snd entry) d
    /\ ~ In (Download.key_filename (snd c)) local.

Open Scope list_scope.
Open Scope float_scope.

Open Scope string_scope.

(** A working directory after the conversion and the production steps:
    the two stores with their group files, and the directories that
    hold them.  Everything outside answers. *)
Definition after_the_pipeline : Upload.World :=
  Upload.mkWorld (Some (Upload.mkConfig "bucket" "iv"))
    (fun p => existsb (String.eqb p)
                [ "surfacecurvehist"; Incremental.input_zarr_path;
                  Incremental.input_zarr_path ++ "/.zgroup";
                  "output"; ProduceIV.output_path; ProduceIV.output_path ++ "/.zgroup" ])
    true (fun _ => Upload.Ls_not_found) (fun _ _ => true).

(** A bucket with the archives of three days, a text file and an archive
    without a date; the dataset asks for 2 and 3 January. *)
Definition three_days : list Download.S3Object :=
  [ Download.mkObject "hist/surface_2024-01-01.zip" 10;
    Download.mkObject "hist/surface_2024-01-02.zip" 10;
    Download.mkObject "hist/notes_2024-01-02.txt" 1;
    Download.mkObject "hist/latest.zip" 10;
    Download.mkObject "hist/surface_2024-01-03.zip" 10 ].

Definition surface_dataset : Download.DatasetInfo :=
  Download.mkDataset true "surface" "bucket" "hist/" "most_recent"
    (Download.On (mkCivil 2024 1 2)) (Download.On (mkCivil 2024 1 3)).

Definition s3 (objects : list Download.S3Object) : Download.World :=
  Download.mkWorld true (fun _ _ => Download.mkListing objects false) (fun _ _ => true).

(** The same bucket with one more archive, named after 30 February. *)
Definition with_30_february : list Download.S3Object :=
  (three_days ++ [Download.mkObject "hist/surface_2024-02-30.zip" 10])%list.

Open Scope list_scope.
Open Scope float_scope.

Set Implicit Arguments.

(** * Facts about binary64 comparisons

    Derived from the specification of the primitive floats ([ltb_spec],
    [leb_spec], [eqb_spec], ...) over [spec_float]. *)

Lemma SFcompare_refl (s : spec_float) :
  not_nan s -> SFcompare s s = Some Eq.
Proof.
  destruct s as [b|b| |b m e]; intros H; simpl; try reflexivity.
  - destruct b; reflexivity.
  - now elim H.
  - rewrite Z.compare_refl, Pos.compare_cont_refl. destruct b; reflexivity.
Qed.

Lemma SFcompare_none (s t : spec_float) :
  SFcompare s t = None <-> s = S754_nan \/ t = S754_nan.
Proof.
  destruct s as [b|b| |b m e], t as [c|c| |c n f]; simpl; split; intros H;
    try discriminate; try (now left); try (now right); try reflexivity;
    destruct H; discriminate.
Qed.

Ltac compare_cases :=
  repeat match goal with
    | H : context [Pos.compare_cont Eq ?a ?b] |- _ =>
        change (Pos.compare_cont Eq a b) with (Pos.compare a b) in H
    | |- context [Pos.compare_cont Eq ?a ?b] =>
        change (Pos.compare_cont Eq a b) with (Pos.compare a b)
    end;
  repeat match goal with
    | H : context [Z.compare ?a ?b] |- _ => destruct (Z.compare_spec a b)
    | |- context [Z.compare ?a ?b] => destruct (Z.compare_spec a b)
    | H : context [Pos.compare ?a ?b] |- _ => destruct (Pos.compare_spec a b)
    | |- context [Pos.compare ?a ?b] => destruct (Pos.compare_spec a b)
    end;
  simpl in *; subst; try congruence; try lia.

Lemma SFcompare_antisym (s t : spec_float) :
  SFcompare t s = option_map CompOpp (SFcompare s t).
Proof.
  destruct s as [b|b| |b m e], t as [c|c| |c n f]; simpl; try reflexivity;
    try (destruct b; reflexivity); try (destruct c; reflexivity);
    destruct b, c; try reflexivity; f_equal; compare_cases.
Qed.

Lemma SFcompare_trans (s t u : spec_float) (c d : comparison) :
  SFcompare s t = Some c -> SFcompare t u = Some d ->
  c <> Gt -> d <> Gt ->
  SFcompare s u = Some (match c with Eq => d | _ => Lt end).
Proof.
  intros Hst Htu Hc Hd.
  destruct c; try congruence; destruct d; try congruence; clear Hc Hd;
    destruct s as [b|b| |b m e], t as [b'|b'| |b' m' e'], u as [b''|b''| |b'' m'' e''];
    simpl in *; try discriminate; try reflexivity;
    repeat match goal with x : bool |- _ => destruct x end;
    simpl in *; try discriminate; try reflexivity;
    injection Hst as Hst; injection Htu as Htu; f_equal; compare_cases.
Qed.

Lemma is_nan_spec (x : float) : is_nan x = true <-> Prim2SF x = S754_nan.
Proof.
  unfold is_nan. rewrite eqb_spec. unfold SFeqb. split.
  - intros H. destruct (Prim2SF x) as [b|b| |b m e] eqn:E; try reflexivity;
      rewrite SFcompare_refl in H by (unfold not_nan; congruence); discriminate.
  - intros ->. reflexivity.
Qed.

Lemma is_nan_false (x : float) : is_nan x = false <-> not_nan (Prim2SF x).
Proof.
  unfold not_nan. rewrite <- is_nan_spec. destruct (is_nan x); split; congruence.
Qed.

Lemma ltb_compare (x y : float) :
  (x <? y) = true <-> SFcompare (Prim2SF x) (Prim2SF y) = Some Lt.
Proof.
  rewrite ltb_spec. unfold SFltb.
  destruct (SFcompare (Prim2SF x) (Prim2SF y)) as [[ | | ]|]; split; congruence.
Qed.

Lemma leb_compare (x y : float) :
  (x <=? y) = true <->
  SFcompare (Prim2SF x) (Prim2SF y) = Some Lt \/ SFcompare (Prim2SF x) (Prim2SF y) = Some Eq.
Proof.
  rewrite leb_spec. unfold SFleb.
  destruct (SFcompare (Prim2SF x) (Prim2SF y)) as [[ | | ]|]; split;
    intros H; try discriminate; try tauto; destruct H; discriminate.
Qed.

Lemma compare_some_not_nan (s t : spec_float) (c : comparison) :
  SFcompare s t = Some c -> not_nan s /\ not_nan t.
Proof.
  intros H. unfold not_nan. split; intros ->; [|destruct s]; discriminate.
Qed.

Lemma ltb_not_nan (x y : float) :
  (x <? y) = true -> is_nan x = false /\ is_nan y = false.
Proof.
  rewrite ltb_compare, !is_nan_false. apply compare_some_not_nan.
Qed.

Lemma leb_not_nan (x y : float) :
  (x <=? y) = true -> is_nan x = false /\ is_nan y = false.
Proof.
  rewrite leb_compare, !is_nan_false. intros [H|H]; eapply compare_some_not_nan; eauto.
Qed.

Lemma ltb_leb_asym (x y : float) : (x <? y) = true -> (y <=? x) = false.
Proof.
  rewrite ltb_compare. intros H.
  destruct (y <=? x) eqn:E; [|reflexivity].
  apply leb_compare in E. rewrite SFcompare_antisym, H in E. simpl in E.
  destruct E; discriminate.
Qed.

Lemma ltb_asym (x y : float) : (x <? y) = true -> (y <? x) = false.
Proof.
  rewrite ltb_compare. intros H.
  destruct (y <? x) eqn:E; [|reflexivity].
  apply ltb_compare in E. rewrite SFcompare_antisym, H in E. discriminate.
Qed.

Lemma ltb_leb (x y : float) : (x <? y) = true -> (x <=? y) = true.
Proof. rewrite ltb_compare, leb_compare. now left. Qed.

Lemma leb_false_ltb (x y : float) :
  is_nan x = false -> is_nan y = false -> (x <=? y) = false -> (y <? x) = true.
Proof.
  rewrite !is_nan_false. intros Hx Hy H.
  apply ltb_compare. rewrite SFcompare_antisym.
  destruct (SFcompare (Prim2SF x) (Prim2SF y)) as [c|] eqn:E.
  - destruct c; try reflexivity;
      (assert (X : (x <=? y) = true) by (apply leb_compare; rewrite E; tauto));
      congruence.
  - apply SFcompare_none in E. destruct E; contradiction.
Qed.

Lemma leb_refl (x : float) : is_nan x = false -> (x <=? x) = true.
Proof.
  rewrite is_nan_false. intros H. apply leb_compare. right. now apply SFcompare_refl.
Qed.

Lemma leb_trans (x y z : float) :
  (x <=? y) = true -> (y <=? z) = true -> (x <=? z) = true.
Proof.
  rewrite !leb_compare. intros [H1|H1] [H2|H2];
    rewrite (SFcompare_trans _ _ _ H1 H2) by discriminate; tauto.
Qed.

Lemma ltb_leb_trans (x y z : float) :
  (x <? y) = true -> (y <=? z) = true -> (x <? z) = true.
Proof.
  rewrite !ltb_compare, leb_compare. intros H1 [H2|H2];
    rewrite (SFcompare_trans _ _ _ H1 H2) by discriminate; reflexivity.
Qed.

Lemma leb_ltb_trans (x y z : float) :
  (x <=? y) = true -> (y <? z) = true -> (x <? z) = true.
Proof.
  rewrite !ltb_compare, leb_compare. intros [H1|H1] H2;
    rewrite (SFcompare_trans _ _ _ H1 H2) by discriminate; reflexivity.
Qed.

Lemma mul_comm (x y : float) : x * y = y * x.
Proof.
  apply Prim2SF_inj. rewrite !mul_spec.
  destruct (Prim2SF x) as [sx|sx| |sx mx ex], (Prim2SF y) as [sy|sy| |sy my ey];
    simpl; rewrite ?(xorb_comm sx sy); try reflexivity.
  unfold SF64mul, SFmul.
  now rewrite (xorb_comm sy sx), (Pos.mul_comm my mx), (Z.add_comm ey ex).
Qed.

(** The square root of a negative number is NaN. *)
Lemma sqrt_negative_nan (x : float) : (x <? 0) = true -> is_nan (sqrt x) = true.
Proof.
  rewrite ltb_compare, is_nan_spec, sqrt_spec.
  change (Prim2SF 0) with (S754_zero false).
  destruct (Prim2SF x) as [b|b| |b m e]; simpl; try discriminate;
    destruct b; try discriminate; reflexivity.
Qed.

Lemma mul_nan_r (x : float) : is_nan (x * nan) = true.
Proof.
  apply is_nan_spec. rewrite mul_spec. change (Prim2SF nan) with S754_nan.
  destruct (Prim2SF x); reflexivity.
Qed.

(** ** Rounding never invents a NaN *)

Lemma iter_pos_invariant {A : Type} (P : A -> Prop) (f : A -> A) :
  (forall x, P x -> P (f x)) -> forall n x, P x -> P (iter_pos f n x).
Proof.
  intros Hf. induction n as [n IH|n IH|]; intros x Hx; simpl; auto.
Qed.

Lemma shr_1_nonneg (mrs : shr_record) :
  (0 <= shr_m mrs)%Z -> (0 <= shr_m (shr_1 mrs))%Z.
Proof.
  destruct mrs as [m r s]. destruct m as [|p|p]; simpl; intros H; try lia;
    destruct p; simpl; lia.
Qed.

Lemma shr_fexp_nonneg (prec emax m e : Z) (l : location) :
  (0 <= m)%Z -> (0 <= shr_m (fst (shr_fexp prec emax m e l)))%Z.
Proof.
  intros H. unfold shr_fexp, shr.
  assert (H0 : (0 <= shr_m (shr_record_of_loc m l))%Z)
    by (destruct l as [|[ | | ]]; exact H).
  destruct (fexp prec emax (Zdigits2 m + e) - e)%Z; simpl; try exact H0.
  apply (iter_pos_invariant (fun mrs => (0 <= shr_m mrs)%Z)); auto using shr_1_nonneg.
Qed.

Lemma round_nearest_even_nonneg (m : Z) (l : location) :
  (0 <= m)%Z -> (0 <= round_nearest_even m l)%Z.
Proof.
  intros H. destruct l as [|[ | | ]]; simpl; try lia. destruct (Z.even m); lia.
Qed.

Lemma binary_round_aux_not_nan (prec emax : Z) (sx : bool) (mx ex : Z) (lx : location) :
  (0 <= mx)%Z -> not_nan (binary_round_aux prec emax sx mx ex lx).
Proof.
  intros H. unfold binary_round_aux.
  pose proof (shr_fexp_nonneg prec emax ex lx H) as H1.
  destruct (shr_fexp prec emax mx ex lx) as [mrs' e']. simpl in H1.
  pose proof (shr_fexp_nonneg prec emax e' loc_Exact
                (round_nearest_even_nonneg (loc_of_shr_record mrs') H1)) as H2.
  destruct (shr_fexp prec emax (round_nearest_even (shr_m mrs') (loc_of_shr_record mrs'))
              e' loc_Exact) as [mrs'' e''].
  simpl in H2. unfold not_nan.
  destruct (shr_m mrs'') as [|p|p]; try discriminate; try lia.
  destruct (e'' <=? emax - prec)%Z; discriminate.
Qed.

Lemma binary_normalize_not_nan (prec emax m e : Z) (szero : bool) :
  not_nan (binary_normalize prec emax m e szero).
Proof.
  unfold binary_normalize, binary_round.
  destruct m as [|p|p]; try discriminate;
    match goal with |- context [shl_align ?a ?b ?c] => destruct (shl_align a b c) end;
    apply binary_round_aux_not_nan; lia.
Qed.

Lemma mul_finite_not_nan (x y : float) :
  is_nan x = false -> finite y -> is_nan (x * y) = false.
Proof.
  rewrite !is_nan_false, mul_spec. intros Hx (s & m & e & ->).
  unfold SF64mul. destruct (Prim2SF x) as [b|b| |b mx ex]; simpl; try discriminate.
  - now elim Hx.
  - apply binary_round_aux_not_nan. lia.
Qed.

Lemma sub_finite_not_nan (x y : float) :
  is_nan x = false -> finite y -> is_nan (x - y) = false.
Proof.
  rewrite !is_nan_false, sub_spec. intros Hx (s & m & e & ->).
  unfold SF64sub. destruct (Prim2SF x) as [b|b| |b mx ex]; simpl; try discriminate.
  - now elim Hx.
  - apply binary_normalize_not_nan.
Qed.

Lemma abs_not_nan (x : float) : is_nan x = false -> is_nan (abs x) = false.
Proof.
  rewrite !is_nan_false, abs_spec. destruct (Prim2SF x); simpl; try discriminate; auto.
Qed.

(** * The expiry bucketer *)

Module BucketFacts.
Import ProduceIV.

Lemma argmin_from_first_minimum (l pre : list float) (mp : float) (min_ind : nat) :
  Forall (fun y => is_nan y = false) l ->
  is_nan mp = false ->
  (exists before after,
      first_minimum pre before mp after /\ List.length before = min_ind) ->
  exists before m after,
    first_minimum (pre ++ l) before m after
    /\ List.length before = argmin_from mp min_ind (List.length pre) l.
Proof.
  revert pre mp min_ind.
  induction l as [|x t IH]; intros pre mp min_ind Hl Hmp (before & after & Hm & Hlen).
  - rewrite app_nil_r. simpl. eauto.
  - apply Forall_cons_iff in Hl. destruct Hl as [Hx Ht].
    destruct Hm as (Hpre & Hb & Ha).
    replace (pre ++ x :: t) with ((pre ++ [x]) ++ t) by now rewrite <- app_assoc.
    simpl.
    replace (S (List.length pre)) with (List.length (pre ++ [x]))
      by (rewrite length_app; simpl; lia).
    destruct (mp <=? x) eqn:E.
    + apply IH; [exact Ht|exact Hmp|].
      exists before, (after ++ [x]). split; [|exact Hlen].
      repeat split; [|exact Hb|].
      * rewrite Hpre, <- app_assoc. reflexivity.
      * apply Forall_app. split; [exact Ha|]. constructor; [exact E|constructor].
    + rewrite Hx.
      assert (Hlt : (x <? mp) = true) by (apply leb_false_ltb; assumption).
      rewrite length_app. simpl.
      replace (List.length pre + 1)%nat with (List.length (pre ++ [x]))
        by (rewrite length_app; reflexivity).
      apply IH; [exact Ht|exact Hx|].
      exists pre, []. split; [|reflexivity].
      repeat split; [|constructor].
      rewrite Hpre. apply Forall_app. split; [|constructor].
      * eapply Forall_impl; [|exact Hb]. simpl. intros y Hy.
        eapply ltb_leb_trans; [exact Hlt|]. now apply ltb_leb.
      * exact Hlt.
      * eapply Forall_impl; [|exact Ha]. simpl. intros y Hy.
        eapply ltb_leb_trans; eassumption.
Qed.

Lemma argmin_first_minimum (l : list float) :
  l <> [] ->
  Forall (fun y => is_nan y = false) l ->
  exists before m after,
    first_minimum l before m after /\ List.length before = argmin l.
Proof.
  destruct l as [|x t]; [congruence|]. intros _ Hl.
  apply Forall_cons_iff in Hl. destruct Hl as [Hx Ht].
  unfold argmin. rewrite Hx.
  apply (argmin_from_first_minimum (pre := [x]) Ht Hx).
  exists [], []. repeat split; constructor.
Qed.

Lemma strongly_sorted_middle {A : Type} (R : A -> A -> Prop) (l1 l2 : list A) (x : A) :
  Sorted.StronglySorted R (l1 ++ x :: l2) -> Forall (R x) l2.
Proof.
  induction l1 as [|y l1 IH]; simpl; intros H; inversion H; subst; auto.
Qed.


Lemma finite_365 : finite 365.0.
Proof. do 3 eexists. vm_compute. reflexivity. Qed.

Lemma target_finite (tgt : Z) : In tgt TARGET_DAYS -> finite (float_of_int tgt).
Proof.
  unfold TARGET_DAYS. simpl.
  intros H; repeat (destruct H as [<-|H]; [do 3 eexists; vm_compute; reflexivity|]).
  destruct H.
Qed.

Lemma distance_not_nan (years : float) (tgt : Z) :
  is_nan years = false -> In tgt TARGET_DAYS -> is_nan (distance years tgt) = false.
Proof.
  intros Hy Ht. unfold distance, days_of.
  apply abs_not_nan, sub_finite_not_nan; [|now apply target_finite].
  apply mul_finite_not_nan; [exact Hy|exact finite_365].
Qed.

End BucketFacts.



(** A record exactly between two targets (45 days) gets the first, 30. *)
Example assign_closest_bucket_tie :
  ProduceIV.assign_closest_bucket (45 / 365.0) = (30%Z, 15).
Proof. vm_compute. reflexivity. Qed.

(** * Facts about [drop_duplicates] *)

Section DropDuplicatesFacts.
Context {A : Type} (same : A -> A -> bool).

Lemma drop_duplicates_from_In (seen l : list A) (y : A) :
  In y (drop_duplicates_from same seen l) ->
  In y l /\ existsb (same y) seen = false.
Proof.
  revert seen. induction l as [|x t IH]; intros seen; simpl; [tauto|].
  destruct (existsb (same x) seen) eqn:E.
  - intros H. apply IH in H. tauto.
  - intros [<-|H]; [tauto|]. apply IH in H. simpl in H.
    destruct H as [H1 H2]. apply orb_false_iff in H2. tauto.
Qed.

Lemma drop_duplicates_In (l : list A) (y : A) :
  In y (drop_duplicates same l) -> In y l.
Proof. intros H. now apply drop_duplicates_from_In in H. Qed.

(** A later kept row is never the same as an earlier kept one. *)
Lemma drop_duplicates_from_pairs (seen l : list A) :
  ForallOrdPairs (fun x y => same y x = false) (drop_duplicates_from same seen l).
Proof.
  revert seen. induction l as [|x t IH]; intros seen; simpl; [constructor|].
  destruct (existsb (same x) seen); [apply IH|].
  constructor; [|apply IH].
  apply Forall_forall. intros y Hy.
  apply drop_duplicates_from_In in Hy. simpl in Hy.
  destruct Hy as [_ Hy]. apply orb_false_iff in Hy. tauto.
Qed.

(** Every row survives or has a kept (or already seen) row it is the
    same as. *)
Lemma drop_duplicates_from_repr (seen l : list A) (x : A) :
  In x l ->
  In x (drop_duplicates_from same seen l)
  \/ exists y, (In y seen \/ In y (drop_duplicates_from same seen l)) /\ same x y = true.
Proof.
  revert seen. induction l as [|a t IH]; intros seen; simpl; [tauto|].
  intros [->|H].
  - destruct (existsb (same x) seen) eqn:E.
    + right. apply existsb_exists in E. destruct E as (y & Hy & Hs). eauto.
    + left. now left.
  - destruct (existsb (same a) seen) eqn:E.
    + apply IH. exact H.
    + destruct (IH (a :: seen) H) as [H1|(y & [[<-|Hy]|Hy] & Hs)].
      * left. now right.
      * right. exists a. split; [right; now left|exact Hs].
      * right. eauto.
      * right. exists y. split; [right; now right|exact Hs].
Qed.

Lemma drop_duplicates_repr (l : list A) (x : A) :
  In x l ->
  In x (drop_duplicates same l)
  \/ exists y, In y (drop_duplicates same l) /\ same x y = true.
Proof.
  intros H. destruct (drop_duplicates_from_repr [] l x H) as [H1|(y & [[]|Hy] & Hs)]; eauto.
Qed.

(** Only what [seen] answers on the rows of [l] matters. *)
Lemma drop_duplicates_from_ext (s1 s2 l : list A) :
  (forall y, In y l -> existsb (same y) s1 = existsb (same y) s2) ->
  drop_duplicates_from same s1 l = drop_duplicates_from same s2 l.
Proof.
  revert s1 s2. induction l as [|x t IH]; intros s1 s2 H; simpl; [reflexivity|].
  rewrite <- (H x) by now left.
  destruct (existsb (same x) s1).
  - apply IH. intros y Hy. apply H. now right.
  - f_equal. apply IH. intros y Hy. simpl. f_equal. apply H. now right.
Qed.

Lemma drop_duplicates_from_app (seen l1 l2 : list A) :
  drop_duplicates_from same seen (l1 ++ l2)
  = drop_duplicates_from same seen l1
    ++ drop_duplicates_from same (rev (drop_duplicates_from same seen l1) ++ seen) l2.
Proof.
  revert seen. induction l1 as [|x t IH]; intros seen; simpl; [reflexivity|].
  destruct (existsb (same x) seen); [apply IH|].
  simpl. f_equal. rewrite IH, <- app_assoc. reflexivity.
Qed.

(** The rows kept once are all kept again. *)
Lemma drop_duplicates_from_kept (seen l : list A) :
  drop_duplicates_from same seen (drop_duplicates_from same seen l)
  = drop_duplicates_from same seen l.
Proof.
  revert seen. induction l as [|x t IH]; intros seen; simpl; [reflexivity|].
  destruct (existsb (same x) seen) eqn:E; [apply IH|].
  simpl. rewrite E. f_equal. apply IH.
Qed.

Lemma drop_duplicates_NoDup (l : list A) :
  (forall x, same x x = true) -> NoDup (drop_duplicates same l).
Proof.
  intros Hrefl. unfold drop_duplicates.
  generalize (drop_duplicates_from_pairs [] l).
  generalize (drop_duplicates_from same [] l) as kept.
  induction 1 as [|x kept Hx _ IH]; constructor; [|exact IH].
  intros Hin. rewrite Forall_forall in Hx. apply Hx in Hin.
  now rewrite Hrefl in Hin.
Qed.

Lemma drop_duplicates_idempotent (l : list A) :
  drop_duplicates same (drop_duplicates same l) = drop_duplicates same l.
Proof. apply drop_duplicates_from_kept. Qed.

(** Deduplicating a deduplicated frame with more rows appended is
    deduplicating the whole. *)
Lemma drop_duplicates_app_left (l1 l2 : list A) :
  drop_duplicates same (drop_duplicates same l1 ++ l2) = drop_duplicates same (l1 ++ l2).
Proof.
  unfold drop_duplicates.
  rewrite !drop_duplicates_from_app, drop_duplicates_from_kept. reflexivity.
Qed.

End DropDuplicatesFacts.

(** * Keys *)

Lemma same_option_eq {A : Type} (eqb : A -> A -> bool) (a b : option A) :
  (forall x y, eqb x y = true <-> x = y) ->
  same_option eqb a b = true <-> a = b.
Proof.
  intros H. destruct a as [x|], b as [y|]; simpl; try rewrite H;
    split; congruence.
Qed.

Lemma same_label_eq (a b : ExpiryLabel) : same_label a b = true <-> a = b.
Proof.
  destruct a, b; simpl; rewrite ?andb_true_iff, ?Z.eqb_eq;
    split; try congruence; try discriminate.
  - intros [-> ->]. reflexivity.
  - intros H. injection H. auto.
Qed.

Lemma same_value_type_eq (a b : ValueType) : same_value_type a b = true <-> a = b.
Proof. destruct a, b; simpl; split; congruence. Qed.

Lemma same_key_eq {N : Type} (a b : CubeRow N) :
  same_key a b = true <-> natural_key a = natural_key b.
Proof.
  unfold same_key, natural_key.
  rewrite !andb_true_iff, Z.eqb_eq, !String.eqb_eq, same_label_eq, same_value_type_eq.
  split.
  - intros [[[[[-> ->] ->] ->] ->] ->]. reflexivity.
  - intros H. injection H. tauto.
Qed.

Module CubeFacts.
Import ProduceIV.

Section Generic.
Context {N : Type} {arith : Arith N}.

Lemma same_group_eq (a b : GroupKey) : same_group a b = true <-> a = b.
Proof.
  unfold same_group.
  rewrite !andb_true_iff, Z.eqb_eq, same_label_eq, same_value_type_eq,
    !(same_option_eq String.eqb _ _ String.eqb_eq).
  destruct a, b; simpl. split.
  - intros [[[[[-> ->] ->] ->] ->] ->]. reflexivity.
  - intros H. injection H. tauto.
Qed.

Lemma same_group_refl (a : GroupKey) : same_group a a = true.
Proof. now apply same_group_eq. Qed.

(** The groups of a grouping are the keys of its rows. *)
Lemma group_keys_In (bs bz by_style : bool) (df : list (Enriched N)) (k : GroupKey) :
  In k (group_keys bs bz by_style df)
  <-> exists r, In r df /\ group_key bs bz by_style r = Some k.
Proof.
  unfold group_keys. split.
  - intros H. apply drop_duplicates_In, in_flat_map in H.
    destruct H as (r & Hr & Hk). exists r. split; [exact Hr|].
    destruct (group_key bs bz by_style r); simpl in Hk; [|tauto].
    destruct Hk as [->|[]]. reflexivity.
  - intros (r & Hr & Hk).
    assert (Hin : In k (flat_map (fun r => match group_key bs bz by_style r with
                                           | Some k => [k]
                                           | None => []
                                           end) df)).
    { apply in_flat_map. exists r. split; [exact Hr|]. rewrite Hk. now left. }
    apply (drop_duplicates_repr same_group) in Hin.
    destruct Hin as [H|(y & Hy & Hs)]; [exact H|].
    apply same_group_eq in Hs. now subst.
Qed.

Lemma group_keys_NoDup (bs bz by_style : bool) (df : list (Enriched N)) :
  NoDup (group_keys bs bz by_style df).
Proof.
  apply drop_duplicates_NoDup, same_group_refl.
Qed.

Lemma rollup_In (bs bz by_style : bool) (df : list (Enriched N)) (c : CubeRow N) :
  In c (rollup bs bz by_style df)
  <-> exists k, In k (group_keys bs bz by_style df) /\ c = cube_row bs bz by_style df k.
Proof.
  unfold rollup, grouped_sums. rewrite map_map, in_map_iff.
  split; intros (k & H1 & H2); exists k; (split; [|]); auto.
Qed.

End Generic.
End CubeFacts.

(** * The size classifier on a missing market cap *)

Lemma classify_size_nan (market_cap : float) :
  is_nan market_cap = true -> ProduceIV.classify_size market_cap = "Small Cap".
Proof.
  intros H. unfold ProduceIV.classify_size.
  destruct (10e9 <=? market_cap) eqn:E1; [apply leb_not_nan in E1; destruct E1; congruence|].
  destruct (2e9 <=? market_cap) eqn:E2; [apply leb_not_nan in E2; destruct E2; congruence|].
  reflexivity.
Qed.

Lemma enrich_In (daily : ProduceIV.DailyTicker) (style_daily : date -> string -> option Style)
    (df_melt : list ProduceIV.Melted) (e : Enriched float) :
  In e (ProduceIV.enrich daily style_daily df_melt)
  <-> exists m, In m df_melt /\ ProduceIV.enrich_row daily style_daily m = Some e.
Proof.
  unfold ProduceIV.enrich. rewrite in_flat_map. split; intros (m & Hm & H); exists m;
    (split; [exact Hm|]).
  - destruct (ProduceIV.enrich_row daily style_daily m); simpl in H; [|tauto].
    destruct H as [->|[]]. reflexivity.
  - rewrite H. now left.
Qed.

Lemma enrich_row_size (daily : ProduceIV.DailyTicker) (style_daily : date -> string -> option Style)
    (m : ProduceIV.Melted) (e : Enriched float) :
  ProduceIV.enrich_row daily style_daily m = Some e ->
  size_category e = ProduceIV.classify_size (market_cap e).
Proof.
  unfold ProduceIV.enrich_row. intros H.
  repeat match type of H with
         | match ?x with _ => _ end = _ => destruct x; try discriminate
         | (if ?x then _ else _) = _ => destruct x; try discriminate
         end.
  injection H as <-. reflexivity.
Qed.

(** C10.  A record whose market capitalization is missing (NaN) after the
    left join is classified 'Small Cap' (both comparisons with NaN are
    false); it stays in the enriched frame, and its group is among the
    groups of the size grouping, and of the full-detail grouping when it has
    a style. *)
Theorem missing_market_cap_is_small_cap
    (daily : ProduceIV.DailyTicker) (style_daily : date -> string -> option Style)
    (df_melt : list ProduceIV.Melted) (e : Enriched float) :
  In e (ProduceIV.enrich daily style_daily df_melt) ->
  is_nan (market_cap e) = true ->
  ProduceIV.classify_size (market_cap e) = "Small Cap"
  /\ size_category e = "Small Cap"
  /\ In (ProduceIV.mkKey (e_teo e) None (Some "Small Cap") None
           (expiry_label e) (value_type e))
        (ProduceIV.group_keys false true false
           (ProduceIV.enrich daily style_daily df_melt))
  /\ forall s, style e = Some s ->
       In (ProduceIV.mkKey (e_teo e) (Some (gics_sector e)) (Some "Small Cap") (Some s)
             (expiry_label e) (value_type e))
          (ProduceIV.group_keys true true true
             (ProduceIV.enrich daily style_daily df_melt)).
Proof.
  intros Hin Hnan.
  pose proof (classify_size_nan _ Hnan) as Hc.
  assert (Hs : size_category e = "Small Cap").
  { apply enrich_In in Hin. destruct Hin as (m & _ & Hm).
    apply enrich_row_size in Hm. congruence. }
  repeat split; try assumption.
  - apply CubeFacts.group_keys_In. exists e. split; [exact Hin|].
    unfold ProduceIV.group_key. now rewrite Hs.
  - intros s Hst. apply CubeFacts.group_keys_In. exists e. split; [exact Hin|].
    unfold ProduceIV.group_key. now rewrite Hs, Hst.
Qed.

Lemma missing_market_cap_is_small_cap_witness :
  ProduceIV.classify_size (market_cap bbb_30) = "Small Cap"
  /\ size_category bbb_30 = "Small Cap"
  /\ In (ProduceIV.mkKey 1%Z None (Some "Small Cap") None (Direct 30) VolType)
        (ProduceIV.group_keys false true false Scenario.enriched)
  /\ forall s, style bbb_30 = Some s ->
       In (ProduceIV.mkKey 1%Z (Some "Information_Technology") (Some "Small Cap") (Some s)
             (Direct 30) VolType)
          (ProduceIV.group_keys true true true Scenario.enriched).
Proof.
  apply (missing_market_cap_is_small_cap Scenario.daily Scenario.style_daily
           (ProduceIV.melt_all (ProduceIV.closest_per_bucket Scenario.frame)) bbb_30).
  - vm_compute. right. left. reflexivity.
  - vm_compute. reflexivity.
Defined.

(** * The liquidity and maturity filter *)

Lemma liquid_excludes (r : SurfaceRecord) :
  too_long_or_illiquid r = true -> ProduceIV.liquid r = false.
Proof.
  unfold too_long_or_illiquid, ProduceIV.liquid. intros H.
  apply orb_true_iff in H. destruct H as [H|H].
  - apply ltb_asym in H. rewrite H. now rewrite andb_false_r.
  - apply ltb_leb_asym in H. rewrite H. now rewrite andb_false_r.
Qed.

Lemma load_and_filter_data_cons (row : StoreRow) (store : list StoreRow) (sd : option date) :
  ProduceIV.load_and_filter_data (row :: store) sd
  = if negb (ProduceIV.has_na (data row)) && ProduceIV.on_or_after sd (data row)
       && ProduceIV.liquid (data row)
    then data row :: ProduceIV.load_and_filter_data store sd
    else ProduceIV.load_and_filter_data store sd.
Proof.
  unfold ProduceIV.load_and_filter_data. simpl.
  destruct (negb (ProduceIV.has_na (data row))); simpl; [|reflexivity].
  destruct (ProduceIV.on_or_after sd (data row)); simpl; [|reflexivity].
  reflexivity.
Qed.

Lemma load_and_filter_data_without (store : list StoreRow) (sd : option date) :
  ProduceIV.load_and_filter_data (without_too_long_or_illiquid store) sd
  = ProduceIV.load_and_filter_data store sd.
Proof.
  induction store as [|row store IH]; [reflexivity|].
  unfold without_too_long_or_illiquid in *. simpl.
  destruct (too_long_or_illiquid (data row)) eqn:E; simpl.
  - rewrite IH, load_and_filter_data_cons, (liquid_excludes _ E).
    now rewrite andb_false_r.
  - rewrite !load_and_filter_data_cons, IH. reflexivity.
Qed.

(** C8.  No record with [years > 2] or [cCnt + pCnt < 20] is in the frame
    that [load_and_filter_data] hands to bucketing and aggregation, and a
    run of [main] does exactly what it does on the store with those records
    taken out: same files, same log. *)
Theorem too_long_or_illiquid_never_aggregated
    (inp : ProduceIV.Inputs) (fault : option ProduceIV.Fault) (fs : @ProduceIV.Files float) :
  (forall r, In r (ProduceIV.load_and_filter_data
                     (ProduceIV.surface_store inp) (ProduceIV.start_date inp)) ->
             too_long_or_illiquid r = false)
  /\ ProduceIV.main
       (ProduceIV.mkInputs (without_too_long_or_illiquid (ProduceIV.surface_store inp))
          (ProduceIV.start_date inp) (ProduceIV.daily inp) (ProduceIV.style_daily inp))
       fault fs
     = ProduceIV.main inp fault fs.
Proof.
  split.
  - intros r Hr. unfold ProduceIV.load_and_filter_data in Hr.
    apply filter_In in Hr. destruct Hr as [_ Hr].
    destruct (too_long_or_illiquid r) eqn:E; [|reflexivity].
    apply liquid_excludes in E. congruence.
  - unfold ProduceIV.main. cbn [ProduceIV.surface_store ProduceIV.start_date].
    rewrite load_and_filter_data_without. reflexivity.
Qed.

(** A two-and-a-half-year expiry and a quote with 19 contracts are both
    dropped by the filter. *)
Example filter_drops_long_and_illiquid :
  ProduceIV.load_and_filter_data
    [ mkStoreRow None (mkSurface "AAA" (Some 1%Z) 0.05 2.5 0.2 0.2 1 0.1 15 10 0.1);
      mkStoreRow None (mkSurface "AAA" (Some 1%Z) 0.05 0.5 0.2 0.2 1 0.1 10 9 0.1) ]
    None = [].
Proof. vm_compute. reflexivity. Qed.

(** * Forward volatility *)

Lemma forward_vol_is_formula (T1 T2 : Z) (v1 v2 : float) :
  ProduceIV.forward_vol T1 T2 v1 v2 = spec_forward_formula T1 T2 v1 v2.
Proof.
  unfold ProduceIV.forward_vol, spec_forward_formula. cbv zeta.
  now rewrite (mul_comm (v2 * v2)), (mul_comm (v1 * v1)).
Qed.

Lemma same_bucket_eq (a b : ProduceIV.Bucketed) :
  ProduceIV.same_bucket a b = true
  <-> teo (ProduceIV.rec a) = teo (ProduceIV.rec b)
      /\ ticker (ProduceIV.rec a) = ticker (ProduceIV.rec b)
      /\ ProduceIV.target_days a = ProduceIV.target_days b.
Proof.
  unfold ProduceIV.same_bucket.
  rewrite !andb_true_iff, (same_option_eq Z.eqb _ _ Z.eqb_eq), String.eqb_eq, Z.eqb_eq.
  tauto.
Qed.

Lemma same_pivot_key_eq (a b : ProduceIV.PivotKey) :
  ProduceIV.same_pivot_key a b = true <-> a = b.
Proof.
  unfold ProduceIV.same_pivot_key.
  rewrite andb_true_iff, (same_option_eq Z.eqb _ _ Z.eqb_eq), String.eqb_eq.
  destruct a, b; simpl. split; [intros [-> ->]; reflexivity|intros H; injection H; auto].
Qed.

(** After the group-wise reduction a (date, ticker, bucket) has one row. *)
Lemma closest_per_bucket_unique (df_all : list SurfaceRecord) (a b : ProduceIV.Bucketed) :
  In a (ProduceIV.closest_per_bucket df_all) ->
  In b (ProduceIV.closest_per_bucket df_all) ->
  ProduceIV.same_bucket a b = true -> a = b.
Proof.
  unfold ProduceIV.closest_per_bucket, drop_duplicates. intros Ha Hb Hs.
  pose proof (drop_duplicates_from_pairs ProduceIV.same_bucket []
                (ProduceIV.sort_values_days_diff (ProduceIV.assign_buckets df_all))) as Hp.
  destruct (ForallOrdPairs_In Hp _ _ Ha Hb) as [H|[H|H]]; [exact H| |congruence].
  apply same_bucket_eq in Hs. destruct Hs as (H1 & H2 & H3).
  assert (ProduceIV.same_bucket b a = true) by (apply same_bucket_eq; auto).
  congruence.
Qed.

(** The pivot cell of a (date, ticker, bucket) that has a row is that
    row's value. *)
Lemma pivot_value_resolved (col : SurfaceRecord -> float) (df_all : list SurfaceRecord)
    (b : ProduceIV.Bucketed) :
  In b (ProduceIV.closest_per_bucket df_all) ->
  ProduceIV.pivot_value col (ProduceIV.closest_per_bucket df_all)
    (ProduceIV.pivot_key b) (ProduceIV.target_days b)
  = col (ProduceIV.rec b).
Proof.
  intros Hb. unfold ProduceIV.pivot_value.
  destruct (find _ _) as [b'|] eqn:E.
  - apply find_some in E. destruct E as [Hb' Hf].
    apply andb_true_iff in Hf. destruct Hf as [Hk Ht].
    apply same_pivot_key_eq in Hk. apply Z.eqb_eq in Ht.
    unfold ProduceIV.pivot_key in Hk. injection Hk as H1 H2.
    rewrite (closest_per_bucket_unique df_all b' b Hb' Hb); [reflexivity|].
    apply same_bucket_eq. auto.
  - apply (find_none _ _ E) in Hb.
    rewrite Z.eqb_refl, andb_true_r in Hb.
    assert (ProduceIV.same_pivot_key (ProduceIV.pivot_key b) (ProduceIV.pivot_key b) = true)
      by now apply same_pivot_key_eq.
    congruence.
Qed.

Lemma pivot_index_In (df : list ProduceIV.Bucketed) (b : ProduceIV.Bucketed) :
  In b df -> In (ProduceIV.pivot_key b) (ProduceIV.pivot_index df).
Proof.
  intros Hb. unfold ProduceIV.pivot_index.
  destruct (drop_duplicates_repr ProduceIV.same_pivot_key
              (map ProduceIV.pivot_key df) (ProduceIV.pivot_key b) (in_map _ _ _ Hb))
    as [H|(y & Hy & Hs)]; [exact H|].
  apply same_pivot_key_eq in Hs. now rewrite Hs.
Qed.

Lemma melt_all_In (df : list ProduceIV.Bucketed) (vt : ValueType)
    (k : ProduceIV.PivotKey) (label : ExpiryLabel) :
  In k (ProduceIV.pivot_index df) ->
  In label (ProduceIV.vol_cols ++ ProduceIV.fwd_cols) ->
  fst k <> None ->
  is_nan (ProduceIV.cell (column_of vt) df k label) = false ->
  In (ProduceIV.mkMelted (fst k) (snd k) label (ProduceIV.cell (column_of vt) df k label) vt)
     (ProduceIV.melt_all df).
Proof.
  intros Hk Hl Hteo Hv. unfold ProduceIV.melt_all.
  apply filter_In. split.
  - apply in_or_app. destruct vt; [left|right]; unfold ProduceIV.melt;
      apply in_flat_map; exists label; (split; [exact Hl|]);
      apply in_map_iff; exists k; auto.
  - unfold ProduceIV.melted_has_na. simpl. rewrite Hv.
    destruct (fst k); [reflexivity|congruence].
Qed.

(** C1, as amended.  For every (date, ticker) with a row in each of two
    adjacent target buckets T1 < T2 after the group-wise reduction, and for
    each value type, the forward cell [fwd_T1_T2] of the pivot is
    sqrt((T2/365 * v(T2)^2 - T1/365 * v(T1)^2) / (T2/365 - T1/365)), with
    v(T) the column value of the bucket's row, and when it is a number the
    melted frame holds it under the label [fwd_T1_T2].  For T1 = 30,
    T2 = 60, v(30) = 0.20 and v(60) = 0.25 the result is 0.2915 to four
    decimals (sqrt(0.085)), not 0.2958. *)
Theorem forward_vol_matches_formula :
  (forall (df_all : list SurfaceRecord) (b1 b2 : ProduceIV.Bucketed) (vt : ValueType),
      In b1 (ProduceIV.closest_per_bucket df_all) ->
      In b2 (ProduceIV.closest_per_bucket df_all) ->
      ProduceIV.pivot_key b1 = ProduceIV.pivot_key b2 ->
      In (ProduceIV.target_days b1, ProduceIV.target_days b2) ProduceIV.TARGET_PAIRS ->
      let fwd := spec_forward_formula (ProduceIV.target_days b1) (ProduceIV.target_days b2)
                   (column_of vt (ProduceIV.rec b1)) (column_of vt (ProduceIV.rec b2)) in
      let label := Forward (ProduceIV.target_days b1) (ProduceIV.target_days b2) in
      ProduceIV.cell (column_of vt) (ProduceIV.closest_per_bucket df_all)
        (ProduceIV.pivot_key b1) label = fwd
      /\ (teo (ProduceIV.rec b1) <> None -> is_nan fwd = false ->
          In (ProduceIV.mkMelted (teo (ProduceIV.rec b1)) (ticker (ProduceIV.rec b1))
                label fwd vt)
             (ProduceIV.melt_all (ProduceIV.closest_per_bucket df_all))))
  /\ (abs (ProduceIV.forward_vol 30 60 0.20 0.25 - 0.2915) <? 0.0001) = true.
Proof.
  split; [|vm_compute; reflexivity].
  intros df_all b1 b2 vt H1 H2 Hk Hp fwd label.
  assert (Hcell : ProduceIV.cell (column_of vt) (ProduceIV.closest_per_bucket df_all)
                    (ProduceIV.pivot_key b1) label = fwd).
  { unfold label, fwd. cbn [ProduceIV.cell].
    rewrite (pivot_value_resolved _ df_all b1 H1).
    rewrite Hk, (pivot_value_resolved _ df_all b2 H2).
    apply forward_vol_is_formula. }
  split; [exact Hcell|].
  intros Hteo Hnan. rewrite <- Hcell in *.
  apply (@melt_all_In (ProduceIV.closest_per_bucket df_all) vt
           (ProduceIV.pivot_key b1) label); try assumption.
  - now apply pivot_index_In.
  - apply in_or_app. right. unfold ProduceIV.fwd_cols.
    apply in_map_iff. exists (ProduceIV.target_days b1, ProduceIV.target_days b2).
    split; auto.
Qed.

Lemma forward_vol_matches_formula_witness :
  ProduceIV.cell atmVol (ProduceIV.closest_per_bucket Scenario.frame)
    (Some 1%Z, "AAA") (Forward 30 60)
  = spec_forward_formula 30 60 0.20 0.25
  /\ (teo (ProduceIV.rec aaa_30) <> None ->
      is_nan (spec_forward_formula 30 60 0.20 0.25) = false ->
      In (ProduceIV.mkMelted (Some 1%Z) "AAA" (Forward 30 60)
            (spec_forward_formula 30 60 0.20 0.25) VolType)
         (ProduceIV.melt_all (ProduceIV.closest_per_bucket Scenario.frame))).
Proof.
  apply (proj1 forward_vol_matches_formula Scenario.frame aaa_30 aaa_60 VolType).
  - vm_compute. repeat (first [left; reflexivity|right]).
  - vm_compute. repeat (first [left; reflexivity|right]).
  - reflexivity.
  - vm_compute. left. reflexivity.
Defined.

(** C1 as stated fails on its own example: the forward volatility between
    30 days at 0.20 and 60 days at 0.25 is 0.29154759474226499, which is
    more than 0.004 away from 0.2958; the specification's own formula gives
    the same number. *)
Lemma forward_30_60_is_not_0_2958 :
  ProduceIV.forward_vol 30 60 0.20 0.25 = 0.29154759474226499
  /\ spec_forward_formula 30 60 0.20 0.25 = 0.29154759474226499
  /\ (abs (ProduceIV.forward_vol 30 60 0.20 0.25 - 0.2958) <? 0.004) = false
  /\ ProduceIV.cell atmVol (ProduceIV.closest_per_bucket Scenario.frame)
       (Some 1%Z, "AAA") (Forward 30 60) = 0.29154759474226499.
Proof. vm_compute. repeat split. Qed.

(** * Numeric degeneracy *)

Lemma mul_nan_right (x y : float) : is_nan y = true -> is_nan (x * y) = true.
Proof.
  rewrite !is_nan_spec, mul_spec. intros ->. destruct (Prim2SF x); reflexivity.
Qed.

Lemma eqb_zero_spec (y : float) :
  (y =? 0) = true -> exists s, Prim2SF y = S754_zero s.
Proof.
  rewrite eqb_spec. change (Prim2SF 0) with (S754_zero false). unfold SFeqb.
  destruct (Prim2SF y) as [s|s| |s m e]; simpl; try discriminate; eauto;
    destruct s; discriminate.
Qed.

Lemma is_infinity_spec (x : float) (s : bool) :
  Prim2SF x = S754_infinity s -> is_infinity x = true.
Proof.
  intros H. unfold is_infinity. rewrite eqb_spec, abs_spec, H. reflexivity.
Qed.

(** A quotient by zero is NaN or an infinity. *)
Lemma div_by_zero_not_finite (x y : float) :
  (y =? 0) = true -> is_finite (x / y) = false.
Proof.
  intros H. apply eqb_zero_spec in H. destruct H as [s Hy].
  unfold is_finite. apply negb_false_iff, orb_true_iff.
  pose proof (div_spec x y) as Hd. rewrite Hy in Hd. unfold SF64div in Hd.
  destruct (Prim2SF x) as [b|b| |b m e]; simpl in Hd.
  - left. now apply is_nan_spec.
  - right. eapply is_infinity_spec. eassumption.
  - left. now apply is_nan_spec.
  - right. eapply is_infinity_spec. eassumption.
Qed.

Lemma sum_skipna_all_nan {N : Type} {arith : Arith N} (l : list N) :
  Forall (fun x => nisnan x = true) l -> ProduceIV.sum_skipna l = nzero.
Proof.
  unfold ProduceIV.sum_skipna. generalize nzero as acc.
  induction l as [|x t IH]; intros acc H; simpl; [reflexivity|].
  apply Forall_cons_iff in H. destruct H as [Hx Ht]. rewrite Hx. now apply IH.
Qed.

(** Every melted row carries the cell of its (date, ticker, label) in the
    pivot of its value type, and that cell is a number. *)
Lemma melt_all_value (df : list ProduceIV.Bucketed) (m : ProduceIV.Melted) :
  In m (ProduceIV.melt_all df) ->
  ProduceIV.m_value m
  = ProduceIV.cell (column_of (ProduceIV.m_type m)) df
      (ProduceIV.m_teo m, ProduceIV.m_ticker m) (ProduceIV.m_label m)
  /\ is_nan (ProduceIV.m_value m) = false.
Proof.
  unfold ProduceIV.melt_all. intros H. apply filter_In in H. destruct H as [H Hna].
  split.
  - apply in_app_or in H. destruct H as [H|H]; unfold ProduceIV.melt in H;
      apply in_flat_map in H; destruct H as (label & _ & H);
      apply in_map_iff in H; destruct H as ([d tk] & <- & _); reflexivity.
  - unfold ProduceIV.melted_has_na in Hna.
    apply negb_true_iff, orb_false_iff in Hna. tauto.
Qed.

Lemma agg_all_In {N : Type} {arith : Arith N} (df : list (Enriched N)) (c : CubeRow N) :
  In c (ProduceIV.agg_all df)
  <-> exists bs bz by_style, In c (ProduceIV.rollup bs bz by_style df).
Proof.
  unfold ProduceIV.agg_all, ProduceIV.agg_main, ProduceIV.total_all,
    ProduceIV.total_sector, ProduceIV.total_size, ProduceIV.total_style,
    ProduceIV.total_sector_size, ProduceIV.total_sector_style,
    ProduceIV.total_size_style.
  rewrite !in_app_iff. split.
  - intros H. repeat destruct H as [H|H]; eauto.
  - intros ([|] & [|] & [|] & H); tauto.
Qed.

Lemma to_zarr_same {N : Type} (path : string) (ds : list (CubeRow N)) (fs : ProduceIV.Files) :
  ProduceIV.to_zarr path ds fs path = Some ds.
Proof. unfold ProduceIV.to_zarr. now rewrite String.eqb_refl. Qed.

Lemma to_zarr_other {N : Type} (path p : string) (ds : list (CubeRow N)) (fs : ProduceIV.Files) :
  p <> path -> ProduceIV.to_zarr path ds fs p = fs p.
Proof.
  intros H. unfold ProduceIV.to_zarr.
  destruct (String.eqb p path) eqn:E; [apply String.eqb_eq in E; congruence|reflexivity].
Qed.

(** What a successful save leaves at [path]: the batch itself, or the
    existing rows and the batch with later duplicates of a key dropped. *)
Lemma save_output_written {N : Type} (agg : list (CubeRow N)) (path : string)
    (fs : ProduceIV.Files) :
  fst (ProduceIV.save_output None agg path fs) path
  = Some (match fs path with
          | None => agg
          | Some df_existing => drop_duplicates same_key (df_existing ++ agg)
          end).
Proof.
  unfold ProduceIV.save_output, ProduceIV.append_to_existing_output.
  destruct (fs path) as [df_existing|] eqn:E; simpl; apply to_zarr_same.
Qed.

(** * Rows that lack join data *)







(** * The natural key of the cube *)

Lemma drop_duplicates_unique_keys {N : Type} (l : list (CubeRow N)) :
  unique_keys (drop_duplicates same_key l).
Proof.
  unfold unique_keys, drop_duplicates.
  generalize (drop_duplicates_from_pairs (@same_key N) [] l).
  generalize (drop_duplicates_from (@same_key N) [] l) as kept.
  induction 1 as [|x kept Hx _ IH]; simpl; constructor; [|exact IH].
  intros Hin. apply in_map_iff in Hin. destruct Hin as (y & Hk & Hy).
  rewrite Forall_forall in Hx. apply Hx in Hy.
  assert (same_key y x = true) by now apply same_key_eq.
  congruence.
Qed.

Lemma NoDup_app_by_tag {A B : Type} (tag : A -> B) (b : B) (l1 l2 : list A) :
  NoDup l1 -> NoDup l2 ->
  (forall a, In a l1 -> tag a = b) -> (forall a, In a l2 -> tag a <> b) ->
  NoDup (l1 ++ l2).
Proof.
  intros H1 H2 Ht1 Ht2. apply NoDup_app; try assumption.
  intros a Ha1 Ha2. apply (Ht2 a Ha2). now apply Ht1.
Qed.

Lemma lookup_In {V : Type} (table : list (Z * V)) (k : Z) (v : V) :
  lookup table k = Some v -> In (k, v) table.
Proof.
  induction table as [|[k' v'] t IH]; simpl; [discriminate|].
  destruct (Z.eqb k k') eqn:E.
  - apply Z.eqb_eq in E. intros H. injection H as ->. left. now subst.
  - intros H. right. now apply IH.
Qed.

Lemma sector_of_not_total (code : Z) (sector : string) :
  ProduceIV.sector_of code = Some sector -> sector <> "Total".
Proof.
  unfold ProduceIV.sector_of.
  destruct (lookup fs_industry_to_gic_code code) as [[g|]|]; try discriminate.
  intros H. apply lookup_In in H. unfold gic_code_to_gic_name in H. simpl in H.
  repeat (destruct H as [H|H]; [injection H as _ <-; discriminate|]).
  destruct H.
Qed.

Lemma classify_size_not_total (market_cap : float) :
  ProduceIV.classify_size market_cap <> "Total".
Proof.
  unfold ProduceIV.classify_size.
  destruct (10e9 <=? market_cap); [discriminate|].
  destruct (2e9 <=? market_cap); discriminate.
Qed.

Lemma enrich_no_total (daily : ProduceIV.DailyTicker)
    (style_daily : date -> string -> option Style) (df_melt : list ProduceIV.Melted) :
  no_total (ProduceIV.enrich daily style_daily df_melt).
Proof.
  intros e He. apply enrich_In in He. destruct He as (m & _ & He).
  unfold ProduceIV.enrich_row in He.
  destruct (ProduceIV.m_teo m) as [d|]; [|discriminate].
  destruct (_ && _); [|discriminate].
  destruct (ProduceIV.fs_industry_code daily d (ProduceIV.m_ticker m)) as [code|];
    [|discriminate].
  destruct (ProduceIV.sector_of code) as [sector|] eqn:Es; [|discriminate].
  injection He as <-. simpl. repeat split.
  - now apply sector_of_not_total in Es.
  - apply classify_size_not_total.
  - destruct (style_daily d (ProduceIV.m_ticker m)) as [[ | | | | | ]|]; discriminate.
Qed.

Section RollupKeys.
Context {N : Type} {arith : Arith N}.

Lemma group_key_shape (bs bz by_style : bool) (r : Enriched N) (k : ProduceIV.GroupKey) :
  ProduceIV.group_key bs bz by_style r = Some k ->
  k = ProduceIV.mkKey (e_teo r)
        (if bs then Some (gics_sector r) else None)
        (if bz then Some (size_category r) else None)
        (if by_style then style r else None)
        (expiry_label r) (value_type r)
  /\ (by_style = true -> style r <> None).
Proof.
  unfold ProduceIV.group_key. destruct by_style.
  - destruct (style r) as [s|]; [|discriminate].
    intros H. injection H as <-. split; [reflexivity|discriminate].
  - intros H. injection H as <-. split; [reflexivity|discriminate].
Qed.

Lemma rollup_natural_keys (bs bz by_style : bool) (df : list (Enriched N)) :
  map natural_key (ProduceIV.rollup bs bz by_style df)
  = map cube_key (ProduceIV.group_keys bs bz by_style df).
Proof.
  unfold ProduceIV.rollup, ProduceIV.grouped_sums. rewrite !map_map.
  apply map_ext. reflexivity.
Qed.

Lemma or_total_some_inj (a b : option string) :
  (a = None <-> b = None) ->
  ProduceIV.or_total a = ProduceIV.or_total b -> a = b.
Proof.
  destruct a, b; simpl; intros H E; try congruence;
    destruct H as [H1 H2]; try (now discriminate H1); now discriminate H2.
Qed.

Lemma rollup_unique_keys (bs bz by_style : bool) (df : list (Enriched N)) :
  unique_keys (ProduceIV.rollup bs bz by_style df).
Proof.
  unfold unique_keys. rewrite rollup_natural_keys.
  apply NoDup_map_NoDup_ForallPairs; [|apply CubeFacts.group_keys_NoDup].
  intros k k' Hk Hk' E.
  apply CubeFacts.group_keys_In in Hk, Hk'.
  destruct Hk as (r & _ & Hr), Hk' as (r' & _ & Hr').
  apply group_key_shape in Hr, Hr'.
  destruct Hr as [-> Hs], Hr' as [-> Hs'].
  unfold cube_key in E. simpl in E. injection E as E1 E2 E3 E4 E5 E6.
  f_equal; try assumption; apply or_total_some_inj; try assumption.
  - destruct bs; split; congruence.
  - destruct bz; split; congruence.
  - destruct by_style; [|tauto]. split; intros H; [now apply Hs in H|now apply Hs' in H].
Qed.

Lemma or_total_is_total (keep : bool) (o : option string) (s : string) :
  s <> "Total" -> (keep = true -> o = Some s) -> (keep = false -> o = None) ->
  String.eqb (ProduceIV.or_total o) "Total" = negb keep.
Proof.
  intros Hs H1 H2. destruct keep; simpl.
  - rewrite H1 by reflexivity. simpl. now apply String.eqb_neq.
  - rewrite H2 by reflexivity. reflexivity.
Qed.

Lemma rollup_key_totals (bs bz by_style : bool) (df : list (Enriched N))
    (a : date * string * string * string * ExpiryLabel * ValueType) :
  no_total df ->
  In a (map natural_key (ProduceIV.rollup bs bz by_style df)) ->
  totals_of a = (negb bs, negb bz, negb by_style).
Proof.
  intros Hdf Ha. rewrite rollup_natural_keys in Ha.
  apply in_map_iff in Ha. destruct Ha as (k & <- & Hk).
  apply CubeFacts.group_keys_In in Hk. destruct Hk as (r & Hr & Hk).
  apply group_key_shape in Hk. destruct Hk as [-> Hs].
  destruct (Hdf r Hr) as (H1 & H2 & H3).
  unfold cube_key, totals_of. simpl.
  rewrite (or_total_is_total (keep := bs) H1), (or_total_is_total (keep := bz) H2);
    try (now intros ->).
  f_equal. destruct by_style; [|reflexivity].
  destruct (style r) as [s|] eqn:E; [|now elim Hs].
  simpl. apply String.eqb_neq. congruence.
Qed.

(** The candidate batch has one row per natural key. *)
Lemma agg_all_unique_keys (df : list (Enriched N)) :
  no_total df -> unique_keys (ProduceIV.agg_all df).
Proof.
  intros Hdf. unfold unique_keys, ProduceIV.agg_all, ProduceIV.agg_main,
    ProduceIV.total_all, ProduceIV.total_sector, ProduceIV.total_size,
    ProduceIV.total_style, ProduceIV.total_sector_size, ProduceIV.total_sector_style,
    ProduceIV.total_size_style.
  rewrite !map_app.
  repeat match goal with
    | |- NoDup (map natural_key (ProduceIV.rollup ?bs ?bz ?by_style df) ++ _) =>
        apply (NoDup_app_by_tag totals_of (b := (negb bs, negb bz, negb by_style)));
        [ apply rollup_unique_keys
        |
        | intros a Ha; exact (rollup_key_totals _ _ _ _ Hdf Ha)
        | intros a Ha; rewrite ?in_app_iff in Ha;
          repeat destruct Ha as [Ha|Ha];
          rewrite (rollup_key_totals _ _ _ _ Hdf Ha); discriminate ]
    end.
  apply rollup_unique_keys.
Qed.

End RollupKeys.

(** * The output store *)

Lemma string_length_append (s t : string) :
  String.length (s ++ t) = (String.length s + String.length t)%nat.
Proof. induction s as [|c s IH]; simpl; [reflexivity|now rewrite IH]. Qed.

(** The side location is another path than the store's. *)
Lemma temp_path_differs (path : string) : (path ++ ".temp")%string <> path.
Proof.
  intros H. apply (f_equal String.length) in H.
  rewrite string_length_append in H. simpl in H. lia.
Qed.

Lemma save_output_fault_keeps {N : Type} (f : ProduceIV.Fault) (agg : list (CubeRow N))
    (path : string) (fs : ProduceIV.Files) (df_existing : list (CubeRow N)) :
  f <> ProduceIV.OnWrite ->
  fs path = Some df_existing ->
  fst (ProduceIV.save_output (Some f) agg path fs) path = Some df_existing.
Proof.
  intros Hf H. unfold ProduceIV.save_output, ProduceIV.append_to_existing_output.
  rewrite H. simpl. rewrite to_zarr_other.
  - destruct f; [exact H|exact H|congruence].
  - intros E. symmetry in E. now apply temp_path_differs in E.
Qed.

(** A write that raises leaves the store without its rows. *)
Lemma save_output_write_fault_empties {N : Type} (agg : list (CubeRow N))
    (path : string) (fs : ProduceIV.Files) (df_existing : list (CubeRow N)) :
  fs path = Some df_existing ->
  fst (ProduceIV.save_output (Some ProduceIV.OnWrite) agg path fs) path = Some [].
Proof.
  intros H. unfold ProduceIV.save_output, ProduceIV.append_to_existing_output.
  rewrite H. simpl. rewrite to_zarr_other.
  - apply to_zarr_same.
  - intros E. symmetry in E. now apply temp_path_differs in E.
Qed.

Lemma main_keeps_store_unique (inp : ProduceIV.Inputs) (fault : option ProduceIV.Fault)
    (fs : @ProduceIV.Files float) :
  store_unique fs -> store_unique (ProduceIV.files_after (ProduceIV.main inp fault fs)).
Proof.
  intros Hfs. unfold ProduceIV.main.
  destruct (ProduceIV.load_and_filter_data _ _) as [|r df_rest]; [exact Hfs|].
  destruct (ProduceIV.candidate_batch inp (r :: df_rest)) as [agg|] eqn:Ec; [|exact Hfs].
  assert (Hagg : unique_keys agg).
  { unfold ProduceIV.candidate_batch in Ec.
    destruct (ProduceIV.all_columns_present _); [|discriminate].
    injection Ec as <-. apply agg_all_unique_keys, enrich_no_total. }
  destruct (ProduceIV.save_output fault agg ProduceIV.output_path fs) as [fs' saved] eqn:Es.
  simpl. unfold store_unique in *.
  replace fs' with (fst (ProduceIV.save_output fault agg ProduceIV.output_path fs))
    by now rewrite Es.
  destruct fault as [f|].
  - destruct (fs ProduceIV.output_path) as [df_existing|] eqn:E.
    + destruct f.
      * rewrite (save_output_fault_keeps (f := ProduceIV.OnRead) agg _ _ ltac:(discriminate) E).
        exact Hfs.
      * rewrite (save_output_fault_keeps (f := ProduceIV.OnCombine) agg _ _
                   ltac:(discriminate) E).
        exact Hfs.
      * rewrite (save_output_write_fault_empties agg _ _ E). constructor.
    + unfold ProduceIV.save_output. rewrite E. cbn [fst]. now rewrite to_zarr_same.
  - rewrite save_output_written.
    destruct (fs ProduceIV.output_path); [apply drop_duplicates_unique_keys|exact Hagg].
Qed.

(** C5.  After any sequence of runs of the incremental output merge, each
    with its own input data and with or without a failing append, the cube
    store holds at most one row per natural key (date, gics_sector,
    size_category, style, expiry_label, value_type), provided it did (or
    did not exist) before the first run.  Runs may repeat: re-running with
    an already-merged batch is one such sequence. *)
Theorem cube_store_keys_stay_unique
    (runs : list (ProduceIV.Inputs * option ProduceIV.Fault)) (fs : @ProduceIV.Files float) :
  store_unique fs -> store_unique (ProduceIV.run_all runs fs).
Proof.
  revert fs. induction runs as [|[inp fault] rest IH]; intros fs Hfs; simpl; [exact Hfs|].
  apply IH. now apply main_keeps_store_unique.
Qed.

Lemma cube_store_keys_stay_unique_witness :
  store_unique
    (ProduceIV.run_all
       [(Scenario.inputs, None); (Scenario.inputs, None);
        (Scenario.inputs, Some ProduceIV.OnWrite)]
       Scenario.no_files).
Proof.
  apply (cube_store_keys_stay_unique
           [(Scenario.inputs, None); (Scenario.inputs, None);
            (Scenario.inputs, Some ProduceIV.OnWrite)]
           Scenario.no_files).
  vm_compute. exact I.
Defined.

(** Merging the same batch a second time leaves the store as it was. *)
Example merge_again_changes_nothing :
  ProduceIV.run_all [(Scenario.inputs, None); (Scenario.inputs, None)] Scenario.no_files
    ProduceIV.output_path
  = ProduceIV.run_all [(Scenario.inputs, None)] Scenario.no_files ProduceIV.output_path.
Proof. vm_compute. reflexivity. Qed.

(** X26.  Lines 127-171: a failure of the append before the store is
    opened for writing (while the existing store is read, or while the
    frames are combined) leaves the store as it is: the new batch is
    written to the side
    location [output_path + '.temp'] (another path), nothing else on disk
    changes, and the log reports the error and warns that the temporary
    dataset may need manual intervention and that the original was
    preserved.  A whole run of [main] with such a failure leaves the
    store as it was. *)
Theorem failure_before_the_write_preserves_the_store
    (f : ProduceIV.Fault) (new_data df_existing : list (CubeRow float))
    (path : string) (fs : ProduceIV.Files) :
  f <> ProduceIV.OnWrite ->
  fs path = Some df_existing ->
  let after := ProduceIV.append_to_existing_output (Some f) new_data path fs in
  let temp := (path ++ ".temp")%string in
  fst after path = Some df_existing
  /\ fst after temp = Some new_data
  /\ temp <> path
  /\ (forall p, p <> temp -> fst after p = fs p)
  /\ In (ProduceIV.ERROR, ProduceIV.Error_appending) (snd after)
  /\ In (ProduceIV.WARNING, ProduceIV.Created_temporary_manual_intervention temp) (snd after)
  /\ In (ProduceIV.WARNING, ProduceIV.Original_preserved) (snd after)
  /\ ~ In (ProduceIV.INFO, ProduceIV.Successfully_appended) (snd after)
  /\ (forall inp fs0 rows,
         fs0 ProduceIV.output_path = Some rows ->
         ProduceIV.files_after (ProduceIV.main inp (Some f) fs0) ProduceIV.output_path
         = Some rows).
Proof.
  intros Hf H after temp. unfold after, ProduceIV.append_to_existing_output.
  rewrite H. cbn [fst snd]. fold temp.
  assert (Ht : temp <> path) by apply temp_path_differs.
  assert (Hh : ProduceIV.at_handler f path fs = fs)
    by (destruct f; [reflexivity|reflexivity|congruence]).
  rewrite Hh.
  split; [rewrite to_zarr_other; [exact H|congruence]|].
  split; [apply to_zarr_same|].
  split; [exact Ht|].
  split; [intros p Hp; now apply to_zarr_other|].
  repeat split.
  - apply in_or_app. right. simpl. tauto.
  - apply in_or_app. right. simpl. tauto.
  - apply in_or_app. right. simpl. tauto.
  - intros Hin. apply in_app_or in Hin.
    destruct f; simpl in Hin; intuition discriminate.
  - intros inp fs0 rows H0. unfold ProduceIV.main.
    destruct (ProduceIV.load_and_filter_data _ _) as [|r df_rest]; [exact H0|].
    destruct (ProduceIV.candidate_batch inp (r :: df_rest)) as [agg|]; [|exact H0].
    pose proof (save_output_fault_keeps agg _ _ Hf H0) as Hk.
    destruct (ProduceIV.save_output (Some f) agg ProduceIV.output_path fs0). exact Hk.
Qed.

Lemma failure_before_the_write_preserves_the_store_witness :
  let after := ProduceIV.append_to_existing_output (Some ProduceIV.OnCombine)
                 [aaa_cube_30] ProduceIV.output_path one_store in
  let temp := (ProduceIV.output_path ++ ".temp")%string in
  fst after ProduceIV.output_path = Some [bbb_cube_30]
  /\ fst after temp = Some [aaa_cube_30]
  /\ temp <> ProduceIV.output_path
  /\ (forall p, p <> temp -> fst after p = one_store p)
  /\ In (ProduceIV.ERROR, ProduceIV.Error_appending) (snd after)
  /\ In (ProduceIV.WARNING, ProduceIV.Created_temporary_manual_intervention temp) (snd after)
  /\ In (ProduceIV.WARNING, ProduceIV.Original_preserved) (snd after)
  /\ ~ In (ProduceIV.INFO, ProduceIV.Successfully_appended) (snd after)
  /\ (forall inp fs0 rows,
         fs0 ProduceIV.output_path = Some rows ->
         ProduceIV.files_after (ProduceIV.main inp (Some ProduceIV.OnCombine) fs0)
           ProduceIV.output_path
         = Some rows).
Proof.
  apply (failure_before_the_write_preserves_the_store (f := ProduceIV.OnCombine)
           [aaa_cube_30] ProduceIV.output_path one_store (df_existing := [bbb_cube_30])).
  - discriminate.
  - vm_compute. reflexivity.
Defined.

(** Whatever the store holds, a write that raises leaves it without
    rows, while the batch goes to the side location and the log says that
    the original was preserved. *)
Lemma failed_write_empties_the_store
    (new_data df_existing : list (CubeRow float)) (path : string) (fs : ProduceIV.Files) :
  fs path = Some df_existing ->
  let after := ProduceIV.append_to_existing_output (Some ProduceIV.OnWrite)
                 new_data path fs in
  fst after path = Some []
  /\ fst after (path ++ ".temp")%string = Some new_data
  /\ In (ProduceIV.WARNING, ProduceIV.Original_preserved) (snd after).
Proof.
  intros H after. unfold after, ProduceIV.append_to_existing_output.
  rewrite H. cbn [fst snd ProduceIV.at_handler].
  split; [|split].
  - rewrite to_zarr_other; [apply to_zarr_same|].
    intros E. symmetry in E. now apply temp_path_differs in E.
  - apply to_zarr_same.
  - apply in_or_app. right. simpl. tauto.
Qed.

(** C7.  The claim fails where the write of the combined frame raises (a
    column of the combined frame that cannot be encoded, the claim's
    schema mismatch).  The store holds BBB's row and the batch is AAA's
    row: after the failed append the store has no row left, the batch is
    at [output_path + '.temp'], and the log warns that the temporary
    dataset may need manual intervention and that the original dataset
    was preserved.  A whole run of [main] on the small market ends the
    same way. *)
Theorem failed_write_loses_the_store :
  let after := ProduceIV.append_to_existing_output (Some ProduceIV.OnWrite)
                 [aaa_cube_30] ProduceIV.output_path one_store in
  let temp := (ProduceIV.output_path ++ ".temp")%string in
  one_store ProduceIV.output_path = Some [bbb_cube_30]
  /\ fst after ProduceIV.output_path = Some []
  /\ fst after temp = Some [aaa_cube_30]
  /\ In (ProduceIV.ERROR, ProduceIV.Error_appending) (snd after)
  /\ In (ProduceIV.WARNING, ProduceIV.Created_temporary_manual_intervention temp) (snd after)
  /\ In (ProduceIV.WARNING, ProduceIV.Original_preserved) (snd after)
  /\ ProduceIV.files_after
       (ProduceIV.main Scenario.inputs (Some ProduceIV.OnWrite) one_store)
       ProduceIV.output_path
     = Some [].
Proof.
  cbv zeta. split; [reflexivity|].
  destruct (failed_write_empties_the_store [aaa_cube_30] ProduceIV.output_path one_store
              (df_existing := [bbb_cube_30]) eq_refl) as (H1 & H2 & H3).
  split; [exact H1|]. split; [exact H2|].
  split; [vm_compute; tauto|]. split; [vm_compute; tauto|]. split; [exact H3|].
  vm_compute. reflexivity.
Qed.

(** * Degenerate values in the store *)

Lemma unique_keys_same {N : Type} (l : list (CubeRow N)) (a b : CubeRow N) :
  unique_keys l -> In a l -> In b l -> natural_key a = natural_key b -> a = b.
Proof.
  unfold unique_keys. induction l as [|x l IH]; cbn [map]; intros Hu Ha Hb E; [destruct Ha|].
  inversion Hu as [|? ? Hnin Hnd]; subst.
  destruct Ha as [->|Ha], Hb as [->|Hb].
  - reflexivity.
  - exfalso. apply Hnin. rewrite E. now apply in_map.
  - exfalso. apply Hnin. rewrite <- E. now apply in_map.
  - now apply IH.
Qed.

(** What an append keeps: rows of the store and rows of the batch, a row
    of the batch whose key is new, and for a key that the store holds
    only rows of the store. *)
Lemma appended_rows {N : Type} (existing agg : list (CubeRow N)) (c : CubeRow N) :
  let rows := drop_duplicates same_key (existing ++ agg) in
  (forall c', In c' rows -> In c' agg \/ In c' existing)
  /\ (unique_keys agg -> In c agg ->
      (forall e, In e existing -> natural_key e <> natural_key c) -> In c rows)
  /\ (forall e, In e existing -> natural_key e = natural_key c ->
      (exists c', In c' rows /\ natural_key c' = natural_key c)
      /\ forall c', In c' rows -> natural_key c' = natural_key c -> In c' existing).
Proof.
  intros rows. split; [|split].
  - intros c' H. apply drop_duplicates_In, in_app_or in H. tauto.
  - intros Hu Hc Hnew.
    destruct (drop_duplicates_repr same_key (existing ++ agg) c) as [H|(y & Hy & Hs)];
      [apply in_or_app; now right|exact H|].
    apply same_key_eq in Hs.
    assert (Hy' := Hy). apply drop_duplicates_In, in_app_or in Hy'.
    destruct Hy' as [Hy'|Hy'].
    + now elim (Hnew y Hy').
    + now rewrite (unique_keys_same Hu Hc Hy' Hs).
  - intros e He Ee. split.
    { destruct (drop_duplicates_repr same_key (existing ++ agg) e) as [H|(y & Hy & Hs)];
        [apply in_or_app; now left|exists e; split; assumption|].
      exists y. split; [exact Hy|]. apply same_key_eq in Hs. congruence. }
    intros c' Hc' Ec'. unfold rows, drop_duplicates in Hc'.
    rewrite drop_duplicates_from_app in Hc'. apply in_app_or in Hc'.
    destruct Hc' as [Hc'|Hc']; [now apply drop_duplicates_from_In in Hc'|].
    apply drop_duplicates_from_In in Hc'. destruct Hc' as [_ Hseen].
    assert (Hy : exists y, In y (drop_duplicates same_key existing) /\ same_key e y = true).
    { destruct (drop_duplicates_repr same_key existing e He) as [H|H]; [|exact H].
      exists e. split; [exact H|]. now apply same_key_eq. }
    destruct Hy as (y & Hy & Hs). apply same_key_eq in Hs.
    assert (Ht : existsb (same_key c')
                   (rev (drop_duplicates_from same_key [] existing) ++ []) = true).
    { apply existsb_exists. exists y. split.
      - apply in_or_app. left. apply in_rev in Hy. exact Hy.
      - apply same_key_eq. congruence. }
    congruence.
Qed.

(** C6, as amended.  A negative forward radicand gives NaN, and the melted
    frame holds only cells that are numbers, each with the value of its own
    cell: the entry is left out and nothing stands in for it.  A group
    whose market-cap sum is zero has a weighted value that is not finite
    (NaN, or an infinity), and a group all of whose market caps are missing
    has the weighted value NaN; the row of such a group is not excluded: it
    is in the candidate batch.  After a successful save every stored row
    is a row of the batch or of the store as it was.  The row of the
    group is stored, with its undefined value, when the store is created
    by the save or held no row with its key; when the store held a row
    with its key, a row with that key stays stored, the rows stored under
    that key are rows that the store held, and the row of the batch is
    dropped as a duplicate. *)
Theorem degenerate_values_are_not_defaulted :
  (forall (T1 T2 : Z) (v1 v2 : float),
      (ProduceIV.forward_radicand T1 T2 v1 v2 <? 0) = true ->
      is_nan (ProduceIV.forward_vol T1 T2 v1 v2) = true)
  /\ (forall (df : list ProduceIV.Bucketed) (m : ProduceIV.Melted),
         In m (ProduceIV.melt_all df) ->
         ProduceIV.m_value m
         = ProduceIV.cell (column_of (ProduceIV.m_type m)) df
             (ProduceIV.m_teo m, ProduceIV.m_ticker m) (ProduceIV.m_label m)
         /\ is_nan (ProduceIV.m_value m) = false)
  /\ (forall (bs bz by_style : bool) (df : list (Enriched float)) (k : ProduceIV.GroupKey),
         In k (ProduceIV.group_keys bs bz by_style df) ->
         let g := filter (ProduceIV.in_group bs bz by_style k) df in
         let c := cube_row bs bz by_style df k in
         In c (ProduceIV.agg_all df)
         /\ ((ProduceIV.sum_skipna (map (@market_cap float) g) =? 0) = true ->
             is_finite (weighted_value c) = false)
         /\ (Forall (fun r => is_nan (market_cap r) = true) g ->
             weighted_value c = nan))
  /\ (forall (bs bz by_style : bool) (daily : ProduceIV.DailyTicker)
             (style_daily : date -> string -> option Style)
             (df_melt : list ProduceIV.Melted) (k : ProduceIV.GroupKey)
             (path : string) (fs : ProduceIV.Files),
         let df := ProduceIV.enrich daily style_daily df_melt in
         In k (ProduceIV.group_keys bs bz by_style df) ->
         let c := cube_row bs bz by_style df k in
         exists rows,
           fst (ProduceIV.save_output None (ProduceIV.agg_all df) path fs) path = Some rows
           /\ (forall c', In c' rows ->
                          In c' (ProduceIV.agg_all df)
                          \/ exists existing, fs path = Some existing /\ In c' existing)
           /\ (fs path = None -> In c rows)
           /\ (forall existing,
                  fs path = Some existing ->
                  (forall e, In e existing -> natural_key e <> natural_key c) ->
                  In c rows)
           /\ (forall existing e,
                  fs path = Some existing ->
                  In e existing -> natural_key e = natural_key c ->
                  (exists c', In c' rows /\ natural_key c' = natural_key c)
                  /\ forall c', In c' rows -> natural_key c' = natural_key c ->
                                In c' existing)).
Proof.
  split; [|split; [|split]].
  - intros T1 T2 v1 v2 H. unfold ProduceIV.forward_vol.
    now apply sqrt_negative_nan.
  - apply melt_all_value.
  - intros bs bz by_style df k Hk g c.
    split; [|split].
    + apply agg_all_In. exists bs, bz, by_style. apply CubeFacts.rollup_In. eauto.
    + intros Hz. unfold c, cube_row, ProduceIV.weighted. simpl.
      now apply div_by_zero_not_finite.
    + intros Hall. unfold c, cube_row, ProduceIV.weighted. simpl.
      fold g. rewrite !sum_skipna_all_nan.
      * reflexivity.
      * apply Forall_map. exact Hall.
      * apply Forall_map. eapply Forall_impl; [|exact Hall].
        intros r Hr. unfold ProduceIV.weighted_value_num. simpl.
        now apply mul_nan_right.
  - intros bs bz by_style daily style_daily df_melt k path fs df Hk c.
    assert (Hc : In c (ProduceIV.agg_all df)).
    { apply agg_all_In. exists bs, bz, by_style. apply CubeFacts.rollup_In. eauto. }
    assert (Hu : unique_keys (ProduceIV.agg_all df))
      by apply agg_all_unique_keys, enrich_no_total.
    rewrite save_output_written. eexists. split; [reflexivity|].
    destruct (fs path) as [existing|].
    + destruct (appended_rows existing (ProduceIV.agg_all df) c) as (A1 & A2 & A3).
      split; [|split; [|split]].
      * intros c' H. destruct (A1 c' H) as [H'|H']; [now left|right; eauto].
      * discriminate.
      * intros ex E Hnew. injection E as <-. now apply A2.
      * intros ex e E He Ee. injection E as <-. now apply (A3 e).
    + split; [|split; [|split]].
      * intros c' H. now left.
      * intros _. exact Hc.
      * discriminate.
      * discriminate.
Qed.

Lemma degenerate_values_are_not_defaulted_witness :
  is_nan (ProduceIV.forward_vol 30 60 0.30 0.10) = true
  /\ In (cube_row true true true Scenario.enriched bbb_group)
        (ProduceIV.agg_all Scenario.enriched)
  /\ weighted_value (cube_row true true true Scenario.enriched bbb_group) = nan
  /\ (exists rows,
         fst (ProduceIV.save_output None (ProduceIV.agg_all Scenario.enriched)
                ProduceIV.output_path Scenario.no_files) ProduceIV.output_path
         = Some rows
         /\ In (cube_row true true true Scenario.enriched bbb_group) rows)
  /\ (exists rows,
         fst (ProduceIV.save_output None (ProduceIV.agg_all Scenario.enriched)
                ProduceIV.output_path store_with_bbb_value) ProduceIV.output_path
         = Some rows
         /\ (exists c', In c' rows
                        /\ natural_key c'
                           = natural_key (cube_row true true true Scenario.enriched bbb_group))
         /\ forall c', In c' rows ->
                       natural_key c'
                       = natural_key (cube_row true true true Scenario.enriched bbb_group) ->
                       In c' [bbb_cube_30_revised]).
Proof.
  unfold Scenario.enriched.
  assert (Hk : In bbb_group
                 (ProduceIV.group_keys true true true
                    (ProduceIV.enrich Scenario.daily Scenario.style_daily
                       (ProduceIV.melt_all (ProduceIV.closest_per_bucket Scenario.frame)))))
    by (vm_compute; repeat (first [left; reflexivity|right])).
  destruct degenerate_values_are_not_defaulted as (D1 & _ & D3 & D4).
  split; [apply D1; vm_compute; reflexivity|].
  destruct (D3 true true true _ bbb_group Hk) as (H1 & _ & H3).
  split; [exact H1|].
  split; [apply H3; vm_compute; repeat constructor|].
  split.
  - destruct (D4 true true true Scenario.daily Scenario.style_daily
                (ProduceIV.melt_all (ProduceIV.closest_per_bucket Scenario.frame))
                bbb_group ProduceIV.output_path Scenario.no_files Hk)
      as (rows & E & _ & Hnew & _).
    exists rows. split; [exact E|]. apply Hnew. reflexivity.
  - destruct (D4 true true true Scenario.daily Scenario.style_daily
                (ProduceIV.melt_all (ProduceIV.closest_per_bucket Scenario.frame))
                bbb_group ProduceIV.output_path store_with_bbb_value Hk)
      as (rows & E & _ & _ & _ & Hheld).
    exists rows. split; [exact E|].
    apply (Hheld [bbb_cube_30_revised] bbb_cube_30_revised);
      [reflexivity|left; reflexivity|vm_compute; reflexivity].
Defined.

(** C6 as stated fails: BBB has no market cap, so the denominator of its
    group is absent; the group's row is nevertheless in the store that the
    run persists, with the weighted value NaN.  The same happens to a group
    whose market caps are all zero. *)
Lemma undefined_weighted_value_is_persisted :
  (exists rows,
      ProduceIV.files_after (ProduceIV.main Scenario.inputs None Scenario.no_files)
        ProduceIV.output_path = Some rows
      /\ In bbb_cube_30 rows)
  /\ ProduceIV.total_all
       [mkEnriched 1%Z "DDD" "Energy" "Small Cap" (Some "Value") (Direct 30) VolType 0.20 0]
     = [mkCube 1%Z "Total" "Total" "Total" (Direct 30) VolType nan].
Proof.
  split; [|vm_compute; reflexivity].
  eexists. split; [vm_compute; reflexivity|].
  apply (nth_error_In _ 1). vm_compute. reflexivity.
Qed.

(** On a store that already holds 0.5 under BBB's key, the run keeps the
    0.5: the undefined value of the batch is dropped with its row. *)
Example a_stored_value_outlives_an_undefined_one :
  exists rows,
    fst (ProduceIV.save_output None (ProduceIV.agg_all Scenario.enriched)
           ProduceIV.output_path store_with_bbb_value) ProduceIV.output_path
    = Some rows
    /\ In bbb_cube_30_revised rows /\ ~ In bbb_cube_30 rows.
Proof.
  eexists. split; [vm_compute; reflexivity|]. split; [left; reflexivity|].
  intros H.
  match type of H with
  | In _ ?rows =>
      assert (X : existsb (fun c => same_key c bbb_cube_30 && is_nan (weighted_value c)) rows
                  = true)
        by (apply existsb_exists; exists bbb_cube_30; split; [exact H|vm_compute; reflexivity])
  end.
  vm_compute in X. discriminate X.
Qed.

(** * Merging snapshot batches into the surface store *)

Unset Implicit Arguments.

Module MergeFacts.
Import ZipsToZarr.

Lemma get_new_zip_files_all (existing : list date) (b : list ZipFile) :
  (forall z d, In z b -> file_date z = Some d -> ~ In d existing) ->
  get_new_zip_files existing b = filter has_date b.
Proof.
  intros H. unfold get_new_zip_files. apply filter_ext_in. intros z Hz.
  unfold is_new, has_date. destruct (file_date z) as [d|] eqn:E; [|reflexivity].
  apply negb_true_iff. destruct (existsb (Z.eqb d) existing) eqn:Ex; [|reflexivity].
  apply existsb_exists in Ex. destruct Ex as (d' & Hd' & Heq).
  apply Z.eqb_eq in Heq. subst d'. now elim (H z d Hz E).
Qed.

End MergeFacts.

Lemma too_long_or_illiquid_never_aggregated_witness :
  (forall r, In r (ProduceIV.load_and_filter_data
                     (ProduceIV.surface_store with_bad_quotes) None) ->
             too_long_or_illiquid r = false)
  /\ ProduceIV.main
       (ProduceIV.mkInputs
          (without_too_long_or_illiquid (ProduceIV.surface_store with_bad_quotes))
          None Scenario.daily Scenario.style_daily)
       None Scenario.no_files
     = ProduceIV.main with_bad_quotes None Scenario.no_files.
Proof.
  exact (too_long_or_illiquid_never_aggregated with_bad_quotes None Scenario.no_files).
Defined.

Example bad_quotes_are_taken_out :
  without_too_long_or_illiquid (ProduceIV.surface_store with_bad_quotes) = Scenario.store.
Proof. vm_compute. reflexivity. Qed.

(** * The rest of the pipeline: facts *)

(** * The closest expiry of every bucket *)

Lemma insert_by_diff_In (x y : ProduceIV.Bucketed) (l : list ProduceIV.Bucketed) :
  In y (ProduceIV.insert_by_diff x l) <-> y = x \/ In y l.
Proof.
  induction l as [|z l IH]; cbn [ProduceIV.insert_by_diff].
  - cbn [In]. intuition auto.
  - destruct (ProduceIV.days_diff x <=? ProduceIV.days_diff z); cbn [In].
    + intuition auto.
    + rewrite IH. intuition auto.
Qed.

Lemma sort_values_days_diff_In (df : list ProduceIV.Bucketed) (y : ProduceIV.Bucketed) :
  In y (ProduceIV.sort_values_days_diff df) <-> In y df.
Proof.
  unfold ProduceIV.sort_values_days_diff.
  induction df as [|x df IH]; cbn [fold_right In]; [tauto|].
  rewrite insert_by_diff_In, IH. intuition auto.
Qed.


Lemma insert_by_diff_sorted (x : ProduceIV.Bucketed) (l : list ProduceIV.Bucketed) :
  is_nan (ProduceIV.days_diff x) = false ->
  Forall (fun y => is_nan (ProduceIV.days_diff y) = false) l ->
  StronglySorted by_days_diff l ->
  StronglySorted by_days_diff (ProduceIV.insert_by_diff x l).
Proof.
  intros Hx Hl Hs. induction Hs as [|z l Hs IH Hz]; cbn [ProduceIV.insert_by_diff].
  - constructor; [constructor|constructor].
  - inversion Hl as [|? ? Hzn Hl']; subst.
    destruct (ProduceIV.days_diff x <=? ProduceIV.days_diff z) eqn:E.
    + constructor; [constructor; assumption|].
      constructor; [exact E|].
      rewrite Forall_forall in Hz |- *. intros y Hy.
      unfold by_days_diff in *. eapply leb_trans; [exact E|]. apply Hz, Hy.
    + constructor; [apply IH, Hl'|].
      rewrite Forall_forall in Hz |- *. intros y Hy.
      apply insert_by_diff_In in Hy. destruct Hy as [->|Hy]; [|apply Hz, Hy].
      unfold by_days_diff. apply ltb_leb. apply leb_false_ltb; assumption.
Qed.

Lemma sort_values_days_diff_sorted (df : list ProduceIV.Bucketed) :
  Forall (fun y => is_nan (ProduceIV.days_diff y) = false) df ->
  StronglySorted by_days_diff (ProduceIV.sort_values_days_diff df).
Proof.
  unfold ProduceIV.sort_values_days_diff.
  induction 1 as [|x df Hx Hdf IH]; cbn [fold_right]; [constructor|].
  apply insert_by_diff_sorted; [exact Hx| |exact IH].
  rewrite Forall_forall in Hdf |- *. intros y Hy.
  apply Hdf. apply (sort_values_days_diff_In df y). exact Hy.
Qed.

(** [drop_duplicates] keeps, for every row, a row that is the same and
    that comes no later in the frame. *)
Lemma drop_duplicates_from_first {A : Type} (same : A -> A -> bool)
    (seen l : list A) (x : A) :
  (forall a, same a a = true) ->
  In x l ->
  (exists y, In y seen /\ same x y = true)
  \/ exists l1 y l2, l = l1 ++ y :: l2 /\ same x y = true
                     /\ In y (drop_duplicates_from same seen l)
                     /\ (x = y \/ In x l2).
Proof.
  intros Hrefl. revert seen. induction l as [|a l IH]; intros seen Hin; [destruct Hin|].
  cbn [drop_duplicates_from].
  destruct (existsb (same a) seen) eqn:E.
  - destruct Hin as [->|Hin].
    + left. apply existsb_exists in E. exact E.
    + destruct (IH seen Hin) as [H|(l1 & y & l2 & -> & Hs & Hy & Hx)]; [left; exact H|].
      right. exists (a :: l1), y, l2. repeat split; auto.
  - destruct Hin as [->|Hin].
    + right. exists [], x, l. repeat split; auto. left. reflexivity.
    + destruct (IH (a :: seen) Hin) as [(y & [<-|Hy] & Hs)|(l1 & y & l2 & -> & Hs & Hy & Hx)].
      * right. exists [], a, l. repeat split; auto. left. reflexivity.
      * left. exists y. auto.
      * right. exists (a :: l1), y, l2. repeat split; auto. right. exact Hy.
Qed.

Lemma assign_closest_bucket_in_range (years : float) :
  is_nan years = false ->
  In (fst (ProduceIV.assign_closest_bucket years)) ProduceIV.TARGET_DAYS
  /\ snd (ProduceIV.assign_closest_bucket years)
     = ProduceIV.distance years (fst (ProduceIV.assign_closest_bucket years))
  /\ is_nan (snd (ProduceIV.assign_closest_bucket years)) = false.
Proof.
  intros Hy.
  assert (Hd : Forall (fun y => is_nan y = false) (ProduceIV.diffs_of years)).
  { unfold ProduceIV.diffs_of. rewrite Forall_map, Forall_forall. intros t Ht.
    apply BucketFacts.distance_not_nan; assumption. }
  assert (Hne : ProduceIV.diffs_of years <> []) by discriminate.
  destruct (BucketFacts.argmin_first_minimum Hne Hd)
    as (before & m & after & (Hl & _ & _) & Hlen).
  assert (Hlt : (ProduceIV.argmin (ProduceIV.diffs_of years) < 9)%nat).
  { rewrite <- Hlen.
    assert (H9 : List.length (ProduceIV.diffs_of years) = 9%nat) by reflexivity.
    rewrite Hl, length_app in H9. cbn [List.length] in H9. lia. }
  unfold ProduceIV.assign_closest_bucket. cbn [fst snd].
  set (idx := ProduceIV.argmin (ProduceIV.diffs_of years)) in *.
  assert (Hnth : nth idx (ProduceIV.diffs_of years) nan
                 = ProduceIV.distance years (nth idx ProduceIV.TARGET_DAYS 0%Z)).
  { unfold ProduceIV.diffs_of.
    rewrite (nth_indep _ nan (ProduceIV.distance years 0%Z)).
    - apply map_nth.
    - rewrite length_map. exact Hlt. }
  split; [apply nth_In; exact Hlt|]. split; [exact Hnth|].
  rewrite Hnth. apply BucketFacts.distance_not_nan; [exact Hy|]. apply nth_In. exact Hlt.
Qed.

Lemma load_and_filter_data_In (store : list StoreRow) (start : option date) (r : SurfaceRecord) :
  In r (ProduceIV.load_and_filter_data store start)
  <-> (exists row, In row store /\ data row = r)
      /\ ProduceIV.has_na r = false
      /\ ProduceIV.on_or_after start r = true
      /\ ProduceIV.liquid r = true.
Proof.
  unfold ProduceIV.load_and_filter_data.
  rewrite !filter_In, in_map_iff, negb_true_iff.
  split.
  - intros (((( row & E & Hin) & Hna) & Hs) & Hl). repeat split; auto. exists row. auto.
  - intros ((row & Hin & E) & Hna & Hs & Hl). repeat split; auto. exists row. auto.
Qed.

Lemma has_na_years (r : SurfaceRecord) :
  ProduceIV.has_na r = false -> is_nan (years r) = false.
Proof.
  unfold ProduceIV.has_na. intros H.
  repeat (apply orb_false_iff in H; destruct H as [H ?]). assumption.
Qed.

Lemma assign_buckets_In (df_all : list SurfaceRecord) (b : ProduceIV.Bucketed) :
  In b (ProduceIV.assign_buckets df_all)
  <-> exists r, In r df_all
                /\ b = ProduceIV.mkBucketed r
                         (fst (ProduceIV.assign_closest_bucket (years r)))
                         (snd (ProduceIV.assign_closest_bucket (years r))).
Proof.
  unfold ProduceIV.assign_buckets. rewrite in_map_iff.
  split; intros (r & H1 & H2); exists r.
  - destruct (ProduceIV.assign_closest_bucket (years r)) as [t d]. cbn [fst snd]. auto.
  - destruct (ProduceIV.assign_closest_bucket (years r)) as [t d]. cbn [fst snd] in H2. auto.
Qed.

(** X1.  Lines 245-250, [sort_values('days_diff').groupby([...]).first()]: of
    the filtered records of a (date, ticker) that were assigned to a
    bucket, exactly one is kept, and none of the others is closer to the
    target. *)
Theorem closest_per_bucket_keeps_the_closest
    (store : list StoreRow) (start : option date) (r : SurfaceRecord) :
  let df_all := ProduceIV.load_and_filter_data store start in
  In r df_all ->
  exists b,
    In b (ProduceIV.closest_per_bucket df_all)
    /\ In (ProduceIV.rec b) df_all
    /\ teo (ProduceIV.rec b) = teo r
    /\ ticker (ProduceIV.rec b) = ticker r
    /\ (ProduceIV.target_days b, ProduceIV.days_diff b)
       = ProduceIV.assign_closest_bucket (years (ProduceIV.rec b))
    /\ ProduceIV.target_days b = fst (ProduceIV.assign_closest_bucket (years r))
    /\ (ProduceIV.days_diff b <=? snd (ProduceIV.assign_closest_bucket (years r))) = true
    /\ (forall b', In b' (ProduceIV.closest_per_bucket df_all) ->
                   ProduceIV.same_bucket b' b = true -> b' = b).
Proof.
  intros df_all Hr.
  assert (Hnan : Forall (fun y => is_nan (ProduceIV.days_diff y) = false)
                        (ProduceIV.assign_buckets df_all)).
  { rewrite Forall_forall. intros y Hy. apply assign_buckets_In in Hy.
    destruct Hy as (r' & Hr' & ->). cbn [ProduceIV.days_diff].
    apply assign_closest_bucket_in_range. apply has_na_years.
    apply load_and_filter_data_In in Hr'. tauto. }
  pose (b0 := ProduceIV.mkBucketed r
                (fst (ProduceIV.assign_closest_bucket (years r)))
                (snd (ProduceIV.assign_closest_bucket (years r)))).
  assert (Hb0 : In b0 (ProduceIV.sort_values_days_diff (ProduceIV.assign_buckets df_all))).
  { apply sort_values_days_diff_In, assign_buckets_In. exists r. auto. }
  assert (Hrefl : forall a, ProduceIV.same_bucket a a = true).
  { intros a. apply same_bucket_eq. auto. }
  destruct (drop_duplicates_from_first ProduceIV.same_bucket [] _ b0 Hrefl Hb0)
    as [(y & [] & _)|(l1 & y & l2 & Hl & Hs & Hy & Hx)].
  fold (drop_duplicates ProduceIV.same_bucket
          (ProduceIV.sort_values_days_diff (ProduceIV.assign_buckets df_all))) in Hy.
  fold (ProduceIV.closest_per_bucket df_all) in Hy.
  assert (Hy' : In y (ProduceIV.assign_buckets df_all)).
  { apply sort_values_days_diff_In. rewrite Hl. apply in_or_app. right. left. reflexivity. }
  pose proof Hy' as Hy''. apply assign_buckets_In in Hy''. destruct Hy'' as (r' & Hr' & Ey).
  apply same_bucket_eq in Hs. destruct Hs as (H1 & H2 & H3). cbn [b0 ProduceIV.rec ProduceIV.target_days] in H1, H2, H3.
  exists y. split; [exact Hy|].
  split; [rewrite Ey; exact Hr'|].
  split; [symmetry; exact H1|].
  split; [symmetry; exact H2|].
  split; [rewrite Ey; cbn [ProduceIV.rec ProduceIV.target_days ProduceIV.days_diff];
          symmetry; apply surjective_pairing|].
  split; [symmetry; exact H3|].
  split.
  - destruct Hx as [<-|Hx].
    + cbn [b0 ProduceIV.days_diff]. apply leb_refl.
      rewrite Forall_forall in Hnan. apply (Hnan b0).
      apply assign_buckets_In. exists r. auto.
    + pose proof (sort_values_days_diff_sorted _ Hnan) as Hsorted.
      rewrite Hl in Hsorted. apply BucketFacts.strongly_sorted_middle in Hsorted.
      rewrite Forall_forall in Hsorted. apply (Hsorted b0 Hx).
  - intros b' Hb' Hsame. apply (closest_per_bucket_unique df_all); assumption.
Qed.

Lemma closest_per_bucket_keeps_the_closest_witness :
  exists b,
    In b (ProduceIV.closest_per_bucket (ProduceIV.load_and_filter_data two_expiries None))
    /\ In (ProduceIV.rec b) (ProduceIV.load_and_filter_data two_expiries None)
    /\ teo (ProduceIV.rec b) = Some 1%Z
    /\ ticker (ProduceIV.rec b) = "AAA"
    /\ (ProduceIV.target_days b, ProduceIV.days_diff b)
       = ProduceIV.assign_closest_bucket (years (ProduceIV.rec b))
    /\ ProduceIV.target_days b
       = fst (ProduceIV.assign_closest_bucket (float_of_int 26 / 365.0))
    /\ (ProduceIV.days_diff b
        <=? snd (ProduceIV.assign_closest_bucket (float_of_int 26 / 365.0))) = true
    /\ (forall b',
           In b' (ProduceIV.closest_per_bucket
                    (ProduceIV.load_and_filter_data two_expiries None)) ->
           ProduceIV.same_bucket b' b = true -> b' = b).
Proof.
  apply (closest_per_bucket_keeps_the_closest two_expiries None
           (data (Scenario.quote "AAA" 1%Z 0.30 0.31 26))).
  vm_compute. left. reflexivity.
Defined.

Example the_closer_expiry_is_kept :
  map (fun b => (ProduceIV.target_days b, atmVol (ProduceIV.rec b)))
      (ProduceIV.closest_per_bucket (ProduceIV.load_and_filter_data two_expiries None))
  = [(30%Z, 0.20)].
Proof. vm_compute. reflexivity. Qed.

(** * A forward value needs both of its buckets *)

Lemma nan_mul_l (x y : float) : is_nan x = true -> is_nan (x * y) = true.
Proof. intros H. rewrite mul_comm. apply mul_nan_right. exact H. Qed.

Lemma nan_sub (x y : float) :
  is_nan x = true \/ is_nan y = true -> is_nan (x - y) = true.
Proof.
  rewrite !is_nan_spec, sub_spec. intros [H|H]; rewrite H.
  - reflexivity.
  - destruct (Prim2SF x); reflexivity.
Qed.

Lemma nan_div_l (x y : float) : is_nan x = true -> is_nan (x / y) = true.
Proof. rewrite !is_nan_spec, div_spec. intros H. rewrite H. reflexivity. Qed.

Lemma nan_sqrt (x : float) : is_nan x = true -> is_nan (sqrt x) = true.
Proof. rewrite !is_nan_spec, sqrt_spec. intros H. rewrite H. reflexivity. Qed.

Lemma forward_vol_not_nan (T1d T2d : Z) (v1 v2 : float) :
  is_nan (ProduceIV.forward_vol T1d T2d v1 v2) = false ->
  is_nan v1 = false /\ is_nan v2 = false.
Proof.
  unfold ProduceIV.forward_vol. intros H.
  destruct (is_nan v1) eqn:E1.
  - rewrite nan_sqrt in H; [discriminate|].
    apply nan_div_l, nan_sub. right. apply nan_mul_l, nan_mul_l, E1.
  - destruct (is_nan v2) eqn:E2; [|auto].
    rewrite nan_sqrt in H; [discriminate|].
    apply nan_div_l, nan_sub. left. apply nan_mul_l, nan_mul_l, E2.
Qed.

Lemma pivot_value_not_nan (col : SurfaceRecord -> float) (df : list ProduceIV.Bucketed)
    (k : ProduceIV.PivotKey) (tgt : Z) :
  is_nan (ProduceIV.pivot_value col df k tgt) = false ->
  exists b, In b df /\ ProduceIV.pivot_key b = k /\ ProduceIV.target_days b = tgt
            /\ ProduceIV.pivot_value col df k tgt = col (ProduceIV.rec b).
Proof.
  unfold ProduceIV.pivot_value.
  destruct (find _ df) as [b|] eqn:E; [|discriminate].
  intros _. apply find_some in E. destruct E as (Hin & Hp).
  apply andb_true_iff in Hp. destruct Hp as (Hk & Ht).
  apply same_pivot_key_eq in Hk. apply Z.eqb_eq in Ht.
  exists b. auto.
Qed.

Lemma melt_all_label (df : list ProduceIV.Bucketed) (m : ProduceIV.Melted) :
  In m (ProduceIV.melt_all df) ->
  In (ProduceIV.m_label m) (ProduceIV.vol_cols ++ ProduceIV.fwd_cols).
Proof.
  unfold ProduceIV.melt_all, ProduceIV.melt. rewrite filter_In, in_app_iff, !in_flat_map.
  intros ([(l & Hl & Hm)|(l & Hl & Hm)] & _);
    apply in_map_iff in Hm; destruct Hm as (k & <- & _); exact Hl.
Qed.

(** X2.  Lines 260-279 and 304: a forward value between two targets is
    produced for a (date, ticker) only from the values the ticker has in
    both buckets on that date; a missing leg gives NaN, which [dropna]
    removes. *)
Theorem forward_needs_both_buckets
    (df : list ProduceIV.Bucketed) (m : ProduceIV.Melted) (T1d T2d : Z) :
  In m (ProduceIV.melt_all df) ->
  ProduceIV.m_label m = Forward T1d T2d ->
  In (T1d, T2d) ProduceIV.TARGET_PAIRS
  /\ exists b1 b2,
      In b1 df /\ In b2 df
      /\ ProduceIV.pivot_key b1 = (ProduceIV.m_teo m, ProduceIV.m_ticker m)
      /\ ProduceIV.pivot_key b2 = (ProduceIV.m_teo m, ProduceIV.m_ticker m)
      /\ ProduceIV.target_days b1 = T1d
      /\ ProduceIV.target_days b2 = T2d
      /\ is_nan (column_of (ProduceIV.m_type m) (ProduceIV.rec b1)) = false
      /\ is_nan (column_of (ProduceIV.m_type m) (ProduceIV.rec b2)) = false
      /\ ProduceIV.m_value m
         = ProduceIV.forward_vol T1d T2d
             (column_of (ProduceIV.m_type m) (ProduceIV.rec b1))
             (column_of (ProduceIV.m_type m) (ProduceIV.rec b2)).
Proof.
  intros Hm Hl.
  pose proof (melt_all_label df m Hm) as Hlab.
  destruct (melt_all_value df m Hm) as (Hv & Hn).
  rewrite Hl in Hlab, Hv. cbn [ProduceIV.cell] in Hv.
  split.
  - apply in_app_iff in Hlab. destruct Hlab as [H|H].
    + unfold ProduceIV.vol_cols in H. apply in_map_iff in H.
      destruct H as (t & Ht & _). discriminate.
    + unfold ProduceIV.fwd_cols in H. apply in_map_iff in H.
      destruct H as ([a b] & Hp & Hin). cbn [fst snd] in Hp.
      injection Hp as -> ->. exact Hin.
  - rewrite Hv in Hn. apply forward_vol_not_nan in Hn. destruct Hn as (H1 & H2).
    apply pivot_value_not_nan in H1. destruct H1 as (b1 & Hb1 & Hk1 & Ht1 & E1).
    apply pivot_value_not_nan in H2. destruct H2 as (b2 & Hb2 & Hk2 & Ht2 & E2).
    pose proof (melt_all_value df m Hm) as (_ & Hn).
    rewrite Hv, E1, E2 in Hn. apply forward_vol_not_nan in Hn.
    exists b1, b2. rewrite Hv, E1, E2. tauto.
Qed.

(** * A bucket without any record *)

Lemma closest_per_bucket_In (df_all : list SurfaceRecord) (b : ProduceIV.Bucketed) :
  In b (ProduceIV.closest_per_bucket df_all) -> In b (ProduceIV.assign_buckets df_all).
Proof.
  unfold ProduceIV.closest_per_bucket. intros H.
  apply drop_duplicates_In in H. apply (proj1 (sort_values_days_diff_In _ _)) in H. exact H.
Qed.

(** X3.  Lines 253-279: the pivot has a column only for a bucket that some
    filtered record was assigned to, and the forward loops index every
    target column; when a target has no record, the run stops with a
    KeyError after the 'Processing N records' message and writes
    nothing. *)
Theorem missing_bucket_raises_KeyError
    (inp : ProduceIV.Inputs) (fault : option ProduceIV.Fault)
    (fs : @ProduceIV.Files float) (tgt : Z) :
  let df_all := ProduceIV.load_and_filter_data
                  (ProduceIV.surface_store inp) (ProduceIV.start_date inp) in
  In tgt ProduceIV.TARGET_DAYS ->
  df_all <> [] ->
  (forall r, In r df_all -> fst (ProduceIV.assign_closest_bucket (years r)) <> tgt) ->
  exists log,
    ProduceIV.main inp fault fs = ProduceIV.Raised_KeyError fs log
    /\ In (ProduceIV.INFO, ProduceIV.Processing_records (List.length df_all)) log.
Proof.
  intros df_all Htgt Hne Hnone.
  assert (Hcols : ProduceIV.all_columns_present (ProduceIV.closest_per_bucket df_all) = false).
  { unfold ProduceIV.all_columns_present.
    apply not_true_is_false. intros H. rewrite forallb_forall in H.
    specialize (H tgt Htgt). apply existsb_exists in H. destruct H as (b & Hb & Ht).
    apply Z.eqb_eq in Ht. apply closest_per_bucket_In, assign_buckets_In in Hb.
    destruct Hb as (r & Hr & ->). cbn [ProduceIV.target_days] in Ht.
    exact (Hnone r Hr Ht). }
  unfold ProduceIV.main. fold df_all.
  destruct df_all as [|r0 rest] eqn:E; [congruence|].
  unfold ProduceIV.candidate_batch. rewrite Hcols.
  eexists. split; [reflexivity|].
  apply in_or_app. right. left. reflexivity.
Qed.

(** * Rows without a style *)

Section StyleFacts.
Context {N : Type} {arith : Arith N}.

Lemma in_group_has_style (bs bz : bool) (k : ProduceIV.GroupKey) (r : Enriched N) :
  ProduceIV.in_group bs bz true k r = true -> has_style r = true.
Proof.
  unfold ProduceIV.in_group, ProduceIV.group_key, has_style.
  destruct (style r); [reflexivity|discriminate].
Qed.

Lemma group_key_style_none (bs bz : bool) (r : Enriched N) :
  style r = None -> ProduceIV.group_key bs bz true r = None.
Proof. unfold ProduceIV.group_key. intros ->. reflexivity. Qed.

Lemma filter_filter_implied {A : Type} (p q : A -> bool) (l : list A) :
  (forall x, p x = true -> q x = true) ->
  filter p (filter q l) = filter p l.
Proof.
  intros H. induction l as [|x l IH]; [reflexivity|]. cbn [filter].
  destruct (q x) eqn:Eq; cbn [filter].
  - rewrite IH. reflexivity.
  - destruct (p x) eqn:Ep; [|exact IH]. rewrite (H x Ep) in Eq. discriminate.
Qed.

Lemma group_keys_has_style (bs bz : bool) (df : list (Enriched N)) :
  ProduceIV.group_keys bs bz true (filter has_style df)
  = ProduceIV.group_keys bs bz true df.
Proof.
  unfold ProduceIV.group_keys. f_equal.
  induction df as [|r df IH]; [reflexivity|]. cbn [filter flat_map].
  unfold has_style. destruct (style r) eqn:E.
  - rewrite <- IH. reflexivity.
  - rewrite (group_key_style_none bs bz r E). exact IH.
Qed.

End StyleFacts.

(** X4.  Lines 435-538: [groupby] leaves out a row whose key has a missing
    value, and only [style] can be missing.  So a row without a style
    takes no part in any of the four groupings by style, which are what
    they would be without such rows, and it is counted in each of the
    four groupings that roll style up into 'Total'. *)
Theorem rows_without_style_count_only_in_style_totals
    {N : Type} {arith : Arith N} (bs bz : bool) (df : list (Enriched N)) :
  ProduceIV.rollup bs bz true df = ProduceIV.rollup bs bz true (filter has_style df)
  /\ Forall (fun r =>
               exists k, ProduceIV.group_key bs bz false r = Some k
                         /\ In k (ProduceIV.group_keys bs bz false df)
                         /\ In r (filter (ProduceIV.in_group bs bz false k) df)
                         /\ (style r = None ->
                             forall k', ProduceIV.in_group bs bz true k' r = false))
            df.
Proof.
  split.
  - unfold ProduceIV.rollup, ProduceIV.grouped_sums.
    rewrite group_keys_has_style. f_equal. apply map_ext. intros k.
    rewrite (filter_filter_implied _ has_style df (in_group_has_style bs bz k)).
    reflexivity.
  - rewrite Forall_forall. intros r Hr.
    destruct (ProduceIV.group_key bs bz false r) as [k|] eqn:E;
      [|unfold ProduceIV.group_key in E; discriminate].
    exists k. split; [reflexivity|]. split; [|split].
    + apply CubeFacts.group_keys_In. exists r. auto.
    + apply filter_In. split; [exact Hr|].
      unfold ProduceIV.in_group. rewrite E. apply CubeFacts.same_group_refl.
    + intros Hs k'. unfold ProduceIV.in_group, ProduceIV.group_key. rewrite Hs. reflexivity.
Qed.

(** * Stored cube rows are never revised *)

Lemma drop_duplicates_from_id {A : Type} (same : A -> A -> bool) (seen l : list A) :
  (forall x, In x l -> existsb (same x) seen = false) ->
  ForallOrdPairs (fun a b => same b a = false) l ->
  drop_duplicates_from same seen l = l.
Proof.
  intros Hseen Hl. revert seen Hseen.
  induction Hl as [|a l Ha Hl IH]; intros seen Hseen; [reflexivity|].
  cbn [drop_duplicates_from]. rewrite (Hseen a (or_introl eq_refl)). f_equal.
  apply IH. intros x Hx. cbn [existsb].
  rewrite (Hseen x (or_intror Hx)). rewrite Forall_forall in Ha. rewrite (Ha x Hx).
  reflexivity.
Qed.

Lemma unique_keys_pairs {N : Type} (l : list (CubeRow N)) :
  unique_keys l -> ForallOrdPairs (fun a b => same_key b a = false) l.
Proof.
  unfold unique_keys. induction l as [|a l IH]; cbn [map]; intros H; [constructor|].
  inversion H as [|? ? Hnin Hnd]; subst. constructor; [|apply IH, Hnd].
  rewrite Forall_forall. intros b Hb. apply not_true_is_false. intros Hs.
  apply same_key_eq in Hs. apply Hnin. rewrite <- Hs. apply in_map. exact Hb.
Qed.

Lemma drop_duplicates_unique {N : Type} (l : list (CubeRow N)) :
  unique_keys l -> drop_duplicates same_key l = l.
Proof.
  intros H. apply drop_duplicates_from_id; [reflexivity|apply unique_keys_pairs, H].
Qed.

Lemma same_key_refl {N : Type} (c : CubeRow N) : same_key c c = true.
Proof. apply same_key_eq. reflexivity. Qed.

(** X5.  Lines 141-156: [drop_duplicates] keeps the first row of every key and
    the stored rows come first, so an append leaves every stored row as
    it is, in place, and adds behind them the first new row of every key
    that the store did not have.  A recomputed value for a stored key is
    discarded. *)
Theorem stored_rows_are_never_revised
    {N : Type} (new_data existing : list (CubeRow N)) (path : string)
    (fs : ProduceIV.Files) :
  fs path = Some existing ->
  unique_keys existing ->
  exists added,
    fst (ProduceIV.append_to_existing_output None new_data path fs) path
    = Some (existing ++ added)
    /\ (forall c, In c added ->
                  In c new_data
                  /\ forall e, In e existing -> same_key c e = false)
    /\ (forall c, In c new_data ->
                  exists c', In c' (existing ++ added) /\ natural_key c' = natural_key c)
    /\ unique_keys (existing ++ added).
Proof.
  intros Hfs Hu.
  exists (drop_duplicates_from same_key (rev existing) new_data).
  assert (E : drop_duplicates same_key (existing ++ new_data)
              = existing ++ drop_duplicates_from same_key (rev existing) new_data).
  { unfold drop_duplicates. rewrite drop_duplicates_from_app.
    fold (drop_duplicates same_key existing). rewrite (drop_duplicates_unique existing Hu).
    rewrite app_nil_r. reflexivity. }
  split; [|split; [|split]].
  - unfold ProduceIV.append_to_existing_output. rewrite Hfs. cbn [fst].
    rewrite to_zarr_same, E. reflexivity.
  - intros c Hc. apply drop_duplicates_from_In in Hc. destruct Hc as (Hin & Hex).
    split; [exact Hin|]. intros e He.
    apply not_true_is_false. intros Hs.
    assert (Ht : existsb (same_key c) (rev existing) = true).
    { apply existsb_exists. exists e. split; [apply in_rev in He; exact He|exact Hs]. }
    congruence.
  - intros c Hc. rewrite <- E.
    destruct (drop_duplicates_repr same_key (existing ++ new_data) c) as [H|(y & Hy & Hs)].
    + apply in_or_app. right. exact Hc.
    + exists c. auto.
    + exists y. split; [exact Hy|]. apply same_key_eq in Hs. symmetry. exact Hs.
  - rewrite <- E. apply drop_duplicates_unique_keys.
Qed.

Lemma lookup_not_In {V : Type} (table : list (Z * V)) (k : Z) :
  lookup table k = None <-> ~ In k (map fst table).
Proof.
  induction table as [|[k' v] t IH]; cbn [lookup map In fst].
  - tauto.
  - destruct (Z.eqb_spec k k') as [->|Hne].
    + split; [discriminate|]. intros H. exfalso. apply H. left. reflexivity.
    + rewrite IH. split; intros H; [intros [E|E]; [congruence|tauto]|tauto].
Qed.

Lemma lookup_flat_map {V W : Type} (g : Z -> V -> option W) (table : list (Z * V)) (k : Z) :
  NoDup (map fst table) ->
  lookup (flat_map (fun item => match g (fst item) (snd item) with
                                | Some w => [(fst item, w)]
                                | None => []
                                end) table) k
  = match lookup table k with
    | Some v => g k v
    | None => None
    end.
Proof.
  induction table as [|[k' v] t IH]; cbn [map fst snd flat_map lookup]; intros Hnd;
    [reflexivity|].
  inversion Hnd as [|? ? Hnin Hnd']; subst.
  destruct (Z.eqb_spec k k') as [->|Hne].
  - destruct (g k' v) as [w|] eqn:E; cbn [app lookup].
    + rewrite Z.eqb_refl. reflexivity.
    + rewrite (IH Hnd'). apply lookup_not_In in Hnin. rewrite Hnin. reflexivity.
  - destruct (g k' v) as [w|] eqn:E; cbn [app lookup].
    + destruct (Z.eqb_spec k k'); [contradiction|]. apply IH, Hnd'.
    + apply IH, Hnd'.
Qed.

Lemma NoDup_Z_check (l : list Z) :
  (fix check (l : list Z) : bool :=
     match l with
     | [] => true
     | x :: t => negb (existsb (Z.eqb x) t) && check t
     end) l = true -> NoDup l.
Proof.
  induction l as [|x t IH]; intros H; [constructor|].
  apply andb_true_iff in H. destruct H as (Hx & Ht).
  constructor; [|apply IH, Ht].
  intros Hin. apply negb_true_iff in Hx.
  assert (existsb (Z.eqb x) t = true) by (apply existsb_exists; exists x; split; [exact Hin|apply Z.eqb_refl]).
  congruence.
Qed.

(** X6.  [fs_industry_to_gics_sector_map.py]: no industry code is listed
    twice, every sector code that an industry maps to has a name, and
    the precomputed [fs_industry_to_gic_name] gives for every industry
    code the sector that the two [.map] steps of the pipeline give.  A
    row is therefore dropped by the sector mapping exactly when its
    industry code is not in the table or is mapped to NaN. *)
Theorem sector_tables_agree (code : Z) :
  NoDup (map fst fs_industry_to_gic_code)
  /\ NoDup (map fst gic_code_to_gic_name)
  /\ lookup fs_industry_to_gic_name code = ProduceIV.sector_of code
  /\ (ProduceIV.sector_of code = None
      <-> lookup fs_industry_to_gic_code code = None
          \/ lookup fs_industry_to_gic_code code = Some None).
Proof.
  assert (H1 : NoDup (map fst fs_industry_to_gic_code))
    by (apply NoDup_Z_check; vm_compute; reflexivity).
  assert (H2 : NoDup (map fst gic_code_to_gic_name))
    by (apply NoDup_Z_check; vm_compute; reflexivity).
  split; [exact H1|]. split; [exact H2|]. split.
  - unfold fs_industry_to_gic_name, ProduceIV.sector_of.
    pose (g := fun (_ : Z) (gic_code : option Z) =>
                 match gic_code with
                 | Some c => lookup gic_code_to_gic_name c
                 | None => None
                 end).
    transitivity
      (lookup (flat_map (fun item : Z * option Z =>
                           match g (fst item) (snd item) with
                           | Some w => [(fst item, w)]
                           | None => []
                           end) fs_industry_to_gic_code) code).
    + f_equal; try (apply flat_map_ext; intros [k [c|]]; reflexivity).
    + rewrite (lookup_flat_map g fs_industry_to_gic_code code H1).
      destruct (lookup fs_industry_to_gic_code code) as [[c|]|]; reflexivity.
  - unfold ProduceIV.sector_of.
    destruct (lookup fs_industry_to_gic_code code) as [[c|]|] eqn:E.
    + apply lookup_In in E.
      assert (Hall : forallb (fun item : Z * option Z =>
                                match snd item with
                                | Some c => match lookup gic_code_to_gic_name c with
                                            | Some _ => true
                                            | None => false
                                            end
                                | None => true
                                end) fs_industry_to_gic_code = true)
        by (vm_compute; reflexivity).
      rewrite forallb_forall in Hall. specialize (Hall _ E). cbn [snd] in Hall.
      destruct (lookup gic_code_to_gic_name c); [|discriminate].
      split; [discriminate|]. intros [H|H]; discriminate.
    + split; auto.
    + split; auto.
Qed.

(** * The surface store over repeated runs *)

Lemma same_float_refl (x : float) : same_float x x = true.
Proof.
  unfold same_float. destruct (is_nan x) eqn:E; [apply orb_true_r|].
  apply orb_true_iff. left. rewrite eqb_spec.
  apply is_nan_false in E. unfold SFeqb. rewrite (SFcompare_refl E). reflexivity.
Qed.

Lemma same_row_refl (r : StoreRow) : same_row r r = true.
Proof.
  unfold same_row, same_record.
  rewrite !same_float_refl, String.eqb_refl.
  assert (H : forall o : option Z, same_option Z.eqb o o = true)
    by (intros [z|]; [apply Z.eqb_refl|reflexivity]).
  rewrite !H. reflexivity.
Qed.

Lemma drop_duplicates_from_all_seen {A : Type} (same : A -> A -> bool) (seen l : list A) :
  (forall x, In x l -> existsb (same x) seen = true) ->
  drop_duplicates_from same seen l = [].
Proof.
  induction l as [|x l IH]; intros H; [reflexivity|].
  cbn [drop_duplicates_from]. rewrite (H x (or_introl eq_refl)).
  apply IH. intros y Hy. apply H. right. exact Hy.
Qed.

(** Appending rows that the frame already holds changes nothing. *)
Lemma drop_duplicates_absorbs {A : Type} (same : A -> A -> bool) (l extra : list A) :
  (forall a, same a a = true) ->
  incl extra l ->
  drop_duplicates same (drop_duplicates same l ++ extra) = drop_duplicates same l.
Proof.
  intros Hrefl Hincl.
  rewrite drop_duplicates_app_left.
  unfold drop_duplicates. rewrite (drop_duplicates_from_app same [] l extra).
  rewrite (drop_duplicates_from_all_seen same _ extra); [apply app_nil_r|].
  intros x Hx. rewrite app_nil_r. apply existsb_exists.
  destruct (drop_duplicates_repr same l x (Hincl x Hx)) as [H|(y & Hy & Hs)].
  - exists x. split; [apply -> in_rev; exact H|apply Hrefl].
  - exists y. split; [apply -> in_rev; exact Hy|exact Hs].
Qed.

Lemma parsed_incl (a b : list ZipsToZarr.ZipFile) :
  incl a b -> incl (List.concat (ZipsToZarr.parsed a)) (List.concat (ZipsToZarr.parsed b)).
Proof.
  intros Hincl r Hr. apply in_concat in Hr. destruct Hr as (df & Hdf & Hr).
  unfold ZipsToZarr.parsed in Hdf. apply in_flat_map in Hdf.
  destruct Hdf as (z & Hz & Hdf).
  apply in_concat. exists df. split; [|exact Hr].
  unfold ZipsToZarr.parsed. apply in_flat_map. exists z. split; [apply Hincl, Hz|exact Hdf].
Qed.

Lemma get_new_zip_files_incl (dates1 : list date) (files : list ZipsToZarr.ZipFile) :
  incl (ZipsToZarr.get_new_zip_files dates1 files) (ZipsToZarr.get_new_zip_files [] files).
Proof.
  intros z Hz. unfold ZipsToZarr.get_new_zip_files in *. apply filter_In in Hz.
  destruct Hz as (Hin & Hnew). apply filter_In. split; [exact Hin|].
  unfold ZipsToZarr.is_new in *. destruct (ZipsToZarr.file_date z); [reflexivity|discriminate].
Qed.

Lemma parsed_sub (a b : list ZipsToZarr.ZipFile) :
  incl a b -> ZipsToZarr.parsed b = [] -> ZipsToZarr.parsed a = [].
Proof.
  intros Hi Hb. destruct (ZipsToZarr.parsed a) as [|df t] eqn:Ea; [reflexivity|].
  exfalso.
  assert (Hin : In df (ZipsToZarr.parsed a)) by (rewrite Ea; left; reflexivity).
  unfold ZipsToZarr.parsed in Hin, Hb. apply in_flat_map in Hin.
  destruct Hin as (z & Hz & Hd).
  assert (Hdf : In df (flat_map (fun z => match ZipsToZarr.frame z with
                                          | Some df => [df] | None => [] end) b))
    by (apply in_flat_map; exists z; split; [apply Hi, Hz|exact Hd]).
  rewrite Hb in Hdf. destruct Hdf.
Qed.

(** A run of [main] on an existing store, by what the new archives give. *)
Lemma main_on_existing (read_ok : bool) (existing : list StoreRow)
    (zip_files : list ZipsToZarr.ZipFile) :
  let new_zip_files :=
    ZipsToZarr.get_new_zip_files
      (ZipsToZarr.get_existing_zarr_dates read_ok (Some existing)) zip_files in
  ZipsToZarr.main read_ok (Some existing) zip_files
  = Some (if existsb ZipsToZarr.name_raises zip_files then existing
          else match ZipsToZarr.parsed new_zip_files with
               | [] => existing
               | _ => drop_duplicates same_row
                        (existing ++ ZipsToZarr.new_rows (ZipsToZarr.parsed new_zip_files))
               end).
Proof.
  intros new_zip_files. unfold ZipsToZarr.main. fold new_zip_files.
  destruct (existsb ZipsToZarr.name_raises zip_files); [reflexivity|].
  destruct new_zip_files as [|z t] eqn:E; [reflexivity|]. rewrite <- E.
  unfold ZipsToZarr.append_to_existing_zarr_fixed.
  destruct (ZipsToZarr.parsed new_zip_files); reflexivity.
Qed.

(** X8.  Lines 173-194, 213-244 and 286-289, when the dates of the store
    cannot be read (the [except] branch of [get_existing_zarr_dates]): a
    run on an existing store takes in every dated archive, and a further
    run over the same archives, whether or not it can read the dates,
    leaves the store exactly as the first left it. *)
Theorem rerun_on_existing_store_changes_nothing
    (existing : list StoreRow) (zip_files : list ZipsToZarr.ZipFile) (read_ok : bool) :
  ZipsToZarr.main read_ok (ZipsToZarr.main false (Some existing) zip_files) zip_files
  = ZipsToZarr.main false (Some existing) zip_files.
Proof.
  rewrite (main_on_existing false existing zip_files). cbn zeta.
  cbn [ZipsToZarr.get_existing_zarr_dates].
  destruct (existsb ZipsToZarr.name_raises zip_files) eqn:Er;
    [rewrite main_on_existing, Er; reflexivity|].
  set (all := ZipsToZarr.get_new_zip_files [] zip_files).
  set (stored := match ZipsToZarr.parsed all with
                 | [] => existing
                 | _ => drop_duplicates same_row
                          (existing ++ ZipsToZarr.new_rows (ZipsToZarr.parsed all))
                 end).
  rewrite (main_on_existing read_ok stored zip_files). cbn zeta. rewrite Er.
  set (again := ZipsToZarr.get_new_zip_files _ zip_files).
  assert (Hi : incl again all) by apply get_new_zip_files_incl.
  f_equal.
  destruct (ZipsToZarr.parsed again) as [|df1 t1] eqn:Ep; [reflexivity|]. rewrite <- Ep.
  unfold stored.
  destruct (ZipsToZarr.parsed all) as [|df0 t0] eqn:Eall.
  - rewrite (parsed_sub again all Hi Eall) in Ep. discriminate.
  - rewrite <- Eall. apply drop_duplicates_absorbs; [apply same_row_refl|].
    intros r Hr. apply in_or_app. right.
    unfold ZipsToZarr.new_rows in *. apply in_map_iff in Hr.
    destruct Hr as (x & <- & Hx). apply in_map.
    apply (parsed_incl again all Hi). exact Hx.
Qed.

Lemma range_index_In (l : list SurfaceRecord) (i : Z) (r : StoreRow) :
  In r (ZipsToZarr.range_index i l) ->
  exists j, (i <= j)%Z /\ index r = Some j /\ In (data r) l.
Proof.
  revert i. induction l as [|x l IH]; intros i H; [destruct H|].
  cbn [ZipsToZarr.range_index] in H. destruct H as [<-|H].
  - exists i. cbn. split; [lia|]. auto.
  - destruct (IH _ H) as (j & Hj & Hi & Hd). exists j. split; [lia|].
    split; [exact Hi|]. right. exact Hd.
Qed.

Lemma range_index_data (l : list SurfaceRecord) (i : Z) :
  map data (ZipsToZarr.range_index i l) = l.
Proof.
  revert i. induction l as [|x l IH]; intros i; [reflexivity|].
  cbn [ZipsToZarr.range_index map data]. rewrite IH. reflexivity.
Qed.

Lemma range_index_distinct (l : list SurfaceRecord) (i : Z) :
  ForallOrdPairs (fun a b => same_row b a = false) (ZipsToZarr.range_index i l).
Proof.
  revert i. induction l as [|x l IH]; intros i; cbn [ZipsToZarr.range_index]; constructor.
  - rewrite Forall_forall. intros r Hr. apply range_index_In in Hr.
    destruct Hr as (j & Hj & Hi & _). unfold same_row. rewrite Hi. cbn [index same_option].
    destruct (Z.eqb_spec j i); [lia|reflexivity].
  - apply IH.
Qed.

Lemma same_row_unindexed (y r : StoreRow) :
  index y = None -> index r <> None -> same_row y r = false.
Proof.
  unfold same_row. intros -> H. destruct (index r); [reflexivity|congruence].
Qed.

(** X7.  Lines 150-171, 213-244 and 286-292.  The store that a first run
    creates gives every row an [index]; the rows of a later batch have
    none, and [drop_duplicates()] compares every column.  So when a later
    run cannot read the dates of the store and takes the same archives in
    again, no row is recognised: the store keeps its rows and gets every
    distinct row of the archives a second time. *)
Theorem rerun_after_creation_stores_every_row_again
    (zip_files : list ZipsToZarr.ZipFile) (rows : list StoreRow) (read_ok : bool) :
  ZipsToZarr.main read_ok None zip_files = Some rows ->
  map data rows = List.concat (ZipsToZarr.parsed (filter has_date zip_files))
  /\ ZipsToZarr.main false (Some rows) zip_files
     = Some (rows ++ drop_duplicates same_row (batch_rows zip_files))
  /\ forall r, In r rows ->
               exists r', In r' (drop_duplicates same_row (batch_rows zip_files))
                          /\ index r' = None
                          /\ same_record (data r) (data r') = true.
Proof.
  intros Hfirst.
  assert (Hall : forall ok store,
             store = None \/ ok = false ->
             ZipsToZarr.get_new_zip_files
               (ZipsToZarr.get_existing_zarr_dates ok store) zip_files
             = filter has_date zip_files).
  { intros ok store H. apply MergeFacts.get_new_zip_files_all.
    intros z d _ _ Hin. destruct H as [->| ->]; [destruct Hin|].
    destruct store; destruct Hin. }
  unfold ZipsToZarr.main in Hfirst. rewrite (Hall read_ok None (or_introl eq_refl)) in Hfirst.
  destruct (existsb ZipsToZarr.name_raises zip_files) eqn:Er; [discriminate|].
  destruct (filter has_date zip_files) as [|z0 t0] eqn:Edated; [discriminate|].
  rewrite <- Edated in *. clear z0 t0 Edated.
  unfold ZipsToZarr.save_flat_dataset_to_zarr in Hfirst.
  destruct (ZipsToZarr.parsed (filter has_date zip_files)) as [|df0 dfs] eqn:Ep;
    [discriminate|]. rewrite <- Ep in *.
  injection Hfirst as <-.
  set (l := List.concat (ZipsToZarr.parsed (filter has_date zip_files))).
  assert (Hrows : drop_duplicates same_row (ZipsToZarr.range_index 0 l ++ batch_rows zip_files)
                  = ZipsToZarr.range_index 0 l
                    ++ drop_duplicates same_row (batch_rows zip_files)).
  { unfold drop_duplicates. rewrite drop_duplicates_from_app.
    rewrite (drop_duplicates_from_id same_row [] (ZipsToZarr.range_index 0 l));
      [|reflexivity|apply range_index_distinct].
    f_equal. apply drop_duplicates_from_ext. intros y Hy. cbn [existsb].
    apply not_true_is_false. intros Hex. apply existsb_exists in Hex.
    destruct Hex as (r & Hr & Hs). rewrite app_nil_r in Hr. apply in_rev in Hr.
    apply range_index_In in Hr. destruct Hr as (j & _ & Hi & _).
    unfold batch_rows, ZipsToZarr.new_rows in Hy. apply in_map_iff in Hy.
    destruct Hy as (x & <- & _).
    rewrite same_row_unindexed in Hs; [discriminate|reflexivity|congruence]. }
  split; [apply range_index_data|]. split.
  - rewrite (main_on_existing false (ZipsToZarr.range_index 0 l) zip_files). cbn zeta.
    rewrite Er, (Hall false _ (or_intror eq_refl)). rewrite Ep. rewrite <- Ep.
    f_equal. exact Hrows.
  - intros r Hr. apply range_index_In in Hr. destruct Hr as (j & _ & _ & Hd).
    assert (Hin : In (mkStoreRow None (data r)) (batch_rows zip_files)).
    { unfold batch_rows, ZipsToZarr.new_rows. apply in_map. exact Hd. }
    destruct (drop_duplicates_repr same_row (batch_rows zip_files) _ Hin)
      as [H|(y & Hy & Hs)].
    + exists (mkStoreRow None (data r)). split; [exact H|]. split; [reflexivity|].
      cbn [data]. pose proof (same_row_refl (mkStoreRow None (data r))) as Hrefl.
      unfold same_row in Hrefl. cbn [index data same_option] in Hrefl. exact Hrefl.
    + exists y. split; [exact Hy|].
      assert (Hyi : index y = None).
      { apply drop_duplicates_In in Hy. unfold batch_rows, ZipsToZarr.new_rows in Hy.
        apply in_map_iff in Hy. destruct Hy as (x & <- & _). reflexivity. }
      split; [exact Hyi|]. unfold same_row in Hs. cbn [index data] in Hs.
      rewrite Hyi in Hs. cbn [same_option] in Hs. exact Hs.
Qed.

(** X9.  Lines 196-244 and 253-292: a run on an existing store loses no
    stored row (each has a same row in the store after the run) and adds
    only rows of archives that [get_new_zip_files] selected, all without
    an [index]. *)
Theorem surface_store_only_grows
    (read_ok : bool) (existing : list StoreRow) (zip_files : list ZipsToZarr.ZipFile) :
  exists rows,
    ZipsToZarr.main read_ok (Some existing) zip_files = Some rows
    /\ Forall (fun r => exists r', In r' rows /\ same_row r r' = true) existing
    /\ Forall (fun r =>
                 In r existing
                 \/ (index r = None
                     /\ exists z df,
                         In z zip_files
                         /\ ZipsToZarr.is_new
                              (ZipsToZarr.get_existing_zarr_dates read_ok (Some existing)) z
                            = true
                         /\ ZipsToZarr.frame z = Some df
                         /\ In (data r) df))
              rows.
Proof.
  rewrite (main_on_existing read_ok existing zip_files). cbn zeta.
  set (new_zip_files := ZipsToZarr.get_new_zip_files _ zip_files).
  eexists. split; [reflexivity|].
  assert (Hsame : Forall (fun r => exists r', In r' existing /\ same_row r r' = true) existing
                  /\ Forall (fun r =>
                               In r existing
                               \/ (index r = None
                                   /\ exists z df,
                                       In z zip_files
                                       /\ ZipsToZarr.is_new
                                            (ZipsToZarr.get_existing_zarr_dates read_ok
                                               (Some existing)) z
                                          = true
                                       /\ ZipsToZarr.frame z = Some df
                                       /\ In (data r) df))
                            existing).
  { split; rewrite Forall_forall; intros r Hr.
    - exists r. split; [exact Hr|apply same_row_refl].
    - left. exact Hr. }
  destruct (existsb ZipsToZarr.name_raises zip_files); [exact Hsame|].
  destruct (ZipsToZarr.parsed new_zip_files) as [|df0 dfs] eqn:Ep; [exact Hsame|].
  clear Hsame.
  - rewrite <- Ep. split; rewrite Forall_forall; intros r Hr.
    + destruct (drop_duplicates_repr same_row
                  (existing ++ ZipsToZarr.new_rows (ZipsToZarr.parsed new_zip_files)) r)
        as [H|H].
      * apply in_or_app. left. exact Hr.
      * exists r. split; [exact H|apply same_row_refl].
      * exact H.
    + apply drop_duplicates_In in Hr. apply in_app_or in Hr. destruct Hr as [Hr|Hr];
        [left; exact Hr|right].
      unfold ZipsToZarr.new_rows in Hr. apply in_map_iff in Hr. destruct Hr as (x & <- & Hx).
      split; [reflexivity|]. cbn [data].
      apply in_concat in Hx. destruct Hx as (df & Hdf & Hx).
      unfold ZipsToZarr.parsed in Hdf. apply in_flat_map in Hdf.
      destruct Hdf as (z & Hz & Hd).
      unfold new_zip_files, ZipsToZarr.get_new_zip_files in Hz. apply filter_In in Hz.
      destruct Hz as (Hin & Hnew).
      exists z, df. destruct (ZipsToZarr.frame z) as [df'|]; [|destruct Hd].
      destruct Hd as [<-|[]]. auto.
Qed.

(** * Merging snapshot batches in either order *)

Lemma same_float_sym (a b : float) : same_float a b = same_float b a.
Proof.
  unfold same_float. f_equal; [|apply andb_comm].
  rewrite !eqb_spec. unfold SFeqb.
  rewrite (SFcompare_antisym (Prim2SF a) (Prim2SF b)).
  destruct (SFcompare (Prim2SF a) (Prim2SF b)) as [[ | | ]|]; reflexivity.
Qed.

Lemma same_float_trans (a b c : float) :
  same_float a b = true -> same_float b c = true -> same_float a c = true.
Proof.
  unfold same_float. rewrite !orb_true_iff, !andb_true_iff, !eqb_spec. unfold SFeqb.
  intros [Hab|[Ha Hb]] [Hbc|[Hb' Hc]].
  - left.
    destruct (SFcompare (Prim2SF a) (Prim2SF b)) as [[ | | ]|] eqn:E1; try discriminate.
    destruct (SFcompare (Prim2SF b) (Prim2SF c)) as [[ | | ]|] eqn:E2; try discriminate.
    rewrite (SFcompare_trans _ _ _ E1 E2); [reflexivity|discriminate|discriminate].
  - exfalso. apply is_nan_spec in Hb'.
    destruct (SFcompare (Prim2SF a) (Prim2SF b)) as [cmp|] eqn:E1; [|discriminate].
    apply compare_some_not_nan in E1. destruct E1 as [_ E1]. now apply E1.
  - exfalso. apply is_nan_spec in Hb.
    destruct (SFcompare (Prim2SF b) (Prim2SF c)) as [cmp|] eqn:E1; [|discriminate].
    apply compare_some_not_nan in E1. destruct E1 as [E1 _]. now apply E1.
  - right. split; assumption.
Qed.

Lemma same_record_refl (r : SurfaceRecord) : same_record r r = true.
Proof.
  pose proof (same_row_refl (mkStoreRow None r)) as H.
  unfold same_row in H. exact H.
Qed.

Lemma same_record_sym (a b : SurfaceRecord) : same_record a b = same_record b a.
Proof.
  unfold same_record.
  rewrite (String.eqb_sym (ticker a) (ticker b)).
  rewrite (same_float_sym (rate a)), (same_float_sym (years a)), (same_float_sym (atmVol a)),
    (same_float_sym (atmCen a)), (same_float_sym (atmVega a)), (same_float_sym (slope a)),
    (same_float_sym (cCnt a)), (same_float_sym (pCnt a)), (same_float_sym (vwidth a)).
  replace (same_option Z.eqb (teo a) (teo b)) with (same_option Z.eqb (teo b) (teo a));
    [reflexivity|].
  destruct (teo a), (teo b); cbn; try reflexivity. apply Z.eqb_sym.
Qed.

Lemma same_record_trans (a b c : SurfaceRecord) :
  same_record a b = true -> same_record b c = true -> same_record a c = true.
Proof.
  unfold same_record. rewrite !andb_true_iff.
  intros [[[[[[[[[[T1 D1] R1] Y1] V1] C1] G1] S1] N1] P1] W1]
         [[[[[[[[[[T2 D2] R2] Y2] V2] C2] G2] S2] N2] P2] W2].
  apply String.eqb_eq in T1, T2.
  apply (same_option_eq Z.eqb _ _ Z.eqb_eq) in D1, D2.
  repeat split; try (eapply same_float_trans; eassumption).
  - apply String.eqb_eq. congruence.
  - apply (same_option_eq Z.eqb _ _ Z.eqb_eq). congruence.
Qed.

Lemma same_row_sym (a b : StoreRow) : same_row a b = same_row b a.
Proof.
  unfold same_row. rewrite (same_record_sym (data a)). f_equal.
  destruct (index a), (index b); cbn; try reflexivity. apply Z.eqb_sym.
Qed.

Lemma same_row_trans (a b c : StoreRow) :
  same_row a b = true -> same_row b c = true -> same_row a c = true.
Proof.
  unfold same_row. rewrite !andb_true_iff. intros [I1 R1] [I2 R2].
  apply (same_option_eq Z.eqb _ _ Z.eqb_eq) in I1, I2.
  split; [apply (same_option_eq Z.eqb _ _ Z.eqb_eq); congruence|].
  eapply same_record_trans; eassumption.
Qed.

Lemma same_row_data (a b : StoreRow) :
  same_row a b = true -> same_record (data a) (data b) = true.
Proof. unfold same_row. rewrite andb_true_iff. tauto. Qed.

Lemma existsb_on_map {A B : Type} (p : B -> bool) (f : A -> B) (l : list A) :
  existsb p (map f l) = existsb (fun x => p (f x)) l.
Proof. induction l as [|x l IH]; cbn; [reflexivity|now rewrite IH]. Qed.

(** [drop_duplicates] changes the rows of a frame, not the set of its
    rows. *)
Lemma holds_row_drop_duplicates (rows : list StoreRow) (row : StoreRow) :
  existsb (same_row row) (drop_duplicates same_row rows) = existsb (same_row row) rows.
Proof.
  apply eq_true_iff_eq. rewrite !existsb_exists. split.
  - intros (y & Hy & Hs). exists y. split; [now apply drop_duplicates_In in Hy|exact Hs].
  - intros (y & Hy & Hs).
    destruct (drop_duplicates_repr same_row rows y Hy) as [H|(y' & Hy' & Hs')].
    + exists y. split; assumption.
    + exists y'. split; [exact Hy'|]. eapply same_row_trans; eassumption.
Qed.

Lemma holds_drop_duplicates (rows : list StoreRow) (r : SurfaceRecord) :
  holds (map data (drop_duplicates same_row rows)) r = holds (map data rows) r.
Proof.
  unfold holds. rewrite !existsb_on_map.
  apply eq_true_iff_eq. rewrite !existsb_exists. split.
  - intros (y & Hy & Hs). exists y. split; [now apply drop_duplicates_In in Hy|exact Hs].
  - intros (y & Hy & Hs).
    destruct (drop_duplicates_repr same_row rows y Hy) as [H|(y' & Hy' & Hs')].
    + exists y. split; assumption.
    + exists y'. split; [exact Hy'|].
      eapply same_record_trans; [exact Hs|]. now apply same_row_data.
Qed.

Lemma new_rows_data (dataframes : list (list SurfaceRecord)) :
  map data (ZipsToZarr.new_rows dataframes) = List.concat dataframes.
Proof. unfold ZipsToZarr.new_rows. rewrite map_map. apply map_id. Qed.

Lemma taken_when_reads_fail (store : ZipsToZarr.Store) (b : list ZipsToZarr.ZipFile) :
  ZipsToZarr.get_new_zip_files (ZipsToZarr.get_existing_zarr_dates false store) b
  = filter has_date b.
Proof.
  apply MergeFacts.get_new_zip_files_all. intros z d _ _ H.
  destruct store; destruct H.
Qed.

(** One run whose read of the stored dates fails, by what it leaves. *)
Lemma main_when_reads_fail (store : ZipsToZarr.Store) (b : list ZipsToZarr.ZipFile) :
  ZipsToZarr.main false store b
  = if existsb ZipsToZarr.name_raises b then store
    else match ZipsToZarr.parsed (filter has_date b), store with
         | [], _ => store
         | _, Some rows => Some (drop_duplicates same_row (rows ++ batch_rows b))
         | _, None =>
             Some (ZipsToZarr.range_index 0
                     (List.concat (ZipsToZarr.parsed (filter has_date b))))
         end.
Proof.
  unfold ZipsToZarr.main. rewrite taken_when_reads_fail.
  destruct (existsb ZipsToZarr.name_raises b); [reflexivity|].
  unfold batch_rows.
  destruct (filter has_date b) as [|z t] eqn:E.
  - cbn. destruct store; reflexivity.
  - rewrite <- E.
    unfold ZipsToZarr.append_to_existing_zarr_fixed, ZipsToZarr.save_flat_dataset_to_zarr.
    destruct (ZipsToZarr.parsed (filter has_date b)), store; reflexivity.
Qed.

Lemma main_records (store : ZipsToZarr.Store) (b : list ZipsToZarr.ZipFile)
    (r : SurfaceRecord) :
  holds (records_of (ZipsToZarr.main false store b)) r
  = holds (records_of store) r || holds (batch_records b) r.
Proof.
  rewrite main_when_reads_fail. unfold batch_records, batch_rows.
  destruct (existsb ZipsToZarr.name_raises b);
    [cbn [holds existsb]; now rewrite orb_false_r|].
  destruct (ZipsToZarr.parsed (filter has_date b)) as [|df t] eqn:E.
  - cbn [List.concat holds existsb]. now rewrite orb_false_r.
  - rewrite <- E. destruct store as [rows|]; cbn [records_of].
    + rewrite holds_drop_duplicates, map_app, new_rows_data.
      unfold holds. apply existsb_app.
    + rewrite range_index_data. reflexivity.
Qed.

Lemma main_exists (store : ZipsToZarr.Store) (b : list ZipsToZarr.ZipFile) :
  ZipsToZarr.main false store b = None
  <-> store = None
      /\ (existsb ZipsToZarr.name_raises b = true
          \/ ZipsToZarr.parsed (filter has_date b) = []).
Proof.
  rewrite main_when_reads_fail.
  destruct (existsb ZipsToZarr.name_raises b).
  - split; [intros ->; split; [reflexivity|now left]|tauto].
  - destruct (ZipsToZarr.parsed (filter has_date b)), store; split;
      try discriminate; try tauto; try (intros _; split; [reflexivity|now right]);
      intros [H1 [H2|H2]]; discriminate.
Qed.

Lemma main_rows (rows : list StoreRow) (b : list ZipsToZarr.ZipFile) (row : StoreRow) :
  holds_row (ZipsToZarr.main false (Some rows) b) row
  = existsb (same_row row) rows
    || existsb (same_row row)
         (if existsb ZipsToZarr.name_raises b then [] else batch_rows b).
Proof.
  rewrite main_when_reads_fail. unfold batch_rows.
  destruct (existsb ZipsToZarr.name_raises b); [cbn; now rewrite orb_false_r|].
  destruct (ZipsToZarr.parsed (filter has_date b)) as [|df t] eqn:E.
  - cbn. now rewrite orb_false_r.
  - rewrite <- E. cbn [holds_row]. rewrite holds_row_drop_duplicates. apply existsb_app.
Qed.

Lemma main_of_existing (rows : list StoreRow) (b : list ZipsToZarr.ZipFile) :
  exists rows', ZipsToZarr.main false (Some rows) b = Some rows'.
Proof.
  rewrite main_when_reads_fail.
  destruct (existsb ZipsToZarr.name_raises b); [eauto|].
  destruct (ZipsToZarr.parsed (filter has_date b)); eauto.
Qed.

(** C3.  As [get_existing_zarr_dates] is written, the read of the dates
    of the store ends in its [except] branch ([dates.date()] raises), so
    a run takes in every archive with a date in its name and leaves the
    duplicates to [drop_duplicates].  For every store, existing or not,
    and every two batches of snapshots, whatever their dates: after the
    first batch and then the second, the store holds exactly the records
    of the store as it was and those that the runs over the two batches
    take in; after the second and then the first it holds the same set
    of records; and the store exists after the one order if and only if
    it does after the other.  Where the store existed before, the two
    orders also agree on the rows with their [index] column.  Records and
    rows are compared as [drop_duplicates] compares them. *)
Theorem merge_order_independent
    (store : ZipsToZarr.Store) (b1 b2 : list ZipsToZarr.ZipFile) :
  let first := ZipsToZarr.main false (ZipsToZarr.main false store b1) b2 in
  let second := ZipsToZarr.main false (ZipsToZarr.main false store b2) b1 in
  (forall r, holds (records_of first) r
             = holds (records_of store) r || holds (batch_records b1) r
               || holds (batch_records b2) r)
  /\ (forall r, holds (records_of first) r = holds (records_of second) r)
  /\ (first = None <-> second = None)
  /\ (forall rows row, store = Some rows -> holds_row first row = holds_row second row).
Proof.
  intros first second. unfold first, second.
  split; [|split; [|split]].
  - intros r. now rewrite !main_records.
  - intros r. rewrite !main_records.
    rewrite <- !orb_assoc. f_equal. apply orb_comm.
  - rewrite !main_exists. tauto.
  - intros rows row ->.
    destruct (main_of_existing rows b1) as (r1 & E1).
    destruct (main_of_existing rows b2) as (r2 & E2).
    rewrite E1, E2, !main_rows.
    change (existsb (same_row row) r1) with (holds_row (Some r1) row).
    change (existsb (same_row row) r2) with (holds_row (Some r2) row).
    rewrite <- E1, <- E2, !main_rows.
    rewrite <- !orb_assoc. f_equal. apply orb_comm.
Qed.

(** Both orders on an existing store: the same three rows, the two new
    ones swapped. *)
Example merge_both_orders :
  option_map (map (fun r => (index r, teo (data r))))
    (ZipsToZarr.main false (ZipsToZarr.main false (Some day_1_store) [snapshot 2%Z "AAA"])
       [snapshot 3%Z "AAA"])
  = Some [(Some 0%Z, Some 1%Z); (None, Some 2%Z); (None, Some 3%Z)]
  /\ option_map (map (fun r => (index r, teo (data r))))
       (ZipsToZarr.main false (ZipsToZarr.main false (Some day_1_store) [snapshot 3%Z "AAA"])
          [snapshot 2%Z "AAA"])
     = Some [(Some 0%Z, Some 1%Z); (None, Some 3%Z); (None, Some 2%Z)].
Proof. vm_compute. split; reflexivity. Qed.

(** Both orders on a store that does not exist yet: the batch that
    creates the store keeps its two equal rows and gets the index, the
    other batch comes without an index and loses its duplicate.  The
    records are the same, the [index] column is not. *)
Example merge_both_orders_on_a_new_store :
  option_map (map (fun r => (index r, teo (data r))))
    (ZipsToZarr.main false (ZipsToZarr.main false None [snapshot 2%Z "AAA"])
       [snapshot 3%Z "AAA"])
  = Some [(Some 0%Z, Some 2%Z); (Some 1%Z, Some 2%Z); (None, Some 3%Z)]
  /\ option_map (map (fun r => (index r, teo (data r))))
       (ZipsToZarr.main false (ZipsToZarr.main false None [snapshot 3%Z "AAA"])
          [snapshot 2%Z "AAA"])
     = Some [(Some 0%Z, Some 3%Z); (Some 1%Z, Some 3%Z); (None, Some 2%Z)].
Proof. vm_compute. split; reflexivity. Qed.

(** A batch with a name that raises is not taken in, not even its good
    archive: the store stays as it is. *)
Example a_name_that_raises_stops_the_run :
  ZipsToZarr.main false (Some day_1_store)
    [snapshot 2%Z "AAA"; ZipsToZarr.mkZip ZipsToZarr.Raises_on_name None]
  = Some day_1_store
  /\ batch_records [snapshot 2%Z "AAA"; ZipsToZarr.mkZip ZipsToZarr.Raises_on_name None]
     = [].
Proof. vm_compute. split; reflexivity. Qed.

Lemma fold_later_dated (rest : list (option date)) (a : date) :
  Forall (fun x => x <> None) rest ->
  exists m, fold_left Incremental.later rest (Incremental.At a) = Incremental.At m
            /\ (m = a \/ In (Some m) rest)
            /\ (a <= m)%Z
            /\ forall d, In (Some d) rest -> (d <= m)%Z.
Proof.
  intros H. revert a. induction H as [|x rest Hx Hrest IH]; intros a.
  - exists a. cbn [fold_left]. split; [reflexivity|]. split; [left; reflexivity|].
    split; [lia|]. intros d [].
  - destruct x as [e|]; [|congruence]. cbn [fold_left Incremental.later].
    destruct (IH (Z.max a e)) as (m & Hm & Hin & Hle & Hall).
    exists m. split; [exact Hm|]. split; [|split].
    + destruct Hin as [->|Hin]; [|right; right; exact Hin].
      destruct (Z.max_spec a e) as [(_ & ->)|(_ & ->)]; [right; left; reflexivity|left; reflexivity].
    + lia.
    + intros d [E|Hd]; [injection E as ->; lia|apply Hall, Hd].
Qed.

Lemma max_time_dated (x : option date) (rest : list (option date)) :
  Forall (fun x => x <> None) (x :: rest) ->
  exists m, Incremental.max_time x rest = Incremental.At m
            /\ In (Some m) (x :: rest)
            /\ forall d, In (Some d) (x :: rest) -> (d <= m)%Z.
Proof.
  intros H. inversion H as [|? ? Hx Hrest]; subst.
  destruct x as [a|]; [|congruence]. unfold Incremental.max_time.
  destruct (fold_later_dated rest a Hrest) as (m & Hm & Hin & Hle & Hall).
  exists m. split; [exact Hm|]. split.
  - destruct Hin as [->|Hin]; [left; reflexivity|right; exact Hin].
  - intros d [E|Hd]; [injection E as ->; exact Hle|apply Hall, Hd].
Qed.

Lemma get_latest_date_dated (path : string) (time_data : list (option date)) :
  time_data <> [] ->
  Forall (fun x => x <> None) time_data ->
  exists m, fst (Incremental.get_latest_date_in_zarr path (Some time_data))
            = Some (Incremental.At m)
            /\ In (Some m) time_data
            /\ forall d, In (Some d) time_data -> (d <= m)%Z.
Proof.
  intros Hne H. destruct time_data as [|x rest]; [congruence|].
  destruct (max_time_dated x rest H) as (m & Hm & Hin & Hall).
  exists m. cbn [Incremental.get_latest_date_in_zarr fst]. rewrite Hm. auto.
Qed.

(** The check on two readable stores that hold dated rows, by the two
    latest dates. *)
Lemma check_on_dated_stores (disk : Incremental.Disk) (fs : @ProduceIV.Files float)
    (out_rows : list (CubeRow float)) (in_rows : list StoreRow) :
  fs ProduceIV.output_path = Some out_rows -> out_rows <> [] ->
  Incremental.output_readable disk = true ->
  Incremental.input_zarr disk = Some in_rows -> in_rows <> [] ->
  all_dated in_rows ->
  exists i o,
    In (Some i) (Incremental.teo_of_surface in_rows)
    /\ (forall d, In (Some d) (Incremental.teo_of_surface in_rows) -> (d <= i)%Z)
    /\ latest_date out_rows o
    /\ fst (Incremental.check_incremental_processing_needed disk fs)
       = if (o <? i)%Z then (true, Some o, Some i) else (false, None, None).
Proof.
  intros Hfs Hout Hread Hin Hne Hdated.
  destruct (get_latest_date_dated Incremental.input_zarr_path
              (Incremental.teo_of_surface in_rows)) as (i & Hi & Hi1 & Hi2).
  { destruct in_rows; [congruence|discriminate]. }
  { unfold Incremental.teo_of_surface. rewrite Forall_map. exact Hdated. }
  destruct (get_latest_date_dated ProduceIV.output_path
              (Incremental.teo_of_cube out_rows)) as (o & Ho & Ho1 & Ho2).
  { destruct out_rows; [congruence|discriminate]. }
  { unfold Incremental.teo_of_cube. rewrite Forall_map, Forall_forall. discriminate. }
  exists i, o. split; [exact Hi1|]. split; [exact Hi2|]. split.
  - split.
    + unfold Incremental.teo_of_cube in Ho1. apply in_map_iff in Ho1.
      destruct Ho1 as (c & E & Hc). injection E as <-. apply in_map. exact Hc.
    + intros c Hc. apply Ho2. unfold Incremental.teo_of_cube.
      apply in_map_iff. exists c. auto.
  - unfold Incremental.check_incremental_processing_needed.
    rewrite Hfs, Hin, Hread. cbn [option_map].
    destruct (Incremental.get_latest_date_in_zarr Incremental.input_zarr_path _) as [il ilog].
    destruct (Incremental.get_latest_date_in_zarr ProduceIV.output_path _) as [ol olog].
    cbn [fst] in Hi, Ho. subst il ol.
    destruct (o <? i)%Z; reflexivity.
Qed.

(** X10.  Lines 22-53 and 55-92: when the output store and the surface store
    both hold dated rows, the check asks for a run exactly when some
    surface row is dated after every output row, and the date it then
    hands over is the latest date of the output store. *)
Theorem check_asks_for_a_run_iff_newer_data
    (disk : Incremental.Disk) (fs : @ProduceIV.Files float)
    (out_rows : list (CubeRow float)) (in_rows : list StoreRow) :
  fs ProduceIV.output_path = Some out_rows -> out_rows <> [] ->
  Incremental.output_readable disk = true ->
  Incremental.input_zarr disk = Some in_rows -> in_rows <> [] ->
  all_dated in_rows ->
  let check := Incremental.check_incremental_processing_needed disk fs in
  (needs_processing check = true
   <-> exists r d, In r in_rows /\ teo (data r) = Some d
                   /\ forall c, In c out_rows -> (c_teo c < d)%Z)
  /\ (needs_processing check = true ->
      exists o, output_latest check = Some o /\ latest_date out_rows o)
  /\ (needs_processing check = false -> output_latest check = None).
Proof.
  intros Hfs Hout Hread Hin Hne Hdated check.
  destruct (check_on_dated_stores disk fs out_rows in_rows Hfs Hout Hread Hin Hne Hdated)
    as (i & o & Hi1 & Hi2 & (Ho1 & Ho2) & E).
  unfold needs_processing, output_latest. fold check in E. rewrite E.
  destruct (Z.ltb_spec o i) as [Hlt|Hge]; cbn [fst snd].
  - split; [|split].
    + split; [intros _|reflexivity].
      unfold Incremental.teo_of_surface in Hi1. apply in_map_iff in Hi1.
      destruct Hi1 as (r & Hr & Hrin). exists r, i. split; [exact Hrin|].
      split; [exact Hr|]. intros c Hc. specialize (Ho2 c Hc). lia.
    + intros _. exists o. split; [reflexivity|]. split; assumption.
    + discriminate.
  - split; [|split].
    + split; [discriminate|]. intros (r & d & Hr & Hd & Hall). exfalso.
      assert (Hdi : (d <= i)%Z).
      { apply Hi2. unfold Incremental.teo_of_surface. apply in_map_iff. exists r. auto. }
      apply in_map_iff in Ho1. destruct Ho1 as (c & <- & Hc). specialize (Hall c Hc). lia.
    + discriminate.
    + reflexivity.
Qed.

(** The date of a cube row is the date of a filtered record. *)
Lemma melt_all_teo (df : list ProduceIV.Bucketed) (m : ProduceIV.Melted) :
  In m (ProduceIV.melt_all df) ->
  exists b, In b df /\ ProduceIV.m_teo m = teo (ProduceIV.rec b).
Proof.
  unfold ProduceIV.melt_all, ProduceIV.melt. rewrite filter_In, in_app_iff, !in_flat_map.
  intros ([(l & Hl & Hm)|(l & Hl & Hm)] & _);
    apply in_map_iff in Hm; destruct Hm as (k & <- & Hk); cbn [ProduceIV.m_teo];
    unfold ProduceIV.pivot_index in Hk; apply drop_duplicates_In in Hk;
    apply in_map_iff in Hk; destruct Hk as (b & <- & Hb); exists b; auto.
Qed.

Lemma enrich_row_teo (daily : ProduceIV.DailyTicker)
    (style_daily : date -> string -> option Style) (m : ProduceIV.Melted) (e : Enriched float) :
  ProduceIV.enrich_row daily style_daily m = Some e ->
  ProduceIV.m_teo m = Some (e_teo e).
Proof.
  unfold ProduceIV.enrich_row. destruct (ProduceIV.m_teo m) as [d|]; [|discriminate].
  destruct (_ && _ && _); [|discriminate].
  destruct (ProduceIV.fs_industry_code daily d _); [|discriminate].
  destruct (ProduceIV.sector_of _); [|discriminate].
  intros H. injection H as <-. reflexivity.
Qed.

Lemma candidate_batch_teo (inp : ProduceIV.Inputs) (df_all : list SurfaceRecord)
    (agg : list (CubeRow float)) (c : CubeRow float) :
  ProduceIV.candidate_batch inp df_all = Some agg ->
  In c agg ->
  exists r, In r df_all /\ teo r = Some (c_teo c).
Proof.
  unfold ProduceIV.candidate_batch.
  destruct (ProduceIV.all_columns_present _); [|discriminate].
  intros H Hc. injection H as <-.
  apply agg_all_In in Hc. destruct Hc as (bs & bz & by_style & Hc).
  apply CubeFacts.rollup_In in Hc. destruct Hc as (k & Hk & ->).
  apply CubeFacts.group_keys_In in Hk. destruct Hk as (e & He & Hg).
  apply group_key_shape in Hg. destruct Hg as (-> & _).
  apply enrich_In in He. destruct He as (m & Hm & He).
  apply enrich_row_teo in He.
  apply melt_all_teo in Hm. destruct Hm as (b & Hb & Hteo).
  apply closest_per_bucket_In, assign_buckets_In in Hb. destruct Hb as (r & Hr & ->).
  cbn [ProduceIV.rec] in Hteo.
  exists r. split; [exact Hr|]. rewrite <- Hteo. exact He.
Qed.

Lemma candidate_batch_unique (inp : ProduceIV.Inputs) (df_all : list SurfaceRecord)
    (agg : list (CubeRow float)) :
  ProduceIV.candidate_batch inp df_all = Some agg -> unique_keys agg.
Proof.
  unfold ProduceIV.candidate_batch.
  destruct (ProduceIV.all_columns_present _); [|discriminate].
  intros H. injection H as <-. apply agg_all_unique_keys, enrich_no_total.
Qed.


(** X11.  Lines 198-203: without [--force], when no surface row is dated after
    the latest output row, [main] returns 0 before it loads anything:
    no file is written, whatever the surface store holds. *)
Theorem up_to_date_run_changes_nothing
    (args : Incremental.Args) (disk : Incremental.Disk) (fault : option ProduceIV.Fault)
    (fs : @ProduceIV.Files float) (out_rows : list (CubeRow float))
    (in_rows : list StoreRow) :
  incremental_setting args disk fs out_rows in_rows ->
  (forall r d, In r in_rows -> teo (data r) = Some d ->
               exists c, In c out_rows /\ (d <= c_teo c)%Z) ->
  snd (Incremental.main args disk fault fs) = ProduceIV.Returned 0 fs []
  /\ In (ProduceIV.INFO, Incremental.No_new_data_exiting)
        (fst (Incremental.main args disk fault fs)).
Proof.
  intros (Hforce & Hfs & Hout & Hread & Hin & Hne & Hdated) Hold.
  destruct (check_on_dated_stores disk fs out_rows in_rows Hfs Hout Hread Hin Hne Hdated)
    as (i & o & Hi1 & Hi2 & (Ho1 & Ho2) & E).
  unfold Incremental.main. rewrite Hforce.
  destruct (Incremental.check_incremental_processing_needed disk fs) as [[[needs ol] il] checked].
  cbn [fst] in E.
  destruct (Z.ltb_spec o i) as [Hlt|Hge].
  - exfalso. unfold Incremental.teo_of_surface in Hi1. apply in_map_iff in Hi1.
    destruct Hi1 as (r & Hr & Hrin). destruct (Hold r i Hrin Hr) as (c & Hc & Hle).
    specialize (Ho2 c Hc). lia.
  - injection E as -> -> ->. cbn [snd fst negb]. split; [reflexivity|].
    apply in_or_app. right. apply in_or_app. right. left. reflexivity.
Qed.

(** X12.  Lines 198-230 and 548-566: without [--force], when the surface store
    has rows dated after the latest output date [o], the run loads from
    the day after [o] on; every cube row of its batch is dated after
    [o], so that the append drops nothing: the store after the run is
    the store before it followed by the whole batch. *)
Theorem incremental_run_appends_its_batch
    (args : Incremental.Args) (disk : Incremental.Disk)
    (fs : @ProduceIV.Files float) (out_rows : list (CubeRow float))
    (in_rows : list StoreRow) :
  incremental_setting args disk fs out_rows in_rows ->
  unique_keys out_rows ->
  (exists r d, In r in_rows /\ teo (data r) = Some d
               /\ forall c, In c out_rows -> (c_teo c < d)%Z) ->
  exists o,
    latest_date out_rows o
    /\ let inp := ProduceIV.mkInputs (Incremental.surface_store disk) (Some (o + 1)%Z)
                    (Incremental.daily disk) (Incremental.style_daily disk) in
       let df_all := ProduceIV.load_and_filter_data (Incremental.surface_store disk)
                       (Some (o + 1)%Z) in
       snd (Incremental.main args disk None fs) = ProduceIV.main inp None fs
       /\ Forall (fun r => exists d, teo r = Some d /\ (o < d)%Z) df_all
       /\ forall agg,
            df_all <> [] ->
            ProduceIV.candidate_batch inp df_all = Some agg ->
            ProduceIV.files_after (snd (Incremental.main args disk None fs))
              ProduceIV.output_path
            = Some (out_rows ++ agg)
            /\ Forall (fun c => (o < c_teo c)%Z) agg.
Proof.
  intros (Hforce & Hfs & Hout & Hread & Hin & Hne & Hdated) Hu (r0 & d0 & Hr0 & Hd0 & Hnew).
  destruct (check_on_dated_stores disk fs out_rows in_rows Hfs Hout Hread Hin Hne Hdated)
    as (i & o & Hi1 & Hi2 & (Ho1 & Ho2) & E).
  assert (Hlt : (o <? i)%Z = true).
  { apply Z.ltb_lt. apply in_map_iff in Ho1. destruct Ho1 as (c & <- & Hc).
    specialize (Hnew c Hc).
    assert ((d0 <= i)%Z); [|lia].
    apply Hi2. unfold Incremental.teo_of_surface. apply in_map_iff. exists r0. auto. }
  rewrite Hlt in E.
  exists o. split; [split; assumption|]. cbn zeta.
  set (inp := ProduceIV.mkInputs _ _ _ _).
  set (df_all := ProduceIV.load_and_filter_data _ _).
  assert (Hmain : snd (Incremental.main args disk None fs) = ProduceIV.main inp None fs).
  { unfold Incremental.main. rewrite Hforce.
    destruct (Incremental.check_incremental_processing_needed disk fs)
      as [[[needs ol] il] checked].
    cbn [fst] in E. injection E as -> -> ->. reflexivity. }
  assert (Hafter : Forall (fun r => exists d, teo r = Some d /\ (o < d)%Z) df_all).
  { rewrite Forall_forall. intros r Hr. apply load_and_filter_data_In in Hr.
    destruct Hr as (_ & _ & Hs & _). unfold ProduceIV.on_or_after in Hs.
    destruct (teo r) as [d|]; [|discriminate]. exists d. split; [reflexivity|].
    apply Z.leb_le in Hs. lia. }
  split; [exact Hmain|]. split; [exact Hafter|].
  intros agg Hdf Hagg.
  assert (Hdates : Forall (fun c => (o < c_teo c)%Z) agg).
  { rewrite Forall_forall. intros c Hc.
    destruct (candidate_batch_teo inp df_all agg c Hagg Hc) as (r & Hr & Hteo).
    rewrite Forall_forall in Hafter. destruct (Hafter r Hr) as (d & Hd & Hod).
    rewrite Hteo in Hd. injection Hd as <-. exact Hod. }
  split; [|exact Hdates].
  rewrite Hmain. unfold ProduceIV.main. cbn [ProduceIV.surface_store ProduceIV.start_date inp].
  fold df_all. destruct df_all as [|r1 rest] eqn:Edf; [congruence|]. rewrite <- Edf in *.
  rewrite Hagg.
  pose proof (save_output_written agg ProduceIV.output_path fs) as Hw.
  destruct (ProduceIV.save_output None agg ProduceIV.output_path fs) as [fs' saved].
  cbn [fst ProduceIV.files_after] in Hw |- *. rewrite Hw, Hfs. f_equal.
  unfold drop_duplicates. rewrite drop_duplicates_from_app.
  fold (drop_duplicates same_key out_rows). rewrite (drop_duplicates_unique out_rows Hu).
  f_equal. apply drop_duplicates_from_id.
  - intros x Hx. apply not_true_is_false. intros Hex. apply existsb_exists in Hex.
    destruct Hex as (e & He & Hs). rewrite app_nil_r in He. apply in_rev in He.
    apply same_key_eq in Hs. unfold natural_key in Hs.
    assert (Ht : c_teo x = c_teo e) by congruence.
    rewrite Forall_forall in Hdates. specialize (Hdates x Hx). specialize (Ho2 e He). lia.
  - apply unique_keys_pairs. apply (candidate_batch_unique inp df_all agg Hagg).
Qed.

Lemma forward_needs_both_buckets_witness :
  In (30%Z, 60%Z) ProduceIV.TARGET_PAIRS
  /\ exists b1 b2,
      In b1 (ProduceIV.closest_per_bucket Scenario.frame)
      /\ In b2 (ProduceIV.closest_per_bucket Scenario.frame)
      /\ ProduceIV.pivot_key b1 = (Some 1%Z, "AAA")
      /\ ProduceIV.pivot_key b2 = (Some 1%Z, "AAA")
      /\ ProduceIV.target_days b1 = 30%Z
      /\ ProduceIV.target_days b2 = 60%Z
      /\ is_nan (atmVol (ProduceIV.rec b1)) = false
      /\ is_nan (atmVol (ProduceIV.rec b2)) = false
      /\ ProduceIV.forward_vol 30 60 0.20 0.25
         = ProduceIV.forward_vol 30 60 (atmVol (ProduceIV.rec b1)) (atmVol (ProduceIV.rec b2)).
Proof.
  apply (forward_needs_both_buckets (ProduceIV.closest_per_bucket Scenario.frame)
           aaa_forward_30_60 30 60).
  - vm_compute. repeat (first [left; reflexivity|right]).
  - reflexivity.
Defined.

Lemma missing_bucket_raises_KeyError_witness :
  exists log,
    ProduceIV.main one_expiry None Scenario.no_files
    = ProduceIV.Raised_KeyError Scenario.no_files log
    /\ In (ProduceIV.INFO, ProduceIV.Processing_records 1) log.
Proof.
  apply (missing_bucket_raises_KeyError one_expiry None Scenario.no_files 60).
  - vm_compute. auto.
  - vm_compute. discriminate.
  - intros r Hr. vm_compute in Hr. destruct Hr as [<-|[]]. vm_compute. discriminate.
Defined.

Lemma stored_rows_are_never_revised_witness :
  exists added,
    fst (ProduceIV.append_to_existing_output None [bbb_cube_30_revised; aaa_cube_30]
           ProduceIV.output_path one_store) ProduceIV.output_path
    = Some ([bbb_cube_30] ++ added)
    /\ (forall c, In c added ->
                  In c [bbb_cube_30_revised; aaa_cube_30]
                  /\ forall e, In e [bbb_cube_30] -> same_key c e = false)
    /\ (forall c, In c [bbb_cube_30_revised; aaa_cube_30] ->
                  exists c', In c' ([bbb_cube_30] ++ added)
                             /\ natural_key c' = natural_key c)
    /\ unique_keys ([bbb_cube_30] ++ added).
Proof.
  apply (stored_rows_are_never_revised [bbb_cube_30_revised; aaa_cube_30] [bbb_cube_30]
           ProduceIV.output_path one_store).
  - reflexivity.
  - unfold unique_keys. cbn [map]. constructor; [intros []|constructor].
Defined.

Example a_revised_value_is_discarded :
  fst (ProduceIV.append_to_existing_output None [bbb_cube_30_revised; aaa_cube_30]
         ProduceIV.output_path one_store) ProduceIV.output_path
  = Some [bbb_cube_30; aaa_cube_30].
Proof. vm_compute. reflexivity. Qed.

Lemma rerun_after_creation_stores_every_row_again_witness :
  map data created_store
  = List.concat (ZipsToZarr.parsed (filter has_date [snapshot 2%Z "AAA"]))
  /\ ZipsToZarr.main false (Some created_store) [snapshot 2%Z "AAA"]
     = Some (created_store ++ drop_duplicates same_row (batch_rows [snapshot 2%Z "AAA"]))
  /\ forall r, In r created_store ->
               exists r', In r' (drop_duplicates same_row (batch_rows [snapshot 2%Z "AAA"]))
                          /\ index r' = None
                          /\ same_record (data r) (data r') = true.
Proof.
  apply (rerun_after_creation_stores_every_row_again [snapshot 2%Z "AAA"] created_store true).
  reflexivity.
Defined.

Example the_created_store_grows_on_a_rerun :
  option_map (map index) (ZipsToZarr.main false (Some created_store) [snapshot 2%Z "AAA"])
  = Some [Some 0%Z; Some 1%Z; None].
Proof. vm_compute. reflexivity. Qed.

Lemma day_1_cube_is_the_first_run :
  ProduceIV.files_after (ProduceIV.main Scenario.inputs None Scenario.no_files)
    ProduceIV.output_path
  = Some day_1_cube.
Proof. vm_compute. reflexivity. Qed.

Lemma day_1_cube_stored : day_1_output ProduceIV.output_path = Some day_1_cube.
Proof. reflexivity. Qed.

Lemma day_1_cube_dates : forallb (fun c => Z.eqb (c_teo c) 1) day_1_cube = true.
Proof. vm_compute. reflexivity. Qed.

Lemma day_1_cube_length : List.length day_1_cube = 510%nat.
Proof. vm_compute. reflexivity. Qed.

Lemma day_1_setting (disk : Incremental.Disk) (in_rows : list StoreRow) :
  Incremental.output_readable disk = true ->
  Incremental.input_zarr disk = Some in_rows ->
  in_rows <> [] -> all_dated in_rows ->
  incremental_setting no_force disk day_1_output day_1_cube in_rows.
Proof.
  intros H1 H2 H3 H4. unfold incremental_setting.
  split; [reflexivity|]. split; [exact day_1_cube_stored|].
  split; [|auto].
  intros E. pose proof day_1_cube_length as H. rewrite E in H. discriminate.
Qed.

Lemma store_unique_rows (fs : @ProduceIV.Files float) (rows : list (CubeRow float)) :
  store_unique fs -> fs ProduceIV.output_path = Some rows -> unique_keys rows.
Proof. unfold store_unique. intros H E. rewrite E in H. exact H. Qed.

Lemma no_files_unique : store_unique Scenario.no_files.
Proof. exact I. Qed.

Lemma day_1_cube_unique : unique_keys day_1_cube.
Proof.
  exact (store_unique_rows _ _
           (main_keeps_store_unique Scenario.inputs None Scenario.no_files no_files_unique)
           day_1_cube_is_the_first_run).
Qed.

Lemma all_dated_check (rows : list StoreRow) :
  forallb (fun r => match teo (data r) with Some _ => true | None => false end) rows = true ->
  all_dated rows.
Proof.
  unfold all_dated. rewrite forallb_forall, Forall_forall. intros H r Hr.
  specialize (H r Hr). destruct (teo (data r)); [discriminate|discriminate H].
Qed.

Lemma check_asks_for_a_run_iff_newer_data_witness :
  let check := Incremental.check_incremental_processing_needed day_2_disk day_1_output in
  (needs_processing check = true
   <-> exists r d, In r day_2_surface /\ teo (data r) = Some d
                   /\ forall c, In c day_1_cube -> (c_teo c < d)%Z)
  /\ (needs_processing check = true ->
      exists o, output_latest check = Some o /\ latest_date day_1_cube o)
  /\ (needs_processing check = false -> output_latest check = None).
Proof.
  assert (H : incremental_setting no_force day_2_disk day_1_output day_1_cube day_2_surface).
  { apply day_1_setting; [reflexivity|reflexivity|discriminate|].
    apply all_dated_check. vm_compute. reflexivity. }
  destruct H as (_ & H1 & H2 & H3 & H4 & H5 & H6).
  exact (check_asks_for_a_run_iff_newer_data day_2_disk day_1_output day_1_cube day_2_surface
           H1 H2 H3 H4 H5 H6).
Defined.

Lemma up_to_date_run_changes_nothing_witness :
  snd (Incremental.main no_force day_1_disk None day_1_output)
  = ProduceIV.Returned 0 day_1_output []
  /\ In (ProduceIV.INFO, Incremental.No_new_data_exiting)
        (fst (Incremental.main no_force day_1_disk None day_1_output)).
Proof.
  apply (up_to_date_run_changes_nothing no_force day_1_disk None day_1_output
           day_1_cube Scenario.store).
  - apply day_1_setting; [reflexivity|reflexivity|discriminate|].
    apply all_dated_check. vm_compute. reflexivity.
  - intros r d Hr Hd.
    assert (E : d = 1%Z).
    { assert (Hall : forallb (fun r => match teo (data r) with
                                       | Some d => Z.eqb d 1
                                       | None => false
                                       end) Scenario.store = true)
        by (vm_compute; reflexivity).
      rewrite forallb_forall in Hall. specialize (Hall r Hr). rewrite Hd in Hall.
      apply Z.eqb_eq. exact Hall. }
    subst d.
    assert (Hc : exists c, In c day_1_cube).
    { destruct day_1_cube as [|c rest] eqn:E; [|exists c; left; reflexivity].
      exfalso. pose proof day_1_cube_length as Hn. rewrite E in Hn. discriminate. }
    destruct Hc as (c & Hc). exists c. split; [exact Hc|].
    pose proof day_1_cube_dates as Hall. rewrite forallb_forall in Hall.
    specialize (Hall c Hc). apply Z.eqb_eq in Hall. lia.
Defined.

Lemma incremental_run_appends_its_batch_witness :
  exists o,
    latest_date day_1_cube o
    /\ let inp := ProduceIV.mkInputs day_2_surface (Some (o + 1)%Z)
                    day_2_daily Scenario.style_daily in
       let df_all := ProduceIV.load_and_filter_data day_2_surface (Some (o + 1)%Z) in
       snd (Incremental.main no_force day_2_disk None day_1_output)
       = ProduceIV.main inp None day_1_output
       /\ Forall (fun r => exists d, teo r = Some d /\ (o < d)%Z) df_all
       /\ forall agg,
            df_all <> [] ->
            ProduceIV.candidate_batch inp df_all = Some agg ->
            ProduceIV.files_after (snd (Incremental.main no_force day_2_disk None day_1_output))
              ProduceIV.output_path
            = Some (day_1_cube ++ agg)
            /\ Forall (fun c => (o < c_teo c)%Z) agg.
Proof.
  apply (incremental_run_appends_its_batch no_force day_2_disk day_1_output
           day_1_cube day_2_surface).
  - apply day_1_setting; [reflexivity|reflexivity|discriminate|].
    apply all_dated_check. vm_compute. reflexivity.
  - apply day_1_cube_unique.
  - exists (Scenario.quote "AAA" 2%Z 0.20 0.21 30), 2%Z.
    split; [unfold day_2_surface; apply in_or_app; right; left; reflexivity|].
    split; [reflexivity|].
    pose proof day_1_cube_dates as Hall. rewrite forallb_forall in Hall.
    intros c Hc. specialize (Hall c Hc). apply Z.eqb_eq in Hall. lia.
Defined.

Example the_second_day_is_appended :
  option_map (fun rows => (List.length rows, List.length (filter (fun c => Z.eqb (c_teo c) 2) rows)))
    (ProduceIV.files_after (snd (Incremental.main no_force day_2_disk None day_1_output))
       ProduceIV.output_path)
  = Some ((List.length day_1_cube + 272)%nat, 272%nat).
Proof. vm_compute. reflexivity. Qed.

Open Scope string_scope.

Lemma rstrip_all_space (w : string) : all_space w = true -> rstrip w = EmptyString.
Proof.
  induction w as [|c w IH]; [reflexivity|]. cbn [all_space rstrip].
  intros H. apply andb_true_iff in H. destruct H as (Hc & Hw).
  rewrite (IH Hw), Hc. reflexivity.
Qed.

Lemma rstrip_app_space (s w : string) :
  all_space w = true -> rstrip (s ++ w) = rstrip s.
Proof.
  intros Hw. induction s as [|c s IH]; cbn [append rstrip].
  - apply rstrip_all_space, Hw.
  - rewrite IH. reflexivity.
Qed.

Lemma lstrip_space_app (w s : string) :
  all_space w = true -> lstrip (w ++ s) = lstrip s.
Proof.
  induction w as [|c w IH]; [reflexivity|]. cbn [all_space append lstrip].
  intros H. apply andb_true_iff in H. destruct H as (Hc & Hw). rewrite Hc. apply IH, Hw.
Qed.

Lemma lstrip_all_space (w : string) : all_space w = true -> lstrip w = EmptyString.
Proof.
  induction w as [|c w IH]; [reflexivity|]. cbn [all_space lstrip].
  intros H. apply andb_true_iff in H. destruct H as (Hc & Hw). rewrite Hc. apply IH, Hw.
Qed.

Lemma lstrip_app_space (s w : string) :
  all_space w = true ->
  lstrip (s ++ w) = lstrip s ++ w \/ (lstrip s = EmptyString /\ lstrip (s ++ w) = EmptyString).
Proof.
  intros Hw. induction s as [|c s IH]; cbn [append lstrip].
  - right. split; [reflexivity|]. apply lstrip_all_space, Hw.
  - destruct (is_space c); [exact IH|]. left. reflexivity.
Qed.

Lemma strip_app_space (s w : string) : all_space w = true -> strip (s ++ w) = strip s.
Proof.
  intros Hw. unfold strip. destruct (lstrip_app_space s w Hw) as [E|(E1 & E2)].
  - rewrite E. apply rstrip_app_space, Hw.
  - rewrite E1, E2. reflexivity.
Qed.

Lemma strip_space_app (w s : string) : all_space w = true -> strip (w ++ s) = strip s.
Proof. intros Hw. unfold strip. rewrite lstrip_space_app; auto. Qed.

Lemma split_length (sep : ascii) (s : string) :
  List.length (split sep s) = S (count_char sep s).
Proof.
  induction s as [|c s IH]; [reflexivity|]. cbn [split count_char].
  destruct (Ascii.eqb c sep); cbn [List.length Nat.add].
  - rewrite IH. reflexivity.
  - destruct (split sep s) as [|f fs]; cbn [List.length] in *; [discriminate|exact IH].
Qed.

Lemma count_char_app (sep : ascii) (s t : string) :
  count_char sep (s ++ t) = (count_char sep s + count_char sep t)%nat.
Proof.
  induction s as [|c s IH]; [reflexivity|]. cbn [append count_char]. rewrite IH. lia.
Qed.

Lemma count_char_lstrip (sep : ascii) (s : string) :
  (count_char sep (lstrip s) <= count_char sep s)%nat.
Proof.
  induction s as [|c s IH]; [apply le_n|]. cbn [lstrip].
  destruct (is_space c); [cbn [count_char]; lia|apply le_n].
Qed.

Lemma count_char_rstrip (sep : ascii) (s : string) :
  (count_char sep (rstrip s) <= count_char sep s)%nat.
Proof.
  induction s as [|c s IH]; [apply le_n|]. cbn [rstrip].
  destruct (rstrip s) as [|c' t'] eqn:E.
  - destruct (is_space c); cbn [count_char] in *; lia.
  - cbn [count_char] in *. lia.
Qed.

Lemma count_char_strip (sep : ascii) (s : string) :
  (count_char sep (strip s) <= count_char sep s)%nat.
Proof.
  unfold strip. etransitivity; [apply count_char_rstrip|apply count_char_lstrip].
Qed.

(** X13.  Lines 78-84 and 126-129 of [2_zips_to_zarrs_combined.py]: [strip]
    takes tabs away with the other whitespace at both ends of a line.
    So whitespace around a line never changes the values read from it,
    and a line that ends with a tab (an empty last field) yields fewer
    values than it has fields; with a header of as many columns as the
    line has fields, the row is dropped. *)
Theorem trailing_empty_fields_are_lost (line before after : string) :
  all_space before = true -> all_space after = true ->
  ZipText.process_values (before ++ line ++ after) = ZipText.process_values line
  /\ (List.length (ZipText.process_values (line ++ String TAB after))
      < S (count_char TAB (line ++ String TAB after)))%nat
  /\ forall header_line other_lines,
       List.length (ZipText.get_column_names header_line)
       = S (count_char TAB (line ++ String TAB after)) ->
       ZipText.read_rows (header_line :: (line ++ String TAB after) :: other_lines)
       = ZipText.read_rows (header_line :: other_lines).
Proof.
  intros Hb Ha.
  assert (Htab : all_space (String TAB after) = true).
  { cbn [all_space]. rewrite Ha. reflexivity. }
  assert (Hlt : (List.length (ZipText.process_values (line ++ String TAB after))
                 < S (count_char TAB (line ++ String TAB after)))%nat).
  { unfold ZipText.process_values. rewrite strip_app_space by exact Htab.
    rewrite split_length, count_char_app. cbn [count_char].
    rewrite Ascii.eqb_refl.
    pose proof (count_char_strip TAB line). lia. }
  split; [|split].
  - unfold ZipText.process_values.
    rewrite strip_space_app by exact Hb. rewrite strip_app_space by exact Ha. reflexivity.
  - exact Hlt.
  - intros header_line other_lines Hcols.
    assert (Hdrop : (List.length (ZipText.process_values (line ++ String TAB after))
                     =? List.length (ZipText.get_column_names header_line))%nat = false).
    { rewrite Hcols. apply Nat.eqb_neq. lia. }
    destruct other_lines as [|l2 rest]; cbn [ZipText.read_rows map filter]; rewrite Hdrop;
      reflexivity.
Qed.

Example empty_last_field_is_dropped :
  ZipText.read_rows
    [ "ticker_tk" ++ String TAB ("years" ++ String TAB ("atmVol" ++ String NEWLINE ""));
      "AAA" ++ String TAB ("0.5" ++ String TAB ("0.2" ++ String NEWLINE ""));
      "BBB" ++ String TAB ("0.5" ++ String TAB (String NEWLINE "")) ]
  = Some (["ticker_tk"; "years"; "atmVol"], [["AAA"; "0.5"; "0.2"]]).
Proof. reflexivity. Qed.

Open Scope list_scope.
Open Scope float_scope.

Lemma needs_download_always (now : Pipeline.Snapshot) :
  Pipeline.needs_download (Pipeline.check_pipeline_status now) = true.
Proof. reflexivity. Qed.

(** Case analysis on the tests of [main], one at a time, outermost
    first. *)
Ltac pipeline_simpl :=
  cbn [negb andb orb fst snd app forallb existsb command_ok is_produce_iv] in *;
  repeat match goal with
    | H : forall s, Pipeline.script_found _ s = true |- _ => rewrite !H
    | H : ?x = _ |- context [?x] => rewrite H
    end;
  cbn [negb andb orb fst snd app forallb existsb command_ok is_produce_iv] in *.

Ltac split_on b :=
  lazymatch b with
  | negb ?x => split_on x
  | andb ?x _ => split_on x
  | orb ?x _ => split_on x
  | _ => destruct b eqn:?
  end.

Ltac pipeline_step :=
  match goal with
  | |- context [if ?b then _ else _] =>
      lazymatch b with
      | context [if _ then _ else _] => fail
      | _ => split_on b
      end
  end;
  pipeline_simpl.

Ltac pipeline_cases :=
  unfold Pipeline.main, Pipeline.run_script, Pipeline.run_gsutil_command;
  rewrite ?needs_download_always;
  pipeline_simpl;
  repeat pipeline_step.

(** X14.  Lines 150-192 and 298-448: the exit code is 0 exactly when every
    process that the run started ended with return code 0; a dry run
    starts no process and exits with 0. *)
Theorem exit_code_reports_every_failure (args : Pipeline.Args) (w : Pipeline.World) :
  installed w ->
  (fst (Pipeline.main args w) = 0%Z
   <-> forallb (command_ok w) (snd (Pipeline.main args w)) = true)
  /\ (Pipeline.dry_run args = true ->
      Pipeline.main args w = (0%Z, [])).
Proof.
  intros (Hc & Hf). split.
  - pipeline_cases; split; intros; try reflexivity; try discriminate.
  - intros Hdry. pipeline_cases; reflexivity.
Qed.

(** X15.  Lines 223-245, 357-378 and 421-431: [needs_upload] is set whenever
    the store exists and whenever it does not, so the upload step is
    never skipped: a run that gets past the download and conversion
    steps starts the upload, also after a failed IV production, and
    fails when the upload fails. *)
Theorem upload_is_never_skipped (args : Pipeline.Args) (w : Pipeline.World) :
  installed w ->
  Pipeline.dry_run args = false ->
  Pipeline.script_ok w Pipeline.Download_zips = true ->
  Pipeline.script_ok w Pipeline.Zips_to_zarrs = true ->
  Pipeline.needs_upload (Pipeline.check_pipeline_status (Pipeline.at_start w)) = true
  /\ In Pipeline.Run_upload (snd (Pipeline.main args w))
  /\ (Pipeline.script_ok w Pipeline.Upload_to_gc = false ->
      fst (Pipeline.main args w) = 1%Z).
Proof.
  intros (Hc & Hf) Hdry H1 H2.
  assert (Hup : Pipeline.needs_upload
                  (Pipeline.check_pipeline_status (Pipeline.at_start w)) = true).
  { unfold Pipeline.check_pipeline_status. cbn [Pipeline.needs_upload].
    destruct (Pipeline.zarr_exists (Pipeline.at_start w)); cbn [negb];
      [apply orb_true_r|reflexivity]. }
  split; [exact Hup|]. split.
  - pipeline_cases; rewrite ?in_app_iff; cbn [In]; auto 10.
  - intros H5. pipeline_cases; reflexivity.
Qed.

(** X16.  Lines 357-378: without [--force], once the download has succeeded,
    the conversion step is started exactly when the latest date in the
    ZIP file names has changed over the download: what
    [check_pipeline_status] found before (no Zarr store, ZIP files
    present) no longer counts. *)
Theorem conversion_runs_iff_latest_zip_date_changed
    (args : Pipeline.Args) (w : Pipeline.World) :
  installed w ->
  Pipeline.dry_run args = false ->
  Pipeline.force args = false ->
  Pipeline.script_ok w Pipeline.Download_zips = true ->
  (In Pipeline.Run_zips_to_zarrs (snd (Pipeline.main args w))
   <-> Pipeline.same_latest
         (Pipeline.get_latest_zip_date (Pipeline.zip_dir (Pipeline.after_download w)))
         (Pipeline.get_latest_zip_date (Pipeline.zip_dir (Pipeline.at_start w)))
       = false).
Proof.
  intros (Hc & Hf) Hdry Hforce H1.
  change (Pipeline.get_latest_zip_date (Pipeline.zip_dir (Pipeline.after_download w)))
    with (Pipeline.latest_zip_date (Pipeline.check_pipeline_status (Pipeline.after_download w))).
  change (Pipeline.get_latest_zip_date (Pipeline.zip_dir (Pipeline.at_start w)))
    with (Pipeline.latest_zip_date (Pipeline.check_pipeline_status (Pipeline.at_start w))).
  pipeline_cases; rewrite ?in_app_iff; cbn [In];
    split; intros H; try discriminate; try reflexivity; auto 10;
    repeat match goal with
      | H : _ \/ _ |- _ => destruct H
      | H : False |- _ => destruct H
      end; try discriminate.
Qed.

(** X17.  Lines 240-241 and 380-419: [needs_iv_dataset] is what
    [check_pipeline_status] found at the start; it is not looked at
    again after the conversion step.  So the IV dataset is produced
    exactly when the Zarr store existed when the run began, or with
    [--force]: a run that creates the store does not go on to produce
    the IV dataset. *)
Theorem iv_dataset_needs_the_store_at_start
    (args : Pipeline.Args) (w : Pipeline.World) :
  installed w ->
  Pipeline.dry_run args = false ->
  Pipeline.script_ok w Pipeline.Download_zips = true ->
  Pipeline.script_ok w Pipeline.Zips_to_zarrs = true ->
  (existsb is_produce_iv (snd (Pipeline.main args w)) = true
   <-> Pipeline.zarr_exists (Pipeline.at_start w) = true \/ Pipeline.force args = true).
Proof.
  intros (Hc & Hf) Hdry H1 H2.
  change (Pipeline.zarr_exists (Pipeline.at_start w))
    with (Pipeline.needs_iv_dataset (Pipeline.check_pipeline_status (Pipeline.at_start w))).
  pipeline_cases; rewrite ?existsb_app; pipeline_simpl;
    split; intros H; try discriminate; try reflexivity; auto;
    try (destruct H; discriminate).
Qed.

Open Scope string_scope.

Lemma date_prefix_split (s m rest : string) :
  date_prefix s = Some (m, rest) ->
  s = m ++ rest /\ date_text m /\ String.length m = 10%nat
  /\ exists c t, m = String c t /\ is_digit c = true.
Proof.
  unfold date_text, date_prefix.
  destruct s as [|y1 [|y2 [|y3 [|y4 [|h1 [|m1 [|m2 [|h2 [|d1 [|d2 r]]]]]]]]]]; try discriminate.
  destruct (_ && _) eqn:E; [|discriminate].
  intros H. injection H as <- <-. rewrite E.
  split; [reflexivity|]. split; [reflexivity|]. split; [reflexivity|].
  exists y1. eexists. split; [reflexivity|].
  do 9 (apply andb_true_iff in E; destruct E as (E & _)). exact E.
Qed.

Lemma date_prefix_app (m e : string) :
  date_text m -> date_prefix (m ++ e) = Some (m, e).
Proof.
  unfold date_text, date_prefix.
  destruct m as [|y1 [|y2 [|y3 [|y4 [|h1 [|m1 [|m2 [|h2 [|d1 [|d2 r]]]]]]]]]]; try discriminate.
  cbn [append]. destruct (_ && _); [|discriminate].
  intros H. injection H as H. 
  destruct r; [reflexivity|discriminate].
Qed.

Lemma length_append (s t : string) :
  String.length (s ++ t) = (String.length s + String.length t)%nat.
Proof. induction s as [|c s IH]; [reflexivity|]. cbn [append String.length]. rewrite IH. reflexivity. Qed.

Lemma at_end_length (e : string) : at_end e = true -> (String.length e <= 1)%nat.
Proof.
  destruct e as [|c [|c' e]]; cbn [at_end String.length]; intros H;
    first [lia | discriminate].
Qed.

(** The pattern [_(\d{4}-\d{2}-\d{2})$] finds a date exactly in a text
    that ends with an underscore and the date, a final newline apart. *)
Lemma search_underscore_date_at_end_spec (s m : string) :
  search_underscore_date_at_end s = Some m
  <-> exists p e, s = p ++ String "_" (m ++ e) /\ date_text m /\ at_end e = true.
Proof.
  split.
  - induction s as [|c t IH]; [discriminate|]. cbn [search_underscore_date_at_end].
    destruct (Ascii.eqb_spec c "_") as [->|Hc].
    + destruct (date_prefix t) as [[m' rest]|] eqn:E.
      * destruct (at_end rest) eqn:Ee.
        -- intros H. injection H as ->. apply date_prefix_split in E.
           destruct E as (-> & Hm & _). exists EmptyString, rest. auto.
        -- intros H. destruct (IH H) as (p & e & -> & Hm & He).
           exists (String "_" p), e. auto.
      * intros H. destruct (IH H) as (p & e & -> & Hm & He).
        exists (String "_" p), e. auto.
    + intros H. destruct (IH H) as (p & e & -> & Hm & He).
      exists (String c p), e. auto.
  - intros (p & e & -> & Hm & He). induction p as [|c p IH].
    + cbn [append search_underscore_date_at_end]. rewrite Ascii.eqb_refl.
      rewrite (date_prefix_app m e Hm), He. reflexivity.
    + cbn [append search_underscore_date_at_end].
      destruct (Ascii.eqb_spec c "_") as [->|Hc]; [|exact IH].
      destruct (date_prefix (p ++ String "_" (m ++ e))) as [[m' rest]|] eqn:E; [|exact IH].
      destruct (at_end rest) eqn:Ee; [|exact IH].
      exfalso. apply date_prefix_split in E.
      destruct E as (E & _ & Hlen & (c' & t' & Hm' & Hd)).
      apply at_end_length in Ee. apply at_end_length in He.
      pose proof (date_prefix_split m m EmptyString Hm) as (_ & _ & Hlen' & _).
      assert (Hl : String.length (p ++ String "_" (m ++ e))
                   = String.length (m' ++ rest)) by (rewrite E; reflexivity).
      rewrite !length_append in Hl. cbn [String.length] in Hl.
      rewrite length_append in Hl.
      destruct p as [|a p]; [|cbn [String.length] in Hl; lia].
      cbn [append] in E. rewrite Hm' in E. cbn [append] in E. injection E as <- _.
      discriminate Hd.
Qed.

Lemma date_leb_refl (a : CivilDate) : date_leb a a = true.
Proof.
  unfold date_leb. rewrite !Z.eqb_refl, Z.leb_refl, !orb_true_r. reflexivity.
Qed.

Lemma date_leb_spec (a b : CivilDate) :
  date_leb a b = true
  <-> (year a < year b
       \/ (year a = year b /\ (month a < month b \/ (month a = month b /\ day a <= day b))))%Z.
Proof.
  unfold date_leb.
  rewrite orb_true_iff, andb_true_iff, orb_true_iff, andb_true_iff.
  rewrite !Z.ltb_lt, !Z.eqb_eq, Z.leb_le. tauto.
Qed.

Lemma date_leb_trans (a b c : CivilDate) :
  date_leb a b = true -> date_leb b c = true -> date_leb a c = true.
Proof. rewrite !date_leb_spec. lia. Qed.

Lemma date_leb_total (a b : CivilDate) : date_leb a b = false -> date_leb b a = true.
Proof.
  intros H. apply date_leb_spec.
  assert (Hn : ~ (date_leb a b = true)) by congruence.
  rewrite date_leb_spec in Hn. lia.
Qed.

Lemma fold_max_date (rest : list CivilDate) (d : CivilDate) :
  let m := fold_left (fun m x => if date_leb x m then m else x) rest d in
  In m (d :: rest) /\ forall x, In x (d :: rest) -> date_leb x m = true.
Proof.
  revert d. induction rest as [|y rest IH]; intros d; cbn [fold_left].
  - split; [left; reflexivity|]. intros x [<-|[]]. apply date_leb_refl.
  - destruct (date_leb y d) eqn:E.
    + destruct (IH d) as (Hin & Hall). split.
      * destruct Hin as [Hin|Hin]; [left; exact Hin|right; right; exact Hin].
      * intros x [<-|[<-|Hx]].
        -- apply Hall. left. reflexivity.
        -- eapply date_leb_trans; [exact E|]. apply Hall. left. reflexivity.
        -- apply Hall. right. exact Hx.
    + destruct (IH y) as (Hin & Hall). split.
      * right. exact Hin.
      * intros x [<-|[<-|Hx]].
        -- eapply date_leb_trans; [apply date_leb_total, E|]. apply Hall. left. reflexivity.
        -- apply Hall. left. reflexivity.
        -- apply Hall. right. exact Hx.
Qed.

(** X18.  Lines 86-104 of [run_full_pipeline.py]: a ZIP file counts for the
    latest date only when its stem ends with an underscore and a date
    YYYY-MM-DD that exists in the calendar; [get_latest_zip_date] is
    the greatest of these dates, and None when no file has one. *)
Theorem latest_zip_date_is_the_greatest_end_date (zip_files : list string) :
  (forall name d,
      In d (Pipeline.zip_date name)
      <-> exists p m e,
            stem name = p ++ String "_" (m ++ e)
            /\ date_text m /\ at_end e = true /\ strptime_date m = Some d)
  /\ match Pipeline.get_latest_zip_date (Some zip_files) with
     | Some latest =>
         (exists name, In name zip_files /\ In latest (Pipeline.zip_date name))
         /\ forall name d, In name zip_files -> In d (Pipeline.zip_date name) ->
                           date_leb d latest = true
     | None => forall name, In name zip_files -> Pipeline.zip_date name = []
     end.
Proof.
  split.
  - intros name d. unfold Pipeline.zip_date. split.
    + destruct (search_underscore_date_at_end (stem name)) as [m|] eqn:E; [|intros []].
      apply search_underscore_date_at_end_spec in E. destruct E as (p & e & E & Hm & He).
      destruct (strptime_date m) as [d'|] eqn:Ed; [|intros []].
      intros [<-|[]]. exists p, m, e. auto.
    + intros (p & m & e & E & Hm & He & Hd).
      assert (Hs : search_underscore_date_at_end (stem name) = Some m).
      { apply search_underscore_date_at_end_spec. exists p, e. auto. }
      rewrite Hs, Hd. left. reflexivity.
  - cbn [Pipeline.get_latest_zip_date]. unfold max_date.
    destruct (flat_map Pipeline.zip_date zip_files) as [|d rest] eqn:E.
    + intros name Hname.
      destruct (Pipeline.zip_date name) as [|x l] eqn:Ex; [reflexivity|].
      assert (Hin : In x (flat_map Pipeline.zip_date zip_files)).
      { apply in_flat_map. exists name. split; [exact Hname|]. rewrite Ex. left. reflexivity. }
      rewrite E in Hin. destruct Hin.
    + destruct (fold_max_date rest d) as (Hin & Hall). rewrite <- E in Hin, Hall. split.
      * apply in_flat_map in Hin. exact Hin.
      * intros name x Hname Hx. apply Hall. apply in_flat_map. exists name. auto.
Qed.

Open Scope list_scope.
Open Scope float_scope.

Open Scope string_scope.

Lemma trailing_empty_fields_are_lost_witness :
  ZipText.process_values (String " " "" ++ two_fields ++ String NEWLINE "")
  = ZipText.process_values two_fields
  /\ (List.length (ZipText.process_values (two_fields ++ String TAB (String NEWLINE "")))
      < S (count_char TAB (two_fields ++ String TAB (String NEWLINE ""))))%nat
  /\ forall header_line other_lines,
       List.length (ZipText.get_column_names header_line)
       = S (count_char TAB (two_fields ++ String TAB (String NEWLINE ""))) ->
       ZipText.read_rows
         (header_line :: (two_fields ++ String TAB (String NEWLINE "")) :: other_lines)
       = ZipText.read_rows (header_line :: other_lines).
Proof.
  apply (trailing_empty_fields_are_lost two_fields (String " " "") (String NEWLINE ""));
    reflexivity.
Defined.

Lemma fresh_machine_installed : installed fresh_machine.
Proof. split; [reflexivity|]. intros s. reflexivity. Qed.

Lemma exit_code_reports_every_failure_witness :
  (fst (Pipeline.main plain_run fresh_machine) = 0%Z
   <-> forallb (command_ok fresh_machine) (snd (Pipeline.main plain_run fresh_machine)) = true)
  /\ (Pipeline.dry_run plain_run = true ->
      Pipeline.main plain_run fresh_machine = (0%Z, [])).
Proof.
  apply (exit_code_reports_every_failure plain_run fresh_machine).
  exact fresh_machine_installed.
Defined.

Lemma upload_is_never_skipped_witness :
  Pipeline.needs_upload (Pipeline.check_pipeline_status (Pipeline.at_start fresh_machine))
  = true
  /\ In Pipeline.Run_upload (snd (Pipeline.main plain_run fresh_machine))
  /\ (Pipeline.script_ok fresh_machine Pipeline.Upload_to_gc = false ->
      fst (Pipeline.main plain_run fresh_machine) = 1%Z).
Proof.
  apply (upload_is_never_skipped plain_run fresh_machine);
    [exact fresh_machine_installed|reflexivity..].
Defined.

Lemma conversion_runs_iff_latest_zip_date_changed_witness :
  In Pipeline.Run_zips_to_zarrs (snd (Pipeline.main plain_run fresh_machine))
  <-> Pipeline.same_latest
        (Pipeline.get_latest_zip_date (Pipeline.zip_dir (Pipeline.after_download fresh_machine)))
        (Pipeline.get_latest_zip_date (Pipeline.zip_dir (Pipeline.at_start fresh_machine)))
      = false.
Proof.
  apply (conversion_runs_iff_latest_zip_date_changed plain_run fresh_machine);
    [exact fresh_machine_installed|reflexivity..].
Defined.

Lemma iv_dataset_needs_the_store_at_start_witness :
  existsb is_produce_iv (snd (Pipeline.main plain_run fresh_machine)) = true
  <-> Pipeline.zarr_exists (Pipeline.at_start fresh_machine) = true
      \/ Pipeline.force plain_run = true.
Proof.
  apply (iv_dataset_needs_the_store_at_start plain_run fresh_machine);
    [exact fresh_machine_installed|reflexivity..].
Defined.

(** On the fresh machine the run downloads, converts and uploads; it
    does not produce the IV dataset. *)
Example first_run_on_a_fresh_machine :
  Pipeline.main plain_run fresh_machine
  = (0%Z, [Pipeline.Run_download (Some (mkCivil 2024 1 1));
           Pipeline.Run_zips_to_zarrs; Pipeline.Run_upload]).
Proof. vm_compute. reflexivity. Qed.

Example dates_in_zip_names :
  map (fun name => Pipeline.zip_date name)
      ["surface_2024-02-29.zip"; "surface_2023-02-29.zip"; "2024-01-02.zip";
       "surface_2024-01-02_v2.zip"; "a.b_2024-12-31.zip"]
  = [[mkCivil 2024 2 29]; []; []; []; [mkCivil 2024 12 31]].
Proof. vm_compute. reflexivity. Qed.

Open Scope list_scope.
Open Scope float_scope.

(** * The style table *)

Lemma ascii_compare_lt_trans (a b c : ascii) :
  Ascii.compare a b = Lt -> Ascii.compare b c = Lt -> Ascii.compare a c = Lt.
Proof.
  unfold Ascii.compare. rewrite !N.compare_lt_iff. apply N.lt_trans.
Qed.

Lemma string_compare_refl (s : string) : String.compare s s = Eq.
Proof.
  induction s as [|c s IH]; [reflexivity|]. cbn [String.compare].
  assert (E : Ascii.compare c c = Eq) by (unfold Ascii.compare; apply N.compare_refl).
  rewrite E. exact IH.
Qed.

Lemma string_compare_eq (s t : string) : String.compare s t = Eq <-> s = t.
Proof.
  split; [apply String.compare_eq_iff|]. intros ->. apply string_compare_refl.
Qed.

Lemma string_compare_lt_trans (s t u : string) :
  String.compare s t = Lt -> String.compare t u = Lt -> String.compare s u = Lt.
Proof.
  revert t u. induction s as [|a s IH]; intros [|b t] [|c u]; cbn [String.compare];
    try discriminate; try reflexivity.
  destruct (Ascii.compare a b) eqn:Eab; try discriminate;
    destruct (Ascii.compare b c) eqn:Ebc; try discriminate; intros H1 H2.
  - apply Ascii.compare_eq_iff in Eab, Ebc. subst.
    assert (E : Ascii.compare c c = Eq) by (unfold Ascii.compare; apply N.compare_refl).
    rewrite E. eapply IH; eassumption.
  - apply Ascii.compare_eq_iff in Eab. subst. rewrite Ebc. reflexivity.
  - apply Ascii.compare_eq_iff in Ebc. subst. rewrite Eab. reflexivity.
  - rewrite (ascii_compare_lt_trans a b c Eab Ebc). reflexivity.
Qed.

Lemma string_compare_gt_lt (s t : string) :
  String.compare s t = Gt <-> String.compare t s = Lt.
Proof.
  rewrite (String.compare_antisym s t). destruct (String.compare t s); cbn; split; congruence.
Qed.

Section Ranking.
Import StyleTable.

Lemma ranked_before_total (a b : Scored) :
  scored a -> scored b -> ranked_before a b = false -> ranked_before b a = true.
Proof.
  unfold ranked_before, scored. intros Ha Hb.
  destruct (String.compare (s_ticker a) (s_ticker b)) eqn:E; try discriminate.
  - apply string_compare_eq in E. rewrite E, string_compare_refl.
    destruct (Z.ltb_spec (s_teo a) (s_teo b)); [discriminate|].
    destruct (Z.ltb_spec (s_teo b) (s_teo a)); [reflexivity|].
    intros Hle. apply ltb_leb. apply leb_false_ltb; assumption.
  - apply string_compare_gt_lt in E. rewrite E. reflexivity.
Qed.

Lemma ranked_before_trans (a b c : Scored) :
  ranked_before a b = true -> ranked_before b c = true -> ranked_before a c = true.
Proof.
  unfold ranked_before.
  destruct (String.compare (s_ticker a) (s_ticker b)) eqn:Eab; try discriminate;
    destruct (String.compare (s_ticker b) (s_ticker c)) eqn:Ebc; try discriminate.
  - apply string_compare_eq in Eab, Ebc. rewrite Eab, Ebc, string_compare_refl.
    destruct (Z.ltb_spec (s_teo a) (s_teo b)), (Z.ltb_spec (s_teo b) (s_teo c)),
      (Z.ltb_spec (s_teo b) (s_teo a)), (Z.ltb_spec (s_teo c) (s_teo b)),
      (Z.ltb_spec (s_teo a) (s_teo c)), (Z.ltb_spec (s_teo c) (s_teo a));
      try lia; try discriminate; try reflexivity.
    intros Hbc Hab. eapply leb_trans; eassumption.
  - apply string_compare_eq in Eab. rewrite Eab, Ebc. reflexivity.
  - apply string_compare_eq in Ebc. rewrite <- Ebc, Eab. reflexivity.
  - rewrite (string_compare_lt_trans _ _ _ Eab Ebc). reflexivity.
Qed.

Lemma insert_ranked_In (x y : Scored) (l : list Scored) :
  In y (insert_ranked x l) <-> y = x \/ In y l.
Proof.
  induction l as [|z l IH]; cbn [insert_ranked].
  - cbn [In]. intuition auto.
  - destruct (ranked_before x z); cbn [In].
    + intuition auto.
    + rewrite IH. intuition auto.
Qed.

Lemma sort_values_In (df : list Scored) (y : Scored) :
  In y (sort_values df) <-> In y df.
Proof.
  unfold sort_values. induction df as [|x df IH]; cbn [fold_right In]; [tauto|].
  rewrite insert_ranked_In, IH. intuition auto.
Qed.

Lemma insert_ranked_sorted (x : Scored) (l : list Scored) :
  scored x -> Forall scored l ->
  StronglySorted (fun a b => ranked_before a b = true) l ->
  StronglySorted (fun a b => ranked_before a b = true) (insert_ranked x l).
Proof.
  intros Hx Hl Hs. induction Hs as [|z l Hs IH Hz]; cbn [insert_ranked].
  - constructor; constructor.
  - inversion Hl as [|? ? Hzs Hl']; subst.
    destruct (ranked_before x z) eqn:E.
    + constructor; [constructor; assumption|].
      constructor; [exact E|].
      rewrite Forall_forall in Hz |- *. intros y Hy.
      eapply ranked_before_trans; [exact E|]. apply Hz, Hy.
    + constructor; [apply IH, Hl'|].
      rewrite Forall_forall in Hz |- *. intros y Hy.
      apply insert_ranked_In in Hy. destruct Hy as [->|Hy]; [|apply Hz, Hy].
      apply ranked_before_total; assumption.
Qed.

Lemma sort_values_sorted (df : list Scored) :
  Forall scored df ->
  StronglySorted (fun a b => ranked_before a b = true) (sort_values df).
Proof.
  unfold sort_values. induction 1 as [|x df Hx Hdf IH]; cbn [fold_right]; [constructor|].
  apply insert_ranked_sorted; [exact Hx| |exact IH].
  rewrite Forall_forall in Hdf |- *. intros y Hy.
  apply Hdf. apply (sort_values_In df y). exact Hy.
Qed.

Lemma same_ticker_teo_eq (a b : Scored) :
  same_ticker_teo a b = true <-> s_ticker a = s_ticker b /\ s_teo a = s_teo b.
Proof.
  unfold same_ticker_teo. rewrite andb_true_iff, String.eqb_eq, Z.eqb_eq. tauto.
Qed.

Lemma all_styles (s : Style) : In s style_columns.
Proof. destruct s; cbn; tauto. Qed.

Lemma style_melted_In (style_df : list StyleRow) (r : Scored) :
  In r (style_melted style_df)
  <-> exists row, In row style_df
                  /\ r = mkScored (sr_teo row) (sr_ticker row) (s_style r)
                           (sr_score row (s_style r)).
Proof.
  unfold style_melted. rewrite in_flat_map. split.
  - intros (s & _ & Hr). apply in_map_iff in Hr. destruct Hr as (row & <- & Hrow).
    exists row. auto.
  - intros (row & Hrow & E). exists (s_style r). split; [apply all_styles|].
    apply in_map_iff. exists row. auto.
Qed.

End Ranking.

(** A row kept by [drop_duplicates] comes before every other row of the
    frame that is the same, when being the same is having the same
    key. *)
Lemma drop_duplicates_from_leads {A K : Type} (same : A -> A -> bool) (key : A -> K)
    (seen l : list A) (y : A) :
  (forall a b, same a b = true <-> key a = key b) ->
  In y (drop_duplicates_from same seen l) ->
  exists l1 l2, l = l1 ++ y :: l2 /\ forall x, In x l1 -> same x y = false.
Proof.
  intros Hkey. revert seen. induction l as [|a l IH]; intros seen Hy; [destruct Hy|].
  cbn [drop_duplicates_from] in Hy.
  destruct (existsb (same a) seen) eqn:E.
  - destruct (IH seen Hy) as (l1 & l2 & -> & Hl1).
    exists (a :: l1), l2. split; [reflexivity|]. intros x [<-|Hx]; [|apply Hl1, Hx].
    apply not_true_is_false. intros Hs.
    apply drop_duplicates_from_In in Hy. destruct Hy as (_ & Hny).
    apply existsb_exists in E. destruct E as (z & Hz & Haz).
    assert (Hyz : same y z = true).
    { apply Hkey. apply Hkey in Hs, Haz. congruence. }
    assert (existsb (same y) seen = true) by (apply existsb_exists; exists z; auto).
    congruence.
  - destruct Hy as [<-|Hy].
    + exists [], l. split; [reflexivity|]. intros x [].
    + destruct (IH (a :: seen) Hy) as (l1 & l2 & -> & Hl1).
      exists (a :: l1), l2. split; [reflexivity|]. intros x [<-|Hx]; [|apply Hl1, Hx].
      apply not_true_is_false. intros Hs.
      apply drop_duplicates_from_In in Hy. destruct Hy as (_ & Hny).
      cbn [existsb] in Hny. apply orb_false_iff in Hny. destruct Hny as (Hya & _).
      assert (same y a = true) by (apply Hkey; apply Hkey in Hs; congruence).
      congruence.
Qed.

Lemma drop_duplicates_same_eq {A K : Type} (same : A -> A -> bool) (key : A -> K)
    (l : list A) (a b : A) :
  (forall a b, same a b = true <-> key a = key b) ->
  In a (drop_duplicates same l) -> In b (drop_duplicates same l) ->
  same a b = true -> a = b.
Proof.
  intros Hkey Ha Hb Hs.
  pose proof (drop_duplicates_from_pairs same [] l) as Hp.
  destruct (ForallOrdPairs_In Hp a b Ha Hb) as [E|[H|H]]; [exact E| |].
  - assert (same b a = true) by (apply Hkey; apply Hkey in Hs; congruence). congruence.
  - congruence.
Qed.

(** X19.  Lines 384-397: of the scores that a ticker has on a date, NaN apart,
    [style_ranked] keeps exactly one row, and no score of the ticker on
    that date is higher than the one it keeps: the style of the row is
    the highest-scoring style. *)
Theorem style_ranked_is_the_top_style
    (style_df : list StyleTable.StyleRow) (row : StyleTable.StyleRow) (s : Style) :
  In row style_df ->
  is_nan (StyleTable.sr_score row s) = false ->
  exists r,
    In r (StyleTable.style_ranked style_df)
    /\ StyleTable.s_teo r = StyleTable.sr_teo row
    /\ StyleTable.s_ticker r = StyleTable.sr_ticker row
    /\ (StyleTable.sr_score row s <=? StyleTable.style_score r) = true
    /\ (exists top, In top style_df
                    /\ StyleTable.sr_teo top = StyleTable.sr_teo row
                    /\ StyleTable.sr_ticker top = StyleTable.sr_ticker row
                    /\ StyleTable.sr_score top (StyleTable.s_style r)
                       = StyleTable.style_score r)
    /\ (forall r', In r' (StyleTable.style_ranked style_df) ->
                   StyleTable.s_teo r' = StyleTable.sr_teo row ->
                   StyleTable.s_ticker r' = StyleTable.sr_ticker row -> r' = r).
Proof.
  intros Hrow Hscore.
  set (kept := filter (fun r => negb (is_nan (StyleTable.style_score r)))
                      (StyleTable.style_melted style_df)).
  set (sorted := StyleTable.sort_values kept).
  assert (Hkey : forall a b, StyleTable.same_ticker_teo a b = true
                             <-> (fun r => (StyleTable.s_ticker r, StyleTable.s_teo r)) a
                                 = (fun r => (StyleTable.s_ticker r, StyleTable.s_teo r)) b).
  { intros a b. rewrite same_ticker_teo_eq. cbn beta. split; [intros (-> & ->); reflexivity|].
    intros H. injection H as -> ->. auto. }
  assert (Hkept : Forall scored kept).
  { rewrite Forall_forall. intros r Hr. apply filter_In in Hr. destruct Hr as (_ & Hr).
    apply negb_true_iff in Hr. exact Hr. }
  pose (x := StyleTable.mkScored (StyleTable.sr_teo row) (StyleTable.sr_ticker row) s
               (StyleTable.sr_score row s)).
  assert (Hx : In x sorted).
  { apply sort_values_In. apply filter_In. split.
    - apply style_melted_In. exists row. auto.
    - cbn [x StyleTable.style_score]. rewrite Hscore. reflexivity. }
  assert (Hr : exists r, In r (StyleTable.style_ranked style_df)
                         /\ StyleTable.same_ticker_teo x r = true).
  { destruct (drop_duplicates_repr StyleTable.same_ticker_teo sorted x Hx) as [H|H].
    - exists x. split; [exact H|]. apply same_ticker_teo_eq. auto.
    - exact H. }
  destruct Hr as (r & Hr & Hxr).
  pose proof Hxr as Hxr'. apply same_ticker_teo_eq in Hxr'. destruct Hxr' as (Htk & Hteo).
  cbn [x StyleTable.s_ticker StyleTable.s_teo] in Htk, Hteo.
  exists r. split; [exact Hr|]. split; [auto|]. split; [auto|]. split; [|split].
  - destruct (drop_duplicates_from_leads StyleTable.same_ticker_teo _ [] sorted r Hkey Hr)
      as (l1 & l2 & Hsplit & Hl1).
    assert (Hpos : x = r \/ In x l2).
    { rewrite Hsplit in Hx. apply in_app_or in Hx. destruct Hx as [Hx|[Hx|Hx]]; auto.
      rewrite (Hl1 x Hx) in Hxr. discriminate. }
    assert (Hrs : scored r).
    { rewrite Forall_forall in Hkept. apply Hkept.
      apply (sort_values_In kept r). apply drop_duplicates_In in Hr. exact Hr. }
    destruct Hpos as [E|Hin].
    + rewrite <- E. cbn [x StyleTable.style_score]. apply leb_refl. exact Hscore.
    + pose proof (sort_values_sorted kept Hkept) as Hsorted. fold sorted in Hsorted.
      rewrite Hsplit in Hsorted. apply BucketFacts.strongly_sorted_middle in Hsorted.
      rewrite Forall_forall in Hsorted. specialize (Hsorted x Hin). cbn beta in Hsorted.
      unfold StyleTable.ranked_before in Hsorted.
      cbn [x StyleTable.s_ticker StyleTable.s_teo StyleTable.style_score] in Hsorted.
      rewrite <- Htk, <- Hteo, string_compare_refl, Z.ltb_irrefl in Hsorted. exact Hsorted.
  - apply drop_duplicates_In in Hr. apply (sort_values_In kept r) in Hr.
    apply filter_In in Hr. destruct Hr as (Hr & _).
    apply style_melted_In in Hr. destruct Hr as (top & Htop & E).
    exists top. rewrite E in Htk, Hteo. cbn [StyleTable.s_ticker StyleTable.s_teo] in Htk, Hteo.
    split; [exact Htop|]. split; [auto|]. split; [auto|].
    rewrite E at 2. reflexivity.
  - intros r' Hr' Hteo' Htk'.
    apply (drop_duplicates_same_eq StyleTable.same_ticker_teo _ sorted r' r Hkey Hr' Hr).
    apply same_ticker_teo_eq. split; congruence.
Qed.

Lemma min_teo_spec (x : StyleTable.Scored) (rest : list StyleTable.Scored) :
  In (StyleTable.min_teo x rest) (map StyleTable.s_teo (x :: rest))
  /\ forall r, In r (x :: rest) -> (StyleTable.min_teo x rest <= StyleTable.s_teo r)%Z.
Proof.
  unfold StyleTable.min_teo.
  assert (H : forall l m,
             (fold_left (fun m r => Z.min m (StyleTable.s_teo r)) l m = m
              \/ In (fold_left (fun m r => Z.min m (StyleTable.s_teo r)) l m)
                    (map StyleTable.s_teo l))
             /\ (fold_left (fun m r => Z.min m (StyleTable.s_teo r)) l m <= m)%Z
             /\ forall r, In r l ->
                  (fold_left (fun m r => Z.min m (StyleTable.s_teo r)) l m
                   <= StyleTable.s_teo r)%Z).
  { induction l as [|y l IH]; intros m; cbn [fold_left map In].
    - split; [left; reflexivity|]. split; [lia|]. intros r [].
    - destruct (IH (Z.min m (StyleTable.s_teo y))) as (H1 & H2 & H3).
      split; [|split].
      + destruct H1 as [H1|H1]; [|right; right; exact H1].
        rewrite H1. destruct (Z.min_spec m (StyleTable.s_teo y)) as [(_ & ->)|(_ & ->)];
          [left; reflexivity|right; left; reflexivity].
      + lia.
      + intros r [<-|Hr]; [lia|apply H3, Hr]. }
  destruct (H rest (StyleTable.s_teo x)) as (H1 & H2 & H3).
  split.
  - cbn [map In]. destruct H1 as [H1|H1]; [left; symmetry; exact H1|right; exact H1].
  - intros r [<-|Hr]; [exact H2|apply H3, Hr].
Qed.

Lemma max_teo_spec (x : StyleTable.Scored) (rest : list StyleTable.Scored) :
  In (StyleTable.max_teo x rest) (map StyleTable.s_teo (x :: rest))
  /\ forall r, In r (x :: rest) -> (StyleTable.s_teo r <= StyleTable.max_teo x rest)%Z.
Proof.
  unfold StyleTable.max_teo.
  assert (H : forall l m,
             (fold_left (fun m r => Z.max m (StyleTable.s_teo r)) l m = m
              \/ In (fold_left (fun m r => Z.max m (StyleTable.s_teo r)) l m)
                    (map StyleTable.s_teo l))
             /\ (m <= fold_left (fun m r => Z.max m (StyleTable.s_teo r)) l m)%Z
             /\ forall r, In r l ->
                  (StyleTable.s_teo r
                   <= fold_left (fun m r => Z.max m (StyleTable.s_teo r)) l m)%Z).
  { induction l as [|y l IH]; intros m; cbn [fold_left map In].
    - split; [left; reflexivity|]. split; [lia|]. intros r [].
    - destruct (IH (Z.max m (StyleTable.s_teo y))) as (H1 & H2 & H3).
      split; [|split].
      + destruct H1 as [H1|H1]; [|right; right; exact H1].
        rewrite H1. destruct (Z.max_spec m (StyleTable.s_teo y)) as [(_ & ->)|(_ & ->)];
          [right; left; reflexivity|left; reflexivity].
      + lia.
      + intros r [<-|Hr]; [lia|apply H3, Hr]. }
  destruct (H rest (StyleTable.s_teo x)) as (H1 & H2 & H3).
  split.
  - cbn [map In]. destruct H1 as [H1|H1]; [left; symmetry; exact H1|right; exact H1].
  - intros r [<-|Hr]; [exact H2|apply H3, Hr].
Qed.

(** The days of a range, one after the other. *)
Lemma date_range_cons (first last : date) :
  (first <= last)%Z ->
  StyleTable.date_range first last = first :: StyleTable.date_range (first + 1)%Z last.
Proof.
  intros H. unfold StyleTable.date_range.
  replace (Z.to_nat (last - first + 1)) with (S (Z.to_nat (last - (first + 1) + 1))) by lia.
  cbn [seq map]. f_equal; [lia|].
  rewrite <- seq_shift, map_map. apply map_ext. intros i. lia.
Qed.

Lemma date_range_nil (first last : date) :
  (last < first)%Z -> StyleTable.date_range first last = [].
Proof.
  intros H. unfold StyleTable.date_range.
  replace (Z.to_nat (last - first + 1)) with 0%nat by lia. reflexivity.
Qed.

Section ForwardFill.
Variable cell : date -> option Style.
Variable tk : string.

Lemma filled_on_range (n : nat) :
  forall (first last : date) (carried : option Style) (d : date),
    Z.to_nat (last - first + 1) = n ->
    filled_on cell tk (StyleTable.date_range first last) carried d
    = if ((first <=? d) && (d <=? last))%Z
      then match cell d with
           | Some s => Some s
           | None => if (d =? first)%Z then carried
                     else filled_on cell tk (StyleTable.date_range first last) carried (d - 1)%Z
           end
      else None.
Proof.
  induction n as [|n IH]; intros first last carried d Hn.
  - rewrite date_range_nil by lia. unfold filled_on. cbn [map StyleTable.ffill combine find].
    destruct (Z.leb_spec first d), (Z.leb_spec d last); cbn [andb]; try reflexivity. lia.
  - assert (Hle : (first <= last)%Z) by lia.
    rewrite (date_range_cons first last Hle).
    unfold filled_on at 1. cbn [map StyleTable.ffill combine find fst snd].
    rewrite String.eqb_refl. cbn [andb].
    destruct (Z.eqb_spec first d) as [<-|Hne].
    + cbn [snd]. rewrite Z.leb_refl. destruct (Z.leb_spec first last); [|lia]. cbn [andb].
      rewrite Z.eqb_refl. destruct (cell first); reflexivity.
    + fold (filled_on cell tk (StyleTable.date_range (first + 1)%Z last)
              (match cell first with Some s => Some s | None => carried end) d).
      rewrite (IH (first + 1)%Z last _ d) by lia.
      destruct (Z.leb_spec (first + 1) d), (Z.leb_spec d last), (Z.leb_spec first d);
        cbn [andb]; try reflexivity; try lia.
      destruct (cell d) as [s|]; [reflexivity|].
      destruct (Z.eqb_spec d first); [lia|].
      destruct (Z.eqb_spec d (first + 1)) as [->|Hne1].
      * unfold filled_on at 1. cbn [map StyleTable.ffill combine find fst snd].
        rewrite String.eqb_refl. replace (first + 1 - 1)%Z with first by lia.
        rewrite Z.eqb_refl. cbn [andb snd]. reflexivity.
      * unfold filled_on at 2. cbn [map StyleTable.ffill combine find fst snd].
        rewrite String.eqb_refl. cbn [andb].
        destruct (Z.eqb_spec first (d - 1)); [lia|]. reflexivity.
Qed.

End ForwardFill.

Lemma find_app_first {A : Type} (p : A -> bool) (l1 l2 : list A) :
  find p (l1 ++ l2) = match find p l1 with Some x => Some x | None => find p l2 end.
Proof.
  induction l1 as [|a l1 IH]; [reflexivity|]. cbn [app find].
  destruct (p a); [reflexivity|exact IH].
Qed.

Lemma find_other_block (tk tk' : string) (d : date) (days : list date)
    (vals : list (option Style)) :
  tk' <> tk ->
  find (fun row : string * date * option Style =>
          String.eqb (fst (fst row)) tk && Z.eqb (snd (fst row)) d)
       (combine (map (pair tk') days) vals) = None.
Proof.
  intros Hne. revert vals. induction days as [|a days IH]; intros [|v vals];
    cbn [map combine find fst snd]; try reflexivity.
  destruct (String.eqb_spec tk' tk); [contradiction|]. cbn [andb]. apply IH.
Qed.

Lemma reindexed_In (ranked : list StyleTable.Scored) (tk : string) (d : date) (s : Style) :
  StyleTable.reindexed ranked tk d = Some s ->
  exists r, In r ranked /\ StyleTable.s_ticker r = tk /\ StyleTable.s_teo r = d
            /\ StyleTable.s_style r = s.
Proof.
  unfold StyleTable.reindexed.
  destruct (find _ ranked) as [r|] eqn:E; [|discriminate].
  cbn [option_map]. intros H. injection H as <-.
  apply find_some in E. destruct E as (Hin & Hp).
  apply andb_true_iff in Hp. destruct Hp as (H1 & H2).
  apply String.eqb_eq in H1. apply Z.eqb_eq in H2. exists r. auto.
Qed.

Lemma reindexed_unknown_ticker (ranked : list StyleTable.Scored) (tk : string) (d : date) :
  existsb (String.eqb tk) (StyleTable.tickers_of ranked) = false ->
  StyleTable.reindexed ranked tk d = None.
Proof.
  intros H. destruct (StyleTable.reindexed ranked tk d) as [s|] eqn:E; [|reflexivity].
  exfalso. apply reindexed_In in E. destruct E as (r & Hr & Htk & _).
  assert (Hin : In tk (map StyleTable.s_ticker ranked)).
  { rewrite <- Htk. apply in_map. exact Hr. }
  assert (Hex : existsb (String.eqb tk) (StyleTable.tickers_of ranked) = true).
  { apply existsb_exists. unfold StyleTable.tickers_of.
    destruct (drop_duplicates_repr String.eqb _ tk Hin) as [Hd|(y & Hy & Hs)].
    - exists tk. split; [exact Hd|apply String.eqb_refl].
    - exists y. auto. }
  congruence.
Qed.

Lemma style_daily_rows_find (ranked : list StyleTable.Scored) (days : list date)
    (tk : string) (d : date) (tickers : list string) :
  match find (fun row : string * date * option Style =>
                String.eqb (fst (fst row)) tk && Z.eqb (snd (fst row)) d)
             (flat_map
                (fun tk' => combine (map (pair tk') days)
                              (StyleTable.ffill None
                                 (map (StyleTable.reindexed ranked tk') days)))
                tickers) with
  | Some row => snd row
  | None => None
  end
  = if existsb (String.eqb tk) tickers
    then filled_on (StyleTable.reindexed ranked tk) tk days None d
    else None.
Proof.
  induction tickers as [|a tickers IH]; [reflexivity|].
  cbn [flat_map existsb]. rewrite find_app_first.
  destruct (String.eqb_spec tk a) as [<-|Hne]; cbn [orb].
  - unfold filled_on.
    destruct (find _ (combine (map (pair tk) days) _)) as [row|] eqn:E; [reflexivity|].
    rewrite IH. unfold filled_on. rewrite E.
    destruct (existsb (String.eqb tk) tickers); reflexivity.
  - rewrite find_other_block by congruence. exact IH.
Qed.

(** X20.  Lines 399-425: [style_daily] covers the days from the first to the
    last date of [style_ranked].  On a day of that range a ticker has
    the style of its ranked row of the day, if there is one, and
    otherwise the style that it has on the day before (none on the
    first day); outside the range it has none, so a style is not
    carried beyond the last date of the style table. *)
Theorem style_daily_is_forward_filled
    (style_df : list StyleTable.StyleRow) (f : date -> string -> option Style) :
  StyleTable.style_daily style_df = Some f ->
  let ranked := StyleTable.style_ranked style_df in
  exists first last,
    In first (map StyleTable.s_teo ranked)
    /\ In last (map StyleTable.s_teo ranked)
    /\ (forall r, In r ranked -> (first <= StyleTable.s_teo r <= last)%Z)
    /\ (forall d tk,
           f d tk
           = if ((first <=? d) && (d <=? last))%Z
             then match StyleTable.reindexed ranked tk d with
                  | Some s => Some s
                  | None => if (d =? first)%Z then None else f (d - 1)%Z tk
                  end
             else None)
    /\ (forall d tk s,
           StyleTable.reindexed ranked tk d = Some s
           <-> exists r, In r ranked /\ StyleTable.s_ticker r = tk
                         /\ StyleTable.s_teo r = d /\ StyleTable.s_style r = s).
Proof.
  intros Hf ranked. unfold StyleTable.style_daily in Hf. fold ranked in Hf.
  destruct ranked as [|x rest] eqn:Er; [discriminate|]. rewrite <- Er in *.
  injection Hf as Hf.
  exists (StyleTable.min_teo x rest), (StyleTable.max_teo x rest).
  destruct (min_teo_spec x rest) as (Hmin1 & Hmin2).
  destruct (max_teo_spec x rest) as (Hmax1 & Hmax2).
  rewrite <- Er in Hmin1, Hmin2, Hmax1, Hmax2.
  split; [exact Hmin1|]. split; [exact Hmax1|].
  split; [intros r Hr; split; [apply Hmin2, Hr|apply Hmax2, Hr]|].
  set (first := StyleTable.min_teo x rest) in *.
  set (last := StyleTable.max_teo x rest) in *.
  assert (Hval : forall d tk,
             f d tk = if existsb (String.eqb tk) (StyleTable.tickers_of ranked)
                      then filled_on (StyleTable.reindexed ranked tk) tk
                             (StyleTable.date_range first last) None d
                      else None).
  { intros d tk. rewrite <- Hf. unfold StyleTable.style_daily_rows.
    apply style_daily_rows_find. }
  split.
  - intros d tk. rewrite !Hval.
    destruct (existsb (String.eqb tk) (StyleTable.tickers_of ranked)) eqn:Etk.
    + apply (filled_on_range (StyleTable.reindexed ranked tk) tk
               (Z.to_nat (last - first + 1)) first last None d eq_refl).
    + rewrite (reindexed_unknown_ticker ranked tk d Etk).
      destruct ((first <=? d) && (d <=? last))%Z; [|reflexivity].
      destruct (d =? first)%Z; reflexivity.
  - intros d tk s. split; [apply reindexed_In|].
    intros (r & Hr & Htk & Hteo & Hs).
    unfold StyleTable.reindexed.
    destruct (find _ ranked) as [r'|] eqn:E.
    + apply find_some in E. destruct E as (Hin & Hp).
      apply andb_true_iff in Hp. destruct Hp as (H1 & H2).
      apply String.eqb_eq in H1. apply Z.eqb_eq in H2.
      assert (Heq : r' = r).
      { unfold ranked, StyleTable.style_ranked in Hin, Hr.
        eapply (drop_duplicates_same_eq StyleTable.same_ticker_teo
                  (fun r => (StyleTable.s_ticker r, StyleTable.s_teo r)));
          [|exact Hin|exact Hr|apply same_ticker_teo_eq; split; congruence].
        intros a b. rewrite same_ticker_teo_eq. cbn beta.
        split; [intros (-> & ->); reflexivity|]. intros H. injection H as -> ->. auto. }
      rewrite Heq. cbn [option_map]. rewrite Hs. reflexivity.
    + exfalso. apply (find_none _ _ E) in Hr.
      rewrite Htk, Hteo, String.eqb_refl, Z.eqb_refl in Hr. discriminate.
Qed.

(** Lines 365-376: [first_valid_ticker] gives the first value of the
    row that is a string with something else than whitespace in it, and
    None when the row has no such value (the symbol is then left out of
    the style table). *)
Theorem first_valid_ticker_is_the_first_valid (row : list (option string)) :
  match StyleTable.first_valid_ticker row with
  | Some s =>
      exists before after,
        row = before ++ Some s :: after
        /\ valid_ticker (Some s) = true
        /\ Forall (fun val => valid_ticker val = false) before
  | None => Forall (fun val => valid_ticker val = false) row
  end.
Proof.
  induction row as [|val rest IH]; cbn [StyleTable.first_valid_ticker]; [constructor|].
  destruct val as [s|].
  - destruct (negb (String.eqb (strip s) "")) eqn:E.
    + exists [], rest. split; [reflexivity|]. split; [exact E|constructor].
    + destruct (StyleTable.first_valid_ticker rest) as [t|].
      * destruct IH as (before & after & -> & Hv & Hb).
        exists (Some s :: before), after. split; [reflexivity|]. split; [exact Hv|].
        constructor; [exact E|exact Hb].
      * constructor; [exact E|exact IH].
  - destruct (StyleTable.first_valid_ticker rest) as [t|].
    + destruct IH as (before & after & -> & Hv & Hb).
      exists (None :: before), after. split; [reflexivity|]. split; [exact Hv|].
      constructor; [reflexivity|exact Hb].
    + constructor; [reflexivity|exact IH].
Qed.

Example blank_tickers_are_passed_over :
  StyleTable.first_valid_ticker [None; Some "  "; Some ""; Some "AAA"; Some "BBB"]
  = Some "AAA".
Proof. reflexivity. Qed.

Lemma style_ranked_is_the_top_style_witness :
  exists r,
    In r (StyleTable.style_ranked small_style_df)
    /\ StyleTable.s_teo r = 1%Z
    /\ StyleTable.s_ticker r = "AAA"
    /\ (0.5 <=? StyleTable.style_score r) = true
    /\ (exists top, In top small_style_df
                    /\ StyleTable.sr_teo top = 1%Z
                    /\ StyleTable.sr_ticker top = "AAA"
                    /\ StyleTable.sr_score top (StyleTable.s_style r)
                       = StyleTable.style_score r)
    /\ (forall r', In r' (StyleTable.style_ranked small_style_df) ->
                   StyleTable.s_teo r' = 1%Z ->
                   StyleTable.s_ticker r' = "AAA" -> r' = r).
Proof.
  apply (style_ranked_is_the_top_style small_style_df
           (StyleTable.mkStyleRow 1%Z "AAA" (scores [(Growth, 0.9); (Value, 0.5)])) Value).
  - left. reflexivity.
  - reflexivity.
Defined.

Lemma small_style_daily_is_the_table :
  StyleTable.style_daily small_style_df = Some small_style_daily.
Proof.
  unfold small_style_daily.
  destruct (StyleTable.style_daily small_style_df) eqn:E; [reflexivity|].
  vm_compute in E. discriminate.
Qed.

Lemma style_daily_is_forward_filled_witness :
  let ranked := StyleTable.style_ranked small_style_df in
  exists first last,
    In first (map StyleTable.s_teo ranked)
    /\ In last (map StyleTable.s_teo ranked)
    /\ (forall r, In r ranked -> (first <= StyleTable.s_teo r <= last)%Z)
    /\ (forall d tk,
           small_style_daily d tk
           = if ((first <=? d) && (d <=? last))%Z
             then match StyleTable.reindexed ranked tk d with
                  | Some s => Some s
                  | None => if (d =? first)%Z then None else small_style_daily (d - 1)%Z tk
                  end
             else None)
    /\ (forall d tk s,
           StyleTable.reindexed ranked tk d = Some s
           <-> exists r, In r ranked /\ StyleTable.s_ticker r = tk
                         /\ StyleTable.s_teo r = d /\ StyleTable.s_style r = s).
Proof.
  exact (style_daily_is_forward_filled small_style_df small_style_daily
           small_style_daily_is_the_table).
Defined.

(** AAA is Growth on day 1, still Growth on day 2, Value on day 3; BBB
    has no style before day 2; nobody has a style on day 4. *)
Example styles_of_the_small_table :
  map (fun d => (small_style_daily d "AAA", small_style_daily d "BBB")) [1; 2; 3; 4]%Z
  = [ (Some Growth, None); (Some Growth, Some Yield); (Some Value, Some Yield);
      (None, None) ].
Proof. vm_compute. reflexivity. Qed.

Open Scope string_scope.

Lemma upload_paths_are_not_left :
  ~ left_by_the_pipeline Upload.get_local_zarr_path
  /\ ~ left_by_the_pipeline Upload.get_aggregated_iv_zarr_path.
Proof.
  split; intros (store & Hs & H);
    repeat (destruct Hs as [<-|Hs]); try destruct Hs;
    destruct H as [H|[(rest & H)|(rest & H)]]; discriminate H.
Qed.

(** X21.  [4_upload_to_gc.py], lines 42-48, 61-65 and 118-122, against lines
    60-61 and 549 of [3_produce_iv_dataset_full.py]: the two paths that
    the upload looks for are not the paths of the stores that the
    production step reads and writes.  In a working directory that
    holds nothing but those stores, both uploads stop at 'not found':
    no rsync is run and the exit code is 1. *)
Theorem upload_does_not_find_what_the_pipeline_writes (w : Upload.World) :
  (forall p, Upload.path_exists w p = true -> left_by_the_pipeline p) ->
  Upload.main w = (1%Z, []).
Proof.
  intros Honly.
  destruct upload_paths_are_not_left as (H1 & H2).
  assert (E1 : Upload.path_exists w Upload.get_local_zarr_path = false).
  { apply not_true_is_false. intros H. apply H1, Honly, H. }
  assert (E2 : Upload.path_exists w Upload.get_aggregated_iv_zarr_path = false).
  { apply not_true_is_false. intros H. apply H2, Honly, H. }
  unfold Upload.main, Upload.upload_to_gcp, Upload.upload_surface_curve_to_gcp,
    Upload.upload_aggregated_iv_to_gcp, Upload.upload_store.
  rewrite E1, E2. destruct (Upload.config w); reflexivity.
Qed.

Lemma upload_store_cases (w : Upload.World) (p name : string) :
  Upload.upload_store w p name = (false, [])
  \/ exists c,
       Upload.config w = Some c
       /\ Upload.upload_store w p name
          = (Upload.rsync_ok w p (destination c name), [(p, destination c name)]).
Proof.
  unfold Upload.upload_store, destination.
  destruct (Upload.config w) as [c|]; [|left; reflexivity].
  destruct (Upload.path_exists w p), (Upload.gcs_available w); cbn [negb];
    try (left; reflexivity).
  destruct (Upload.gcs_ls w _); [right; exists c; split; reflexivity ..|left; reflexivity].
Qed.

(** X22.  Lines 164-172 and 174-190 of [4_upload_to_gc.py]: the second upload
    is attempted whatever the first did, and the exit code is 0 exactly
    when both stores were handed to [gsutil rsync] and both commands
    returned 0. *)
Theorem both_uploads_are_attempted (w : Upload.World) :
  snd (Upload.main w)
  = (snd (Upload.upload_surface_curve_to_gcp w)
     ++ snd (Upload.upload_aggregated_iv_to_gcp w))%list
  /\ (fst (Upload.main w) = 0%Z
      <-> exists c,
            Upload.config w = Some c
            /\ snd (Upload.main w)
               = [ (Upload.get_local_zarr_path,
                    destination c "surface_curve_history_combined.zarr");
                   (Upload.get_aggregated_iv_zarr_path,
                    destination c "aggregated_iv_cross_with_totals.zarr") ]
            /\ forallb (fun r => Upload.rsync_ok w (fst r) (snd r)) (snd (Upload.main w))
               = true).
Proof.
  unfold Upload.main, Upload.upload_to_gcp,
    Upload.upload_surface_curve_to_gcp, Upload.upload_aggregated_iv_to_gcp.
  destruct (upload_store_cases w Upload.get_local_zarr_path
              "surface_curve_history_combined.zarr") as [-> | (c1 & Hc1 & ->)];
    destruct (upload_store_cases w Upload.get_aggregated_iv_zarr_path
                "aggregated_iv_cross_with_totals.zarr") as [-> | (c2 & Hc2 & ->)];
    cbn [fst snd app andb]; (split; [reflexivity|]);
    try (split; [discriminate|intros (c & _ & H & _); discriminate H]).
  - rewrite andb_false_r.
    split; [discriminate|intros (c & _ & H & _); discriminate H].
  - rewrite Hc1 in Hc2. injection Hc2 as <-.
    split.
    + intros H. exists c1. split; [exact Hc1|]. split; [reflexivity|].
      cbn [forallb fst snd]. rewrite andb_true_r.
      destruct (Upload.rsync_ok w Upload.get_local_zarr_path _),
        (Upload.rsync_ok w Upload.get_aggregated_iv_zarr_path _);
        first [reflexivity | discriminate H].
    + intros (c & Hc & _ & H). cbn [forallb fst snd] in H.
      rewrite andb_true_r in H. rewrite H. reflexivity.
Qed.

Open Scope list_scope.
Open Scope float_scope.

Open Scope string_scope.

Lemma present_iff (local : list string) (name : string) :
  existsb (String.eqb name) local = true <-> In name local.
Proof.
  rewrite existsb_exists. split.
  - intros (x & Hx & E). apply String.eqb_eq in E. subst x. exact Hx.
  - intros H. exists name. split; [exact H|apply String.eqb_refl].
Qed.

Lemma dated_zip_files_In (objects : list Download.S3Object) (files : list Download.FileInfo)
  (f : Download.FileInfo) :
  Download.dated_zip_files objects = Some files -> In f files ->
  In (Download.key f) (map Download.Key objects)
  /\ endswith (Download.key f) ".zip" = true
  /\ Download.filename f = Download.key_filename (Download.key f)
  /\ key_date (Download.key f) = Some (Download.date f).
Proof.
  revert files. induction objects as [|obj rest IH]; intros files E Hin.
  - injection E as <-. destruct Hin.
  - cbn [Download.dated_zip_files] in E. cbn [map].
    destruct (endswith (Download.Key obj) ".zip") eqn:Ez.
    + destruct (search_date (Download.key_filename (Download.Key obj))) as [m|] eqn:Es.
      * destruct (strptime_date m) as [d|] eqn:Ed; [|discriminate E].
        destruct (Download.dated_zip_files rest) as [files'|]; [|discriminate E].
        injection E as <-. destruct Hin as [<-|Hin].
        -- cbn. split; [left; reflexivity|]. split; [exact Ez|]. split; [reflexivity|].
           unfold key_date. rewrite Es. exact Ed.
        -- destruct (IH files' eq_refl Hin) as (H1 & H2). split; [right; exact H1|exact H2].
      * destruct (IH files E Hin) as (H1 & H2). split; [right; exact H1|exact H2].
    + destruct (IH files E Hin) as (H1 & H2). split; [right; exact H1|exact H2].
Qed.

Lemma files_to_download_In (w : Download.World) (ds : Download.DatasetInfo)
  (files : list Download.FileInfo) (f : Download.FileInfo) :
  files_to_download w ds = Some files -> In f files ->
  In (Download.key f)
    (map Download.Key
       (Download.contents (Download.listing w (Download.bucket ds) (Download.path ds))))
  /\ endswith (Download.key f) ".zip" = true
  /\ Download.filename f = Download.key_filename (Download.key f)
  /\ key_date (Download.key f) = Some (Download.date f)
  /\ in_date_range ds (Download.date f).
Proof.
  unfold files_to_download, Download.list_available_files.
  set (l := Download.listing w _ _).
  destruct (Download.dated_zip_files (Download.contents l)) as [all|] eqn:E; [|discriminate].
  assert (K : forall g, In g (if Download.client_error l then [] else all) ->
                        In g all).
  { destruct (Download.client_error l); [intros g []|auto]. }
  destruct (if Download.client_error l then [] else all) as [|f0 fs] eqn:El.
  - intros H. injection H as <-. intros [].
  - unfold in_date_range.
    destruct (Download.start_date ds) as [|first|], (Download.end_date ds) as [|final|];
      intros H Hin; try discriminate H;
      apply (f_equal (fun o => match o with Some x => In f x | None => True end)) in H;
      rewrite <- H in Hin; clear H;
      try (apply filter_In in Hin as (Hin & Hr); apply andb_true_iff in Hr as (Hr1 & Hr2));
      destruct (dated_zip_files_In _ _ _ E (K _ Hin)) as (H1 & H2 & H3 & H4);
      (split; [exact H1|]); (split; [exact H2|]); (split; [exact H3|]);
      (split; [exact H4|]); intros a b A B; try discriminate A; try discriminate B.
    injection A as <-. injection B as <-. split; assumption.
Qed.

Lemma process_dataset_files (w : Download.World) (local : list string)
  (ds : Download.DatasetInfo) :
  Download.process_dataset w local ds
  = match files_to_download w ds with
    | None => Download.Raised
    | Some files =>
        let '(successful_downloads, local', calls) :=
          Download.download_files w local (Download.bucket ds) files in
        Download.Done local' calls successful_downloads
    end.
Proof.
  unfold Download.process_dataset, files_to_download.
  destruct (Download.list_available_files _) as [[|f fs]|]; reflexivity.
Qed.

Lemma download_files_spec (w : Download.World) (b : string)
  (files : list Download.FileInfo) (local : list string) :
  let '(_, local', calls) := Download.download_files w local b files in
  incl local local'
  /\ (forall c, In c calls ->
        exists f, In f files /\ c = (b, Download.key f)
                  /\ ~ In (Download.filename f) local)
  /\ ((forall k, Download.fetch_ok w b k = true) ->
      forall f, In f files -> In (Download.filename f) local')
  /\ ((forall f, In f files -> In (Download.filename f) local) ->
      local' = local /\ calls = []).
Proof.
  revert local. induction files as [|f rest IH]; intros local.
  - cbn. split; [apply incl_refl|]. split; [intros c []|]. split; [intros _ g []|].
    intros _. split; reflexivity.
  - cbn [Download.download_files]. unfold Download.download_file.
    destruct (existsb (String.eqb (Download.filename f)) local) eqn:Ep.
    + specialize (IH local).
      destruct (Download.download_files w local b rest) as [[n l2] c2].
      destruct IH as (I1 & I2 & I3 & I4). cbn [app].
      split; [exact I1|]. split; [|split].
      * intros c Hc. destruct (I2 c Hc) as (g & Hg & E & Hn).
        exists g. split; [right; exact Hg|]. split; assumption.
      * intros Hok g [<-|Hg]; [apply I1, present_iff, Ep|apply (I3 Hok g Hg)].
      * intros Hall. apply I4. intros g Hg. apply Hall. right. exact Hg.
    + assert (Hnot : ~ In (Download.filename f) local).
      { intros H. apply present_iff in H. rewrite H in Ep. discriminate Ep. }
      destruct (Download.fetch_ok w b (Download.key f)) eqn:Ef.
      * specialize (IH (local ++ [Download.filename f])%list).
        destruct (Download.download_files w _ b rest) as [[n l2] c2].
        destruct IH as (I1 & I2 & I3 & I4). cbn [app].
        split; [intros x Hx; apply I1, in_or_app; left; exact Hx|]. split; [|split].
        -- intros c [<-|Hc].
           ++ exists f. split; [left; reflexivity|]. split; [reflexivity|exact Hnot].
           ++ destruct (I2 c Hc) as (g & Hg & E & Hn).
              exists g. split; [right; exact Hg|]. split; [exact E|].
              intros H. apply Hn, in_or_app. left. exact H.
        -- intros Hok g [<-|Hg]; [|apply (I3 Hok g Hg)].
           apply I1, in_or_app. right. left. reflexivity.
        -- intros Hall. exfalso. apply Hnot, Hall. left. reflexivity.
      * specialize (IH local).
        destruct (Download.download_files w local b rest) as [[n l2] c2].
        destruct IH as (I1 & I2 & I3 & I4). cbn [app].
        split; [exact I1|]. split; [|split].
        -- intros c [<-|Hc].
           ++ exists f. split; [left; reflexivity|]. split; [reflexivity|exact Hnot].
           ++ destruct (I2 c Hc) as (g & Hg & E & Hn).
              exists g. split; [right; exact Hg|]. split; assumption.
        -- intros Hok. rewrite Hok in Ef. discriminate Ef.
        -- intros Hall. exfalso. apply Hnot, Hall. left. reflexivity.
Qed.

Lemma main_is_a_fold (w : Download.World) (datasets : list (string * Download.DatasetInfo))
  (local : list string) :
  Download.main w datasets local
  = if negb (Download.credentials_ok w) then (local, [])
    else fold_left (main_step w) (Download.get_datasets_from_config datasets) (local, []).
Proof. reflexivity. Qed.

Lemma get_datasets_from_config_In (datasets : list (string * Download.DatasetInfo))
  (entry : string * Download.DatasetInfo) :
  In entry (Download.get_datasets_from_config datasets)
  <-> In entry datasets /\ fst entry <> "process_list"
      /\ Download.enabled (snd entry) = true.
Proof.
  unfold Download.get_datasets_from_config. rewrite filter_In, andb_true_iff, negb_true_iff.
  rewrite String.eqb_neq. tauto.
Qed.

Lemma fold_main_step_spec (w : Download.World) (entries : list (string * Download.DatasetInfo))
  (local0 : list string) (state : list string * list Download.Fetch) :
  incl local0 (fst state) ->
  (forall c, In c (snd state) -> fetched_from w entries local0 c) ->
  forall todo, incl todo entries ->
  incl local0 (fst (fold_left (main_step w) todo state))
  /\ forall c, In c (snd (fold_left (main_step w) todo state)) ->
               fetched_from w entries local0 c.
Proof.
  intros Hl Hc todo. revert state Hl Hc.
  induction todo as [|entry todo IH]; intros state Hl Hc Hsub; [split; assumption|].
  cbn [fold_left]. apply IH; [| |intros x Hx; apply Hsub; right; exact Hx].
  - unfold main_step. rewrite process_dataset_files.
    destruct (files_to_download w (snd entry)) as [files|]; [|exact Hl].
    pose proof (download_files_spec w (Download.bucket (snd entry)) files (fst state)) as S.
    destruct (Download.download_files w (fst state) _ files) as [[n l2] c2].
    destruct S as (S1 & _). cbn [fst]. intros x Hx. apply S1, Hl, Hx.
  - unfold main_step. rewrite process_dataset_files.
    destruct (files_to_download w (snd entry)) as [files|] eqn:Ef; [|exact Hc].
    pose proof (download_files_spec w (Download.bucket (snd entry)) files (fst state)) as S.
    destruct (Download.download_files w (fst state) _ files) as [[n l2] c2].
    destruct S as (_ & S2 & _). cbn [snd]. intros c Hin.
    apply in_app_or in Hin as [Hin|Hin]; [apply Hc, Hin|].
    destruct (S2 c Hin) as (f & Hf & -> & Hn).
    destruct (files_to_download_In w (snd entry) _ _ Ef Hf) as (H1 & H2 & H3 & H4 & H5).
    exists entry, (Download.date f). cbn [fst snd].
    split; [apply Hsub; left; reflexivity|]. split; [reflexivity|].
    split; [exact H1|]. split; [exact H2|]. split; [exact H4|]. split; [exact H5|].
    rewrite <- H3. intros H. apply Hn, Hl, H.
Qed.

(** X23.  [1_download_zips.py], lines 110-134, 136-165, 167-197 and 199-213:
    whatever the buckets hold and whichever downloads fail, a key that
    is downloaded belongs to the listing of an enabled dataset, ends in
    '.zip', carries a calendar date in its file name, falls inside the
    date range of the dataset when both bounds are set, and names a file
    that the local directory did not hold at the start. *)
Theorem only_missing_dated_zips_are_fetched (w : Download.World)
  (datasets : list (string * Download.DatasetInfo)) (local : list string)
  (b k : string) :
  In (b, k) (snd (Download.main w datasets local)) ->
  ~ In (Download.key_filename k) local
  /\ endswith k ".zip" = true
  /\ exists dataset_key dataset_info d,
       In (dataset_key, dataset_info) datasets
       /\ Download.enabled dataset_info = true
       /\ Download.bucket dataset_info = b
       /\ In k (map Download.Key
                  (Download.contents
                     (Download.listing w b (Download.path dataset_info))))
       /\ key_date k = Some d
       /\ in_date_range dataset_info d.
Proof.
  rewrite main_is_a_fold. destruct (Download.credentials_ok w); cbn [negb snd]; [|intros []].
  intros Hin.
  destruct (fold_main_step_spec w (Download.get_datasets_from_config datasets)
              local (local, []) (incl_refl _) (fun c (H : In c []) => match H with end)
              (Download.get_datasets_from_config datasets) (incl_refl _)) as (_ & H).
  destruct (H _ Hin) as ([dk ds] & d & He & Hb & Hk & Hz & Hd & Hr & Hn).
  cbn [fst snd] in *. subst b.
  apply get_datasets_from_config_In in He as (He & _ & Hen).
  split; [exact Hn|]. split; [exact Hz|].
  exists dk, ds, d.
  split; [exact He|]. split; [exact Hen|]. split; [reflexivity|].
  split; [exact Hk|]. split; [exact Hd|exact Hr].
Qed.

Lemma dated_zip_files_raises (objects : list Download.S3Object) (obj : Download.S3Object) :
  In obj objects -> endswith (Download.Key obj) ".zip" = true ->
  (exists text, search_date (Download.key_filename (Download.Key obj)) = Some text
                /\ strptime_date text = None) ->
  Download.dated_zip_files objects = None.
Proof.
  intros Hin Hz (text & Hs & Hd).
  induction objects as [|o rest IH]; [destruct Hin|].
  cbn [Download.dated_zip_files]. destruct Hin as [->|Hin].
  - rewrite Hz, Hs, Hd. reflexivity.
  - rewrite (IH Hin).
    destruct (endswith (Download.Key o) ".zip"); [|reflexivity].
    destruct (search_date (Download.key_filename (Download.Key o))) as [m|]; [|reflexivity].
    destruct (strptime_date m); reflexivity.
Qed.

(** X24.  Lines 120-130 and 207-211 of [1_download_zips.py]: one '.zip' key
    whose file name carries digits in the shape of a date that is not a
    calendar date makes [strptime] raise inside the listing.  Nothing of
    that dataset is downloaded, whatever else its bucket holds, and the
    run goes on as if the dataset were not configured. *)
Theorem an_impossible_date_stops_the_dataset (w : Download.World)
  (before after : list (string * Download.DatasetInfo))
  (dataset_key : string) (dataset_info : Download.DatasetInfo)
  (obj : Download.S3Object) (text : string) (local : list string) :
  In obj (Download.contents
            (Download.listing w (Download.bucket dataset_info)
               (Download.path dataset_info))) ->
  endswith (Download.Key obj) ".zip" = true ->
  search_date (Download.key_filename (Download.Key obj)) = Some text ->
  strptime_date text = None ->
  Download.main w (before ++ (dataset_key, dataset_info) :: after)%list local
  = Download.main w (before ++ after)%list local.
Proof.
  intros Hin Hz Hs Hd. rewrite !main_is_a_fold.
  destruct (Download.credentials_ok w); cbn [negb]; [|reflexivity].
  assert (Skip : forall state, main_step w state (dataset_key, dataset_info) = state).
  { intros state. unfold main_step. cbn [snd].
    unfold Download.process_dataset, Download.list_available_files.
    rewrite (dated_zip_files_raises _ obj Hin Hz (ex_intro _ text (conj Hs Hd))).
    reflexivity. }
  unfold Download.get_datasets_from_config. rewrite !filter_app, !fold_left_app.
  cbn [filter fst snd].
  destruct (negb (dataset_key =? "process_list")%string && Download.enabled dataset_info);
    [|reflexivity].
  cbn [fold_left]. rewrite Skip. reflexivity.
Qed.

Lemma fold_main_step_incl (w : Download.World) (todo : list (string * Download.DatasetInfo))
  (state : list string * list Download.Fetch) :
  incl (fst state) (fst (fold_left (main_step w) todo state)).
Proof.
  revert state. induction todo as [|entry todo IH]; intros state; [apply incl_refl|].
  cbn [fold_left]. intros x Hx. apply IH.
  unfold main_step. rewrite process_dataset_files.
  destruct (files_to_download w (snd entry)) as [files|]; [|exact Hx].
  pose proof (download_files_spec w (Download.bucket (snd entry)) files (fst state)) as S.
  destruct (Download.download_files w (fst state) _ files) as [[n l2] c2].
  destruct S as (S1 & _). apply S1, Hx.
Qed.

Lemma fold_main_step_holds_all (w : Download.World)
  (todo : list (string * Download.DatasetInfo)) (state : list string * list Download.Fetch) :
  (forall b k, Download.fetch_ok w b k = true) ->
  forall entry files f,
    In entry todo -> files_to_download w (snd entry) = Some files -> In f files ->
    In (Download.filename f) (fst (fold_left (main_step w) todo state)).
Proof.
  intros Hok. revert state. induction todo as [|e todo IH]; intros state entry files f Hin Ef Hf;
    [destruct Hin|].
  cbn [fold_left]. destruct Hin as [->|Hin]; [|apply (IH _ entry files f Hin Ef Hf)].
  apply fold_main_step_incl.
  unfold main_step. rewrite process_dataset_files, Ef.
  pose proof (download_files_spec w (Download.bucket (snd entry)) files (fst state)) as S.
  destruct (Download.download_files w (fst state) _ files) as [[n l2] c2].
  destruct S as (_ & _ & S3 & _). cbn [fst]. apply (S3 (Hok _) f Hf).
Qed.

Lemma fold_main_step_nothing_left (w : Download.World)
  (todo : list (string * Download.DatasetInfo)) (local : list string) :
  (forall entry files f,
     In entry todo -> files_to_download w (snd entry) = Some files -> In f files ->
     In (Download.filename f) local) ->
  fold_left (main_step w) todo (local, []) = (local, []).
Proof.
  induction todo as [|e todo IH]; intros Hall; [reflexivity|].
  cbn [fold_left].
  assert (E : main_step w (local, []) e = (local, [])).
  { unfold main_step. rewrite process_dataset_files. cbn [fst snd].
    destruct (files_to_download w (snd e)) as [files|] eqn:Ef; [|reflexivity].
    pose proof (download_files_spec w (Download.bucket (snd e)) files local) as S.
    destruct (Download.download_files w local _ files) as [[n l2] c2].
    destruct S as (_ & _ & _ & S4).
    destruct S4 as (-> & ->); [|reflexivity].
    intros f Hf. apply (Hall e files f (or_introl eq_refl) Ef Hf). }
  rewrite E. apply IH. intros entry files f Hin. apply Hall. right. exact Hin.
Qed.

(** X25.  Lines 136-165 and 199-213 of [1_download_zips.py]: when every
    download succeeds, a second run over the same buckets downloads
    nothing and leaves the local directory as the first run left it. *)
Theorem a_second_run_downloads_nothing (w : Download.World)
  (datasets : list (string * Download.DatasetInfo)) (local : list string) :
  (forall b k, Download.fetch_ok w b k = true) ->
  Download.main w datasets (fst (Download.main w datasets local))
  = (fst (Download.main w datasets local), []).
Proof.
  intros Hok. rewrite !main_is_a_fold.
  destruct (Download.credentials_ok w); cbn [negb]; [|reflexivity].
  apply fold_main_step_nothing_left.
  intros entry files f Hin Ef Hf.
  apply (fold_main_step_holds_all w _ (local, []) Hok entry files f Hin Ef Hf).
Qed.

Open Scope list_scope.
Open Scope float_scope.

Open Scope string_scope.

Lemma upload_does_not_find_what_the_pipeline_writes_witness :
  Upload.main after_the_pipeline = (1%Z, []).
Proof.
  apply (upload_does_not_find_what_the_pipeline_writes after_the_pipeline).
  intros p H. cbn [after_the_pipeline Upload.path_exists] in H.
  apply existsb_exists in H as (q & Hq & E). apply String.eqb_eq in E. subst q.
  destruct Hq as [<-|[<-|[<-|[<-|[<-|[<-|[]]]]]]].
  - exists Incremental.input_zarr_path. split; [left; reflexivity|].
    right. right. exists "surface_curve_history_combined_data_vars.zarr". reflexivity.
  - exists Incremental.input_zarr_path. split; [left; reflexivity|]. left. reflexivity.
  - exists Incremental.input_zarr_path. split; [left; reflexivity|].
    right. left. exists ".zgroup". reflexivity.
  - exists ProduceIV.output_path. split; [right; left; reflexivity|].
    right. right. exists "aggregated_iv_cross_with_totals_flat.zarr". reflexivity.
  - exists ProduceIV.output_path. split; [right; left; reflexivity|]. left. reflexivity.
  - exists ProduceIV.output_path. split; [right; left; reflexivity|].
    right. left. exists ".zgroup". reflexivity.
Defined.

Lemma only_missing_dated_zips_are_fetched_witness :
  ~ In (Download.key_filename "hist/surface_2024-01-03.zip") ["surface_2024-01-02.zip"]
  /\ endswith "hist/surface_2024-01-03.zip" ".zip" = true
  /\ exists dataset_key dataset_info d,
       In (dataset_key, dataset_info) [("surface", surface_dataset)]
       /\ Download.enabled dataset_info = true
       /\ Download.bucket dataset_info = "bucket"
       /\ In "hist/surface_2024-01-03.zip"
            (map Download.Key
               (Download.contents
                  (Download.listing (s3 three_days) "bucket" (Download.path dataset_info))))
       /\ key_date "hist/surface_2024-01-03.zip" = Some d
       /\ in_date_range dataset_info d.
Proof.
  apply (only_missing_dated_zips_are_fetched (s3 three_days) [("surface", surface_dataset)]
           ["surface_2024-01-02.zip"] "bucket" "hist/surface_2024-01-03.zip").
  vm_compute. left. reflexivity.
Defined.

Lemma an_impossible_date_stops_the_dataset_witness :
  Download.main (s3 with_30_february) ([] ++ [("surface", surface_dataset)])%list []
  = Download.main (s3 with_30_february) ([] ++ [])%list [].
Proof.
  apply (an_impossible_date_stops_the_dataset (s3 with_30_february) [] [] "surface"
           surface_dataset (Download.mkObject "hist/surface_2024-02-30.zip" 10)
           "2024-02-30" []).
  - vm_compute. do 5 right. left. reflexivity.
  - reflexivity.
  - reflexivity.
  - reflexivity.
Defined.

Lemma a_second_run_downloads_nothing_witness :
  Download.main (s3 three_days) [("surface", surface_dataset)]
    (fst (Download.main (s3 three_days) [("surface", surface_dataset)] []))
  = (fst (Download.main (s3 three_days) [("surface", surface_dataset)] []), []).
Proof.
  apply (a_second_run_downloads_nothing (s3 three_days) [("surface", surface_dataset)] []).
  intros b k. reflexivity.
Defined.

(** With the archive of 2 January already there, only that of 3 January
    is downloaded: 1 January is outside the range, the text file is no
    archive and 'latest.zip' carries no date. *)
Example one_archive_is_missing :
  Download.main (s3 three_days) [("surface", surface_dataset)] ["surface_2024-01-02.zip"]
  = (["surface_2024-01-02.zip"; "surface_2024-01-03.zip"],
     [("bucket", "hist/surface_2024-01-03.zip")]).
Proof. vm_compute. reflexivity. Qed.

(** The archive named after 30 February keeps the two good archives
    from being downloaded. *)
Example nothing_is_downloaded_beside_30_february :
  Download.main (s3 with_30_february) [("surface", surface_dataset)] [] = ([], []).
Proof. vm_compute. reflexivity. Qed.

(** On the directory that the pipeline leaves, the upload runs no
    command; with the two stores under the names it looks for, it runs
    both. *)
Example the_upload_after_a_rename :
  Upload.main
    (Upload.mkWorld (Some (Upload.mkConfig "bucket" "iv"))
       (fun p => String.eqb p Upload.get_local_zarr_path
                 || String.eqb p Upload.get_aggregated_iv_zarr_path)
       true (fun _ => Upload.Ls_not_found) (fun _ _ => true))
  = (0%Z,
     [ (Upload.get_local_zarr_path, "gs://bucket/iv/surface_curve_history_combined.zarr");
       (Upload.get_aggregated_iv_zarr_path,
        "gs://bucket/iv/aggregated_iv_cross_with_totals.zarr") ]).
Proof. vm_compute. reflexivity. Qed.

Open Scope list_scope.
Open Scope float_scope.
